(** * rinha2025 backend: payment routing, circuit breaker, retry queue, ledger

    A shallow embedding of [backend/src/payments.ts], [backend/src/queue.ts],
    [backend/src/summary.ts] and of the probe module they import
    ([healthcheck1]/[healthcheck2]).

    The TypeScript modules keep their state in module-level [let] bindings and
    talk to the outside through [Date.now()], [fetch], [setTimeout] and a redis
    client.  Here every module's bindings become a record, the outside becomes
    the record [Env] (a clock, the answers the two processors are going to
    give, and a log of what was done), and every function becomes a state
    transformer over the part of the state it can reach. *)

From Stdlib Require Import ZArith QArith Lia.
From stdpp Require Import base option list strings gmap pretty.

Local Open Scope Z_scope.
Set Warnings "-register-all".

(** ** A small state monad *)

Definition M (S A : Type) : Type := S -> A * S.

Definition ret {S A} (a : A) : M S A := fun s => (a, s).

Definition bind {S A B} (m : M S A) (k : A -> M S B) : M S B :=
  fun s => let '(a, s') := m s in k a s'.

Definition gets {S A} (f : S -> A) : M S A := fun s => (f s, s).

Definition modify {S} (f : S -> S) : M S unit := fun s => (tt, f s).

(** [when c m]: the statement [if (c) { m }]. *)
Definition when {S} (c : bool) (m : M S unit) : M S unit :=
  if c then m else ret tt.

Declare Scope js_scope.
Delimit Scope js_scope with js.
Notation "'let*' x ':=' m 'in' k" := (bind m (fun x => k))
  (at level 10, x name, m at level 100, k at level 200) : js_scope.
Notation "'let*' ' pat ':=' m 'in' k" :=
  (bind m (fun x => match x with pat => k end))
  (at level 10, pat pattern, m at level 100, k at level 200) : js_scope.
Notation "m ;; k" := (bind m (fun _ => k))
  (at level 100, k at level 200, right associativity) : js_scope.
Local Open Scope js_scope.

(** A computation run on the first component of a pair of states. *)
Definition onFst {S T A} (m : M S A) : M (S * T) A :=
  fun '(s, t) => let '(a, s') := m s in (a, (s', t)).

(** A call that either returns or throws. *)
Inductive Try (A : Type) : Type :=
| Done (a : A)
| Raised (message : string).
Arguments Done {A} a.
Arguments Raised {A} message.

(** ** Values that only travel through the code *)

(** A parsed JSON document ([await resp.json()], [reply.send(...)]). *)
Inductive Json : Type :=
| JNull
| JBool (b : bool)
| JNum (n : Q)
| JStr (s : string)
| JArr (items : list Json)
| JObj (fields : list (string * Json)).

(** The two downstream processors.  In [payments.ts] a processor is named by
    the stats object handed to [makeRequest] ([processor1Stats],
    [processor2Stats]); in [queue.ts] and [summary.ts] by the tag
    ['default' | 'fallback']. *)
Inductive ProcessorType : Type := Default | Fallback.

Global Instance ProcessorType_eq_dec : EqDecision ProcessorType.
Proof. solve_decision. Defined.

(** [PaymentBody]. *)
Record PaymentBody : Type := mkPaymentBody {
  correlationId : string;
  amount : Q
}.

(** ** The outside world *)

(** What a processor is going to answer to the next [POST /payments]:
    a response that arrives after [latency] milliseconds, with its status
    line and its body ([None]: a body on which [resp.json()] rejects), or no
    response at all (connection refused or reset after [latency]). *)
Inductive ServerReply : Type :=
| Reply (latency : N) (status : Z) (body : option Json)
| NoReply (latency : N).
Arguments Reply latency%_N status%_Z body.
Arguments NoReply latency%_N.

(** What the [service-health] endpoint is going to answer to the next probe
    ([checkHealth]): a status code, or a failed request. *)
Inductive ProbeReply : Type :=
| ProbeStatus (latency : N) (statusCode : Z)
| ProbeError (latency : N).
Arguments ProbeStatus latency%_N statusCode%_Z.
Arguments ProbeError latency%_N.

(** What [await fetch(url, {signal})] gives back. *)
Inductive FetchResult : Type :=
| Responded (status : Z) (body : option Json)
| Rejected.

(** The log: what the run did, newest entry first. *)
Inductive Event : Type :=
| EvProbe (p : ProcessorType) (healthy : bool)
| EvFetch (p : ProcessorType) (payload : PaymentBody) (r : FetchResult)
| EvSleep (ms : Z)
| EvRecordSucces (p : ProcessorType)
| EvRecordFailure (p : ProcessorType).

Record Env : Type := mkEnv {
  clock : Z;                          (* Date.now() *)
  replies1 : list ServerReply;        (* payment-processor-1, next first *)
  replies2 : list ServerReply;        (* payment-processor-2, next first *)
  probes1 : list ProbeReply;
  probes2 : list ProbeReply;
  randoms : list string;              (* Math.random().toString(36).substr(2, 9) *)
  log : list Event
}.

Definition replies (e : Env) (p : ProcessorType) : list ServerReply :=
  match p with Default => replies1 e | Fallback => replies2 e end.

Definition probes (e : Env) (p : ProcessorType) : list ProbeReply :=
  match p with Default => probes1 e | Fallback => probes2 e end.

Definition setClock (t : Z) (e : Env) : Env :=
  mkEnv t (replies1 e) (replies2 e) (probes1 e) (probes2 e) (randoms e) (log e).

Definition setReplies (p : ProcessorType) (l : list ServerReply) (e : Env) : Env :=
  match p with
  | Default => mkEnv (clock e) l (replies2 e) (probes1 e) (probes2 e) (randoms e) (log e)
  | Fallback => mkEnv (clock e) (replies1 e) l (probes1 e) (probes2 e) (randoms e) (log e)
  end.

Definition setProbes (p : ProcessorType) (l : list ProbeReply) (e : Env) : Env :=
  match p with
  | Default => mkEnv (clock e) (replies1 e) (replies2 e) l (probes2 e) (randoms e) (log e)
  | Fallback => mkEnv (clock e) (replies1 e) (replies2 e) (probes1 e) l (randoms e) (log e)
  end.

Definition setRandoms (l : list string) (e : Env) : Env :=
  mkEnv (clock e) (replies1 e) (replies2 e) (probes1 e) (probes2 e) l (log e).

Definition record (ev : Event) (e : Env) : Env :=
  mkEnv (clock e) (replies1 e) (replies2 e) (probes1 e) (probes2 e) (randoms e)
        (ev :: log e).

(** Time passing: [await new Promise(resolve => setTimeout(resolve, ms))] and
    the time a request is in flight. *)
Definition elapse (ms : Z) (e : Env) : Env := setClock (clock e + ms) e.

Definition sleep (ms : Z) : M Env unit :=
  modify (fun e => record (EvSleep ms) (elapse ms e)).

(** [fetch(url, {body: JSON.stringify(payload), signal})] with
    [setTimeout(() => controller.abort(), timeout)]: the next answer of processor [p] is consumed; an answer that needs
    [timeout] milliseconds or more is cut off by the abort and the promise
    rejects.  A processor with no answer left refuses the connection. *)
Definition fetch (timeout : Z) (p : ProcessorType) (payload : PaymentBody)
  : M Env FetchResult :=
  fun e =>
    let '(answer, rest) :=
      match replies e p with
      | [] => (NoReply 0, [])
      | a :: l => (a, l)
      end in
    let '(r, dt) :=
      match answer with
      | Reply latency status body =>
          if Z.of_N latency <? timeout
          then (Responded status body, Z.of_N latency)
          else (Rejected, timeout)
      | NoReply latency => (Rejected, Z.min (Z.of_N latency) timeout)
      end in
    (r, record (EvFetch p payload r) (elapse dt (setReplies p rest e))).

(** [resp.ok] *)
Definition ok (status : Z) : bool := (200 <=? status) && (status <=? 299).

(** [Promise.race([healthcheckN(), <reject after 2000 ms>])], settled:
    [Some healthy] when fulfilled, [None] when rejected; with the time it took.
    [healthcheckN] fulfils with [{healthy: 200 <= statusCode < 300}] and
    rejects when the request fails. *)
Definition PROBE_TIMEOUT : Z := 2000.

Definition raceProbe (a : ProbeReply) : option bool * Z :=
  match a with
  | ProbeStatus latency statusCode =>
      if Z.of_N latency <? PROBE_TIMEOUT
      then (Some ((200 <=? statusCode) && (statusCode <? 300)), Z.of_N latency)
      else (None, PROBE_TIMEOUT)
  | ProbeError latency =>
      (None, Z.min (Z.of_N latency) PROBE_TIMEOUT)
  end.

Definition nextProbe (p : ProcessorType) (e : Env) : ProbeReply * Env :=
  match probes e p with
  | [] => (ProbeError 0, e)
  | a :: l => (a, setProbes p l e)
  end.

(** [p1Result.status === 'fulfilled' ?
       Boolean((p1Result.value as any)?.healthy ?? p1Result.value) : false] *)
Definition settledHealthy (r : option bool) : bool :=
  match r with Some healthy => healthy | None => false end.

(** [await Promise.allSettled([race1, race2])]: both probes are in flight
    together, the await ends when the slower one has settled. *)
Definition probeBoth : M Env (bool * bool) :=
  fun e =>
    let '(a1, e1) := nextProbe Default e in
    let '(a2, e2) := nextProbe Fallback e1 in
    let '(r1, t1) := raceProbe a1 in
    let '(r2, t2) := raceProbe a2 in
    let h1 := settledHealthy r1 in
    let h2 := settledHealthy r2 in
    ((h1, h2),
     record (EvProbe Fallback h2) (record (EvProbe Default h1)
       (elapse (Z.max t1 t2) e2))).

(** ** payments.ts: circuit breaker *)

Definition HEALTH_TTL : Z := 5000.
Definition CIRCUIT_BREAKER_THRESHOLD : Z := 20.
Definition CIRCUIT_BREAKER_TIMEOUT : Z := 10000.
Definition REQUEST_TIMEOUT : Z := 10000.
Definition MAX_RETRIES : Z := 2.

Record HealthCache : Type := mkHealthCache {
  last : Z;
  p1 : bool;
  p2 : bool
}.

Record ProcessorStats : Type := mkProcessorStats {
  failures : Z;
  lastFailure : Z;
  circuitOpen : bool
}.

(** The module-level bindings of [payments.ts]. *)
Record PaymentsState : Type := mkPaymentsState {
  healthCache : HealthCache;
  processor1Stats : ProcessorStats;
  processor2Stats : ProcessorStats
}.

Definition initialStats : ProcessorStats := mkProcessorStats 0 0 false.

Definition initialPayments : PaymentsState :=
  mkPaymentsState (mkHealthCache 0 false false) initialStats initialStats.

(** [isCircuitOpen(stats)], with [now] the value [Date.now()] returns in it;
    the result is the returned boolean and the stats object after the call. *)
Definition isCircuitOpen (now : Z) (stats : ProcessorStats) : bool * ProcessorStats :=
  if negb (circuitOpen stats) then (false, stats)
  else if CIRCUIT_BREAKER_TIMEOUT <? now - lastFailure stats
       then (false, mkProcessorStats 0 (lastFailure stats) false)
       else (true, stats).

(** [recordFailure(stats)] *)
Definition recordFailure (now : Z) (stats : ProcessorStats) : ProcessorStats :=
  let n := failures stats + 1 in
  mkProcessorStats n now
    (if CIRCUIT_BREAKER_THRESHOLD <=? n then true else circuitOpen stats).

(** [recordSucces(stats)] *)
Definition recordSucces (stats : ProcessorStats) : ProcessorStats :=
  mkProcessorStats 0 (lastFailure stats) false.

(** The stats object a call site passes by reference. *)
Definition statsOf (s : PaymentsState) (p : ProcessorType) : ProcessorStats :=
  match p with Default => processor1Stats s | Fallback => processor2Stats s end.

Definition setStats (p : ProcessorType) (st : ProcessorStats) (s : PaymentsState)
  : PaymentsState :=
  match p with
  | Default => mkPaymentsState (healthCache s) st (processor2Stats s)
  | Fallback => mkPaymentsState (healthCache s) (processor1Stats s) st
  end.

Definition setHealthCache (c : HealthCache) (s : PaymentsState) : PaymentsState :=
  mkPaymentsState c (processor1Stats s) (processor2Stats s).

(** The three breaker functions applied to the stats object of [p], reading
    the clock where the source reads [Date.now()]. *)
Definition isCircuitOpenOf (p : ProcessorType) : M (Env * PaymentsState) bool :=
  fun '(e, s) =>
    let '(b, st) := isCircuitOpen (clock e) (statsOf s p) in
    (b, (e, setStats p st s)).

Definition recordFailureOf (p : ProcessorType) : M (Env * PaymentsState) unit :=
  fun '(e, s) =>
    (tt, (record (EvRecordFailure p) e,
          setStats p (recordFailure (clock e) (statsOf s p)) s)).

Definition recordSuccesOf (p : ProcessorType) : M (Env * PaymentsState) unit :=
  fun '(e, s) =>
    (tt, (record (EvRecordSucces p) e,
          setStats p (recordSucces (statsOf s p)) s)).

(** ** payments.ts: getHealth *)

(** [pHealthy && !isCircuitOpen(stats)]: [isCircuitOpen] runs (and may heal
    the breaker) only when the probe said healthy. *)
Definition healthyAndClosed (p : ProcessorType) (healthy : bool)
  : M (Env * PaymentsState) bool :=
  if healthy
  then let* isOpen := isCircuitOpenOf p in ret (negb isOpen)
  else ret false.

(** [getHealth()].  The [catch] of the source is not reachable:
    [Promise.allSettled] never rejects and the two probe calls return
    promises. *)
Definition getHealth : M (Env * PaymentsState) (bool * bool) :=
  let* now := gets (fun '(e, _) => clock e) in
  let* cache := gets (fun '(_, s) => healthCache s) in
  if now - last cache <? HEALTH_TTL then ret (p1 cache, p2 cache)
  else
    let* '(p1Healthy, p2Healthy) := onFst probeBoth in
    let* h1 := healthyAndClosed Default p1Healthy in
    let* h2 := healthyAndClosed Fallback p2Healthy in
    modify (fun '(e, s) => (e, setHealthCache (mkHealthCache now h1 h2) s)) ;;
    ret (h1, h2).

(** ** payments.ts: makeRequest *)

(** [{success: boolean; response?: any; status?: number}] *)
Record RequestResult : Type := mkRequestResult {
  success : bool;
  response : option Json;
  status : option Z
}.

Definition failed_ : RequestResult := mkRequestResult false None None.

(** How one pass through the [try] block of the loop body ends. *)
Inductive Completion : Type :=
| Returned (r : RequestResult)
| Continued
| Thrown.

(** [const data = await resp.json(); return {success: true, ...}] *)
Definition returnJson {S} (st : Z) (body : option Json) : M S Completion :=
  match body with
  | Some data => ret (Returned (mkRequestResult true (Some data) (Some st)))
  | None => ret Thrown
  end.

(** The [try] block of [makeRequest]'s loop body (lines 167-194). *)
Definition tryBlock (p : ProcessorType) (payload : PaymentBody) (attempt : Z)
  : M (Env * PaymentsState) Completion :=
  let* r := onFst (fetch REQUEST_TIMEOUT p payload) in
  match r with
  | Rejected => ret Thrown
  | Responded st body =>
      if ok st then
        recordSuccesOf p ;; returnJson st body
      else if 500 <=? st then
        when (attempt =? MAX_RETRIES) (recordFailureOf p) ;;
        ret Continued
      else
        recordSuccesOf p ;; returnJson st body
  end.

(** The [catch] block (lines 195-205). *)
Definition catchBlock (p : ProcessorType) (attempt : Z)
  : M (Env * PaymentsState) unit :=
  when (attempt =? MAX_RETRIES) (recordFailureOf p) ;;
  when (attempt <? MAX_RETRIES) (onFst (sleep (1000 * (attempt + 1)))).

Definition loopBody (p : ProcessorType) (payload : PaymentBody) (attempt : Z)
  : M (Env * PaymentsState) Completion :=
  let* c := tryBlock p payload attempt in
  match c with
  | Thrown => catchBlock p attempt ;; ret Continued
  | _ => ret c
  end.

(** [for (let attempt = ...; attempt <= MAX_RETRIES; attempt++) {...}
     return {success: false}], with [n] the number of passes left. *)
Fixpoint requestLoop (n : nat) (p : ProcessorType) (payload : PaymentBody)
  (attempt : Z) : M (Env * PaymentsState) RequestResult :=
  match n with
  | O => ret failed_
  | S n' =>
      let* c := loopBody p payload attempt in
      match c with
      | Returned r => ret r
      | _ => requestLoop n' p payload (attempt + 1)
      end
  end.

(** [makeRequest(url, payload, stats, processorName, logger)]: [p] stands for
    the url and for the stats object, which the call sites always pair. *)
Definition makeRequest (p : ProcessorType) (payload : PaymentBody)
  : M (Env * PaymentsState) RequestResult :=
  let* isOpen := isCircuitOpenOf p in
  if isOpen then ret failed_
  else requestLoop (Z.to_nat (MAX_RETRIES + 1)) p payload 0.

(** ** summary.ts: the settlement ledger *)

(** The hash stored under one key by [redis.hset(key, {processor, amount,
    correlationId, timestamp})]; [s_correlationId] is [None] when the caller
    left the third argument out ([undefined]). *)
Record Settlement : Type := mkSettlement {
  s_processor : ProcessorType;
  s_amount : Q;
  s_correlationId : option string;
  s_timestamp : Z
}.

(** The redis client: whether commands currently go through, and the hashes
    stored so far. *)
Record Redis : Type := mkRedis {
  up : bool;
  hashes : gmap string Settlement
}.

(** The template literal [`payment:${correlationId}`]; an argument that was
    not passed is [undefined] and prints as such. *)
Definition paymentKey (correlationId : option string) : string :=
  "payment:" +:+ match correlationId with
                 | Some c => c
                 | None => "undefined"
                 end.

(** [registerPayment(processor, amount, correlationId)].  A command sent while
    redis is down rejects, and so does the call. *)
Definition registerPayment (processor : ProcessorType) (amount : Q)
  (correlationId : option string) : M (Env * Redis) (Try unit) :=
  fun '(e, r) =>
    let key := paymentKey correlationId in
    if negb (up r) then (Raised "redis", (e, r))
    else
      match hashes r !! key with
      | Some _ => (Done tt, (e, r))
      | None =>
          let timestamp := clock e in
          (Done tt,
           (e, mkRedis (up r)
                 (<[key := mkSettlement processor amount correlationId timestamp]>
                    (hashes r))))
      end.

(** ** queue.ts *)

Definition QUEUE_MAX_SIZE : Z := 5000.
Definition QUEUE_PROCESS_INTERVAL : Z := 3000.
Definition QUEUE_BATCH_SIZE : nat := 10.
Definition QUEUE_MAX_RETRIES : Z := 3.
Definition QUEUE_INITIAL_DELAY : Z := 2000.
Definition QUEUE_MAX_DELAY : Z := 60000.
Definition QUEUE_BACKOFF_MULTIPLIER : Z := 2.
Definition QUEUE_REQUEST_TIMEOUT : Z := 5000.
Definition QUEUE_IDLE_THRESHOLD : Z := 30000.

(** [QueuedPayment]; [requestedAt] and [originalRequestTime] are both the
    time of the enqueue, the first as an ISO string in the source. *)
Record QueuedPayment : Type := mkQueuedPayment {
  payment : PaymentBody;
  id : string;
  attempts : Z;
  lastAttempt : Z;
  maxRetries : Z;
  delay : Z;
  originalRequestTime : Z;
  requestedAt : Z
}.

Record QueueStats : Type := mkQueueStats {
  queued : Z;
  processed : Z;
  failed : Z;
  retries : Z
}.

(** The module-level bindings of [queue.ts], and the one pending
    [setTimeout(processQueue, ...)] ([Some t]: due at time [t]). *)
Record QueueState : Type := mkQueueState {
  paymentQueue : list QueuedPayment;
  queueProcessorRunning : bool;
  lastQueueActivity : Z;
  queueStats : QueueStats;
  processQueueTimer : option Z
}.

Definition initialQueue (now : Z) : QueueState :=
  mkQueueState [] false now (mkQueueStats 0 0 0 0) None.

(** [makeQueueRequest(url, payload, logger)] *)
Definition makeQueueRequest (p : ProcessorType) (payload : PaymentBody)
  : M Env RequestResult :=
  let* r := fetch QUEUE_REQUEST_TIMEOUT p payload in
  match r with
  | Rejected => ret failed_
  | Responded st body =>
      if ok st then
        match body with
        | Some data => ret (mkRequestResult true (Some data) (Some st))
        | None => ret failed_
        end
      else if 500 <=? st then ret failed_
      else
        match body with
        | Some data => ret (mkRequestResult true (Some data) (Some st))
        | None => ret failed_
        end
  end.

(** [startQueueProcessor()] *)
Definition startQueueProcessor (now : Z) (q : QueueState) : QueueState :=
  if queueProcessorRunning q then q
  else mkQueueState (paymentQueue q) true (lastQueueActivity q) (queueStats q)
                    (Some (now + QUEUE_PROCESS_INTERVAL)).

(** [Math.random().toString(36).substr(2, 9)] *)
Definition nextRandom : M Env string :=
  fun e =>
    match randoms e with
    | [] => ("", e)
    | r :: l => (r, setRandoms l e)
    end.

(** [queuePayment(payment)] *)
Definition queuePayment (body : PaymentBody) : M (Env * QueueState) (Try string) :=
  let* q := gets snd in
  if QUEUE_MAX_SIZE <=? Z.of_nat (length (paymentQueue q))
  then ret (Raised "Payment queue is full")
  else
    let* now := gets (fun '(e, _) => clock e) in
    let* r := onFst nextRandom in
    let queuedPayment :=
      mkQueuedPayment body ("payment_" +:+ pretty now +:+ "_" +:+ r)
                      0 0 QUEUE_MAX_RETRIES QUEUE_INITIAL_DELAY now now in
    modify (fun '(e, q) =>
      (e, startQueueProcessor now
            (mkQueueState (paymentQueue q ++ [queuedPayment])
                          (queueProcessorRunning q)
                          now
                          (mkQueueStats (queued (queueStats q) + 1)
                                        (processed (queueStats q))
                                        (failed (queueStats q))
                                        (retries (queueStats q)))
                          (processQueueTimer q)))) ;;
    ret (Done (id queuedPayment)).

(** [getQueueStatus()]: [size] and [maxSize]. *)
Definition queueSize (q : QueueState) : Z := Z.of_nat (length (paymentQueue q)).

(** [getQueuedPayment(queueId)] *)
Definition getQueuedPayment (queueId : string) (q : QueueState)
  : option QueuedPayment :=
  List.find (fun p => bool_decide (id p = queueId)) (paymentQueue q).

(** What the queue worker can reach: the outside, its own module state and
    the ledger. *)
Definition WorkerState : Type := Env * QueueState * Redis.

Definition workerEnv {A} (m : M Env A) : M WorkerState A :=
  fun '(e, q, r) => let '(a, e') := m e in (a, (e', q, r)).

Definition workerLedger {A} (m : M (Env * Redis) A) : M WorkerState A :=
  fun '(e, q, r) => let '(a, (e', r')) := m (e, r) in (a, (e', q, r')).

Definition updateStats (f : QueueStats -> QueueStats) : M WorkerState unit :=
  modify (fun '(e, q, r) =>
    (e, mkQueueState (paymentQueue q) (queueProcessorRunning q)
                     (lastQueueActivity q) (f (queueStats q))
                     (processQueueTimer q), r)).

Definition incProcessed (s : QueueStats) : QueueStats :=
  mkQueueStats (queued s) (processed s + 1) (failed s) (retries s).
Definition incFailed (s : QueueStats) : QueueStats :=
  mkQueueStats (queued s) (processed s) (failed s + 1) (retries s).
Definition incRetries (s : QueueStats) : QueueStats :=
  mkQueueStats (queued s) (processed s) (failed s) (retries s + 1).

(** The list [processorsToTry] built in [processQueuedPayment]
    (lines 135-162). *)
Definition processorsToTry (p1 p2 : bool) : list ProcessorType :=
  let l0 : list ProcessorType := [] in
  let l1 := if p1 then l0 ++ [Default] else l0 in
  let l2 := if p2 then l1 ++ [Fallback] else l1 in
  if (length l2 =? 0)%nat then l2 ++ [Default; Fallback] else l2.

(** The loop [for (const processor of processorsToTry)] (lines 165-191);
    the result tells whether the function returned from inside the loop.
    [registerPayment] is called with two arguments; what it throws is caught
    and logged. *)
Fixpoint tryProcessors (ps : list ProcessorType) (pay : QueuedPayment)
  : M WorkerState bool :=
  match ps with
  | [] => ret false
  | processor :: rest =>
      let* result := workerEnv (makeQueueRequest processor (payment pay)) in
      if success result then
        updateStats incProcessed ;;
        let* _ := workerLedger
                    (registerPayment processor (amount (payment pay)) None) in
        ret true
      else tryProcessors rest pay
  end.

Definition setAttempt (now : Z) (p : QueuedPayment) : QueuedPayment :=
  mkQueuedPayment (payment p) (id p) (attempts p + 1) now (maxRetries p)
                  (delay p) (originalRequestTime p) (requestedAt p).

Definition setDelay (d : Z) (p : QueuedPayment) : QueuedPayment :=
  mkQueuedPayment (payment p) (id p) (attempts p) (lastAttempt p) (maxRetries p)
                  d (originalRequestTime p) (requestedAt p).

(** [processQueuedPayment(payment, healthCheck, logger)]: the returned
    boolean, and the payment object as the call leaves it. *)
Definition processQueuedPayment (pay : QueuedPayment)
  (healthCheck : M Env (bool * bool)) : M WorkerState (bool * QueuedPayment) :=
  let* now := gets (fun '(e, _, _) => clock e) in
  if now - lastAttempt pay <? delay pay then ret (false, pay)
  else
    let pay := setAttempt now pay in
    let* '(p1, p2) := workerEnv healthCheck in
    let* done := tryProcessors (processorsToTry p1 p2) pay in
    if done then ret (true, pay)
    else if maxRetries pay <=? attempts pay then
      updateStats incFailed ;;
      ret (true, pay)
    else
      let pay := setDelay (Z.min (delay pay * QUEUE_BACKOFF_MULTIPLIER)
                                 QUEUE_MAX_DELAY) pay in
      updateStats incRetries ;;
      ret (false, pay).

Definition setLastQueueActivity : M WorkerState unit :=
  modify (fun '(e, q, r) =>
    (e, mkQueueState (paymentQueue q) (queueProcessorRunning q) (clock e)
                     (queueStats q) (processQueueTimer q), r)).

(** The loop [for (const payment of paymentsToProcess)] of [processQueue]
    (lines 269-282).  [processQueuedPayment] catches what its callees throw,
    so the [catch] of the loop body is not taken. *)
Fixpoint processBatch (healthCheck : M Env (bool * bool))
  (paymentsToProcess remainingPayments : list QueuedPayment)
  (processedInBatch : Z) : M WorkerState (list QueuedPayment * Z) :=
  match paymentsToProcess with
  | [] => ret (remainingPayments, processedInBatch)
  | pay :: rest =>
      let* '(shouldRemove, pay') := processQueuedPayment pay healthCheck in
      if shouldRemove then
        setLastQueueActivity ;;
        processBatch healthCheck rest remainingPayments (processedInBatch + 1)
      else
        processBatch healthCheck rest (pay' :: remainingPayments) processedInBatch
  end.

Definition setQueue (l : list QueuedPayment) (running : bool) (timer : option Z)
  : M WorkerState unit :=
  modify (fun '(e, q, r) =>
    (e, mkQueueState l running (lastQueueActivity q) (queueStats q) timer, r)).

(** One run of the [processQueue] closure of [startQueueProcessor], from the
    timer that fires it to the [setTimeout] that schedules the next one, with
    no other handler interleaved.  The [healthCheck] it builds is the pair of
    raced probes, with neither cache nor breaker. *)
Definition processQueue : M WorkerState unit :=
  let* '(e, q, _) := gets (fun s => s) in
  if (length (paymentQueue q) =? 0)%nat then
    if QUEUE_IDLE_THRESHOLD <? clock e - lastQueueActivity q
    then setQueue (paymentQueue q) false None
    else setQueue (paymentQueue q) (queueProcessorRunning q)
                  (Some (clock e + QUEUE_PROCESS_INTERVAL * 2))
  else
    let paymentsToProcess := take QUEUE_BATCH_SIZE (paymentQueue q) in
    let remainingPayments := drop QUEUE_BATCH_SIZE (paymentQueue q) in
    let* '(remaining, processedInBatch) :=
      processBatch probeBoth paymentsToProcess remainingPayments 0 in
    let nextInterval :=
      if 0 <? processedInBatch then QUEUE_PROCESS_INTERVAL / 2
      else QUEUE_PROCESS_INTERVAL in
    let* now := gets (fun '(e, _, _) => clock e) in
    setQueue remaining (queueProcessorRunning q) (Some (now + nextInterval)).

(** ** payments.ts: the POST /payments handler *)

Record World : Type := mkWorld {
  env : Env;
  paymentsState : PaymentsState;
  queueState : QueueState;
  redis : Redis
}.

Definition inPayments {A} (m : M (Env * PaymentsState) A) : M World A :=
  fun w =>
    let '(a, (e, s)) := m (env w, paymentsState w) in
    (a, mkWorld e s (queueState w) (redis w)).

Definition inQueue {A} (m : M (Env * QueueState) A) : M World A :=
  fun w =>
    let '(a, (e, q)) := m (env w, queueState w) in
    (a, mkWorld e (paymentsState w) q (redis w)).

Definition inLedger {A} (m : M (Env * Redis) A) : M World A :=
  fun w =>
    let '(a, (e, r)) := m (env w, redis w) in
    (a, mkWorld e (paymentsState w) (queueState w) r).

Definition inWorker {A} (m : M WorkerState A) : M World A :=
  fun w =>
    let '(a, (e, q, r)) := m (env w, queueState w, redis w) in
    (a, mkWorld e (paymentsState w) q r).

(** How the handler ends: with [reply.code(code).send(body)], or by
    rejecting (an awaited call threw and nothing caught it). *)
Inductive HandlerOutcome : Type :=
| Replied (code : Z) (body : Json)
| Uncaught.

(** [result.status || 200] *)
Definition statusOr200 (st : option Z) : Z :=
  match st with
  | Some s => if s =? 0 then 200 else s
  | None => 200
  end.

(** [reply.send(result.response)] *)
Definition sent (r : option Json) : Json :=
  match r with Some data => data | None => JNull end.

(** [const result = await makeRequest(...); if (result.success) {
      await registerPayment(type, amount); return reply.code(...).send(...) }]
    (lines 288-299 and 303-314); [None] when the [if] is not taken. *)
Definition settle (p : ProcessorType) (body : PaymentBody)
  : M World (option HandlerOutcome) :=
  let* result := inPayments (makeRequest p body) in
  if success result then
    let* t := inLedger (registerPayment p (amount body) None) in
    match t with
    | Done _ => ret (Some (Replied (statusOr200 (status result))
                                   (sent (response result))))
    | Raised _ => ret (Some Uncaught)
    end
  else ret None.

Definition overloadBody (body : PaymentBody) (size : Z) : Json :=
  JObj [("error", JStr "System overloaded: payment processors unavailable and queue at capacity");
        ("correlationId", JStr (correlationId body));
        ("queueSize", JNum (inject_Z size));
        ("maxQueueSize", JNum (inject_Z QUEUE_MAX_SIZE))].

Definition queuedBody (body : PaymentBody) (queueId : string) : Json :=
  JObj [("correlationId", JStr (correlationId body));
        ("queueId", JStr queueId);
        ("status", JStr "queued")].

Definition queueFullBody (body : PaymentBody) : Json :=
  JObj [("error", JStr "Payment processors are unavailavle and queue is full");
        ("correlationId", JStr (correlationId body))].

(** The handler of [fastify.post('/payments', ...)] (lines 262-335). *)
Definition payments (body : PaymentBody) : M World HandlerOutcome :=
  let* '(p1, p2) := inPayments getHealth in
  let* size := gets (fun w => queueSize (queueState w)) in
  if negb p1 && negb p2 && (QUEUE_MAX_SIZE <=? size) then
    ret (Replied 500 (overloadBody body size))
  else
    let* first := (if p1 then settle Default body else ret None) in
    match first with
    | Some out => ret out
    | None =>
        let* second := (if p2 then settle Fallback body else ret None) in
        match second with
        | Some out => ret out
        | None =>
            let* t := inQueue (queuePayment body) in
            match t with
            | Done queueId => ret (Replied 200 (queuedBody body queueId))
            | Raised _ => ret (Replied 500 (queueFullBody body))
            end
        end
    end.

(** ** Vocabulary of the statements *)

(** *** The breaker as a state machine *)

(** The states a stats object can be in: it starts as [initialStats] and is
    only ever touched by the three breaker functions. *)
Inductive BreakerReachable : ProcessorStats -> Prop :=
| reach_initial : BreakerReachable initialStats
| reach_failure now s :
    BreakerReachable s -> BreakerReachable (recordFailure now s)
| reach_succes s :
    BreakerReachable s -> BreakerReachable (recordSucces s)
| reach_check now s :
    BreakerReachable s -> BreakerReachable (snd (isCircuitOpen now s)).

(** [recordFailure] called once at each of the given times, oldest first. *)
Definition recordFailures (times : list Z) (s : ProcessorStats) : ProcessorStats :=
  fold_left (fun s now => recordFailure now s) times s.

(** *** Health probes *)

(** The answer the next probe of [p] is going to get. *)
Definition nextProbeReply (e : Env) (p : ProcessorType) : ProbeReply :=
  fst (nextProbe p e).

(** What a raced probe says about the processor, before the breaker is
    consulted. *)
Definition rawHealthy (a : ProbeReply) : bool := settledHealthy (fst (raceProbe a)).

(** The time a raced probe takes to settle. *)
Definition probeTime (a : ProbeReply) : Z := snd (raceProbe a).

(** *** Reading the log *)

Definition isFetch (ev : Event) : bool :=
  match ev with EvFetch _ _ _ => true | _ => false end.

(** The number of downstream calls in a stretch of the log. *)
Definition fetchCount (seg : list Event) : nat := length (filter isFetch seg).

(** The number of downstream calls made to [p]. *)
Definition isFetchTo (p : ProcessorType) (ev : Event) : bool :=
  match ev with
  | EvFetch p' _ _ => bool_decide (p' = p)
  | _ => false
  end.

Definition fetchesTo (p : ProcessorType) (seg : list Event) : nat :=
  length (filter (isFetchTo p) seg).

(** The latest downstream call in a stretch of the log (newest first). *)
Fixpoint lastFetch (seg : list Event)
  : option (ProcessorType * PaymentBody * FetchResult) :=
  match seg with
  | [] => None
  | EvFetch p payload r :: _ => Some (p, payload, r)
  | _ :: seg' => lastFetch seg'
  end.

(** The pauses taken in a stretch of the log, oldest first. *)
Definition pauses (seg : list Event) : list Z :=
  rev (omap (fun ev => match ev with EvSleep ms => Some ms | _ => None end) seg).

(** A downstream answer on which [makeRequest] and [makeQueueRequest] return
    [success: true]: a response (it arrived before the abort) with a status
    below 500 and a body that parsed. *)
Definition settles (r : FetchResult) : bool :=
  match r with
  | Responded st (Some _) => st <? 500
  | _ => false
  end.

(** The latest downstream call of a stretch of the log got such an
    answer. *)
Definition lastSettles (seg : list Event) : bool :=
  match lastFetch seg with
  | Some (_, _, r) => settles r
  | None => false
  end.



(** *** Scenarios *)

Definition accepted : Json := JObj [("message", JStr "payment processed successfully")].

(** Both processors healthy, the default one accepts the next two payments. *)
Definition twoPayments : World :=
  mkWorld (mkEnv 100000
                 [Reply 10 200 (Some accepted); Reply 10 200 (Some accepted)] []
                 [ProbeStatus 5 200] [ProbeStatus 7 200] [] [])
          initialPayments (initialQueue 0) (mkRedis true ∅).

(** A payment waiting in the queue, due for its first attempt, and a default
    processor that accepts it. *)
Definition waiting : QueuedPayment :=
  mkQueuedPayment (mkPaymentBody "c" 30) "payment_90000_k3x9" 0 0
                  QUEUE_MAX_RETRIES QUEUE_INITIAL_DELAY 90000 90000.

Definition oneQueued (redisUp : bool) : WorkerState :=
  (mkEnv 100000 [Reply 10 200 (Some accepted)] []
         [ProbeStatus 5 200] [ProbeStatus 7 200] [] [],
   mkQueueState [waiting] true 90000 (mkQueueStats 1 0 0 0) (Some 100000),
   mkRedis redisUp ∅).

(** The default processor rejects the payment with 422 and a JSON body. *)
Definition rejected422 : World :=
  mkWorld (mkEnv 100000
                 [Reply 10 422 (Some (JObj [("message", JStr "unprocessable")]))] []
                 [ProbeStatus 5 200] [ProbeStatus 7 200] [] [])
          initialPayments (initialQueue 0) (mkRedis true ∅).

(** *** The queue worker and its processors *)

(** The answer the next call to [p] is going to get. *)
Definition nextReply (e : Env) (p : ProcessorType) : ServerReply :=
  match replies e p with
  | [] => NoReply 0
  | a :: _ => a
  end.

(** An answer on which [makeQueueRequest] returns [success: true]: it arrives
    before the abort, its status is below 500 and its body parses. *)
Definition accepts (a : ServerReply) : bool :=
  match a with
  | Reply latency st (Some _) =>
      (Z.of_N latency <? QUEUE_REQUEST_TIMEOUT) && (st <? 500)
  | _ => false
  end.


(** The worker coming back to one queued payment cycle after cycle, [wait]
    milliseconds going by before each cycle, until [processQueuedPayment]
    says to remove it: whether it was removed, the payment object and the
    state at the end. *)
Fixpoint retryCycles (waits : list N) (pay : QueuedPayment) (s : WorkerState)
  : bool * QueuedPayment * WorkerState :=
  match waits with
  | [] => (false, pay, s)
  | wait :: rest =>
      let '(e, q, r) := s in
      let '((shouldRemove, pay'), s') :=
        processQueuedPayment pay probeBoth (elapse (Z.of_N wait) e, q, r) in
      if shouldRemove then (true, pay', s') else retryCycles rest pay' s'
  end.

Definition workerStats (s : WorkerState) : QueueStats :=
  let '(_, q, _) := s in queueStats q.

Definition workerLedgerOf (s : WorkerState) : Redis :=
  let '(_, _, r) := s in r.

(** Nothing answers: every call is refused at once. *)
Definition allDown (redisUp : bool) : WorkerState :=
  (mkEnv 100000 [] [] [] [] [] [],
   mkQueueState [waiting] true 90000 (mkQueueStats 1 0 0 0) (Some 100000),
   mkRedis redisUp ∅).

(** The processor on which the worker's attempt is going to succeed, if any:
    the first of the list whose next answer is an accepting one. *)
Definition settlesOn (e : Env) (ps : list ProcessorType) : option ProcessorType :=
  List.find (fun p => accepts (nextReply e p)) ps.

(** The health the worker's own probe round is going to report. *)
Definition probedHealth (e : Env) : bool * bool := fst (probeBoth e).

Definition countProcessed (q : QueueState) : QueueState :=
  mkQueueState (paymentQueue q) (queueProcessorRunning q) (lastQueueActivity q)
               (incProcessed (queueStats q)) (processQueueTimer q).

(** Both processors answer 503 to everything; probes find them healthy. *)
Definition unavailable : ServerReply :=
  Reply 20 503 (Some (JObj [("message", JStr "unavailable")])).

Definition bothFailing : World :=
  mkWorld (mkEnv 100000 (replicate 12 unavailable) (replicate 12 unavailable)
                 (replicate 4 (ProbeStatus 5 200)) (replicate 4 (ProbeStatus 7 200))
                 ["k3x9"] [])
          initialPayments (initialQueue 0) (mkRedis true ∅).

(** Time going by between two handlers. *)
Definition later (ms : Z) : M World unit :=
  modify (fun w => mkWorld (elapse ms (env w)) (paymentsState w) (queueState w) (redis w)).

(** ** The rest of queue.ts *)

(** What [getQueueStatus()] returns. *)
Record QueueStatus : Type := mkQueueStatus {
  st_size : Z;
  st_processing : bool;
  st_stats : QueueStats;
  st_maxSize : Z
}.

(** [getQueueStatus()] *)
Definition getQueueStatus (q : QueueState) : QueueStatus :=
  mkQueueStatus (Z.of_nat (length (paymentQueue q))) (queueProcessorRunning q)
                (queueStats q) QUEUE_MAX_SIZE.

(** [forceProcessQueue()] *)
Definition forceProcessQueue (now : Z) (q : QueueState) : QueueState :=
  if negb (queueProcessorRunning q) then startQueueProcessor now q else q.

(** ** The rest of payments.ts *)

Definition statusOf (healthy : bool) (s : ProcessorStats) : Json :=
  JObj [("healthy", JBool healthy);
        ("circuitOpen", JBool (circuitOpen s));
        ("failures", JNum (inject_Z (failures s)))].

Definition queueStatusJson (s : QueueStatus) : Json :=
  JObj [("size", JNum (inject_Z (st_size s)));
        ("processing", JBool (st_processing s));
        ("stats", JObj [("queued", JNum (inject_Z (queued (st_stats s))));
                        ("processed", JNum (inject_Z (processed (st_stats s))));
                        ("failed", JNum (inject_Z (failed (st_stats s))));
                        ("retries", JNum (inject_Z (retries (st_stats s))))]);
        ("maxSize", JNum (inject_Z (st_maxSize s)))].

(** The handler of [fastify.get('/payments/status', ...)] (lines 220-239);
    [reply.send] without a code answers 200. *)
Definition paymentsStatus : M World HandlerOutcome :=
  let* '(p1, p2) := inPayments getHealth in
  let* w := gets (fun w => w) in
  ret (Replied 200
         (JObj [("processors",
                 JObj [("processor1", statusOf p1 (processor1Stats (paymentsState w)));
                       ("processor2", statusOf p2 (processor2Stats (paymentsState w)))]);
                ("queue", queueStatusJson (getQueueStatus (queueState w)))])).

(** The handler of [fastify.get('/payments/queue/:queueId', ...)]
    (lines 241-259). *)
Definition paymentsQueueItem (queueId : string) (q : QueueState) : HandlerOutcome :=
  match getQueuedPayment queueId q with
  | None => Replied 404 (JObj [("error", JStr "Queued payment not found")])
  | Some queuedPayment =>
      Replied 200
        (JObj [("queueId", JStr (id queuedPayment));
               ("correlationId", JStr (correlationId (payment queuedPayment)));
               ("status", JStr "processing");
               ("attempts", JNum (inject_Z (attempts queuedPayment)));
               ("maxRetries", JNum (inject_Z (maxRetries queuedPayment)));
               ("nextAttempt",
                JNum (inject_Z (lastAttempt queuedPayment + delay queuedPayment)));
               ("queuedAt", JNum (inject_Z (originalRequestTime queuedPayment)))])
  end.

(** ** The rest of summary.ts: GET /payments-summary *)

(** A bound of the query: [from ? new Date(from).getTime() : -Infinity] (and
    the same with [to] and [Infinity]).  A missing or empty parameter gives
    the infinity; a string that is no date gives [NaN]. *)
Inductive TimeBound : Type :=
| Unbounded
| NotADate
| At (t : Z).

(** [ts < minTs] and [ts > maxTs]; a comparison with an infinity on its own
    side or with [NaN] is false. *)
Definition beforeMin (ts : Z) (minTs : TimeBound) : bool :=
  match minTs with At t => ts <? t | _ => false end.

Definition afterMax (ts : Z) (maxTs : TimeBound) : bool :=
  match maxTs with At t => t <? ts | _ => false end.

Section Summary.

(** The sums are JavaScript numbers: [Num] stands for the doubles, with
    the [0] the groups start from, [total += amount] and
    [Number(total.toFixed(2))]. *)
Variable Num : Type.
Variable zero : Num.
Variable add : Num -> Q -> Num.
Variable toFixed2 : Num -> Num.

(** [defaultGroup] and [fallbackGroup]. *)
Record Group : Type := mkGroup {
  totalRequests : Z;
  totalAmount : Num;
  correlationIds : list (option string)
}.

Definition emptyGroup : Group := mkGroup 0 zero [].

Definition addTo (s : Settlement) (g : Group) : Group :=
  mkGroup (totalRequests g + 1) (add (totalAmount g) (s_amount s))
          (correlationIds g ++ [s_correlationId s]).

(** The body of [for (const key of keys)] (lines 73-91) on the two
    groups.  A key whose hash is gone reads as [{}]: its timestamp is
    [NaN] and it is skipped. *)
Definition summaryStep (store : gmap string Settlement) (minTs maxTs : TimeBound)
  (groups : Group * Group) (key : string) : Group * Group :=
  match store !! key with
  | None => groups
  | Some data =>
      let ts := s_timestamp data in
      if beforeMin ts minTs || afterMax ts maxTs then groups
      else
        match s_processor data with
        | Default => (addTo data (fst groups), snd groups)
        | Fallback => (fst groups, addTo data (snd groups))
        end
  end.

(** What the route sends: [{default: {totalRequests, totalAmount},
    fallback: {totalRequests, totalAmount}}]. *)
Record SummaryReply : Type := mkSummaryReply {
  default_totalRequests : Z;
  default_totalAmount : Num;
  fallback_totalRequests : Z;
  fallback_totalAmount : Num
}.

(** The handler of [fastify.get('/payments-summary', ...)] (lines 49-108).
    [keys] is what [redis.keys('payment:*')] lists, in the order redis
    lists it; with redis down the command rejects and so does the
    handler. *)
Definition paymentsSummary (keys : list string) (minTs maxTs : TimeBound)
  (r : Redis) : Try SummaryReply :=
  if negb (up r) then Raised "redis"
  else
    let '(defaultGroup, fallbackGroup) :=
      fold_left (summaryStep (hashes r) minTs maxTs) keys (emptyGroup, emptyGroup) in
    Done (mkSummaryReply (totalRequests defaultGroup)
                         (toFixed2 (totalAmount defaultGroup))
                         (totalRequests fallbackGroup)
                         (toFixed2 (totalAmount fallbackGroup))).

End Summary.

Arguments mkGroup {Num}.
Arguments totalRequests {Num}.
Arguments totalAmount {Num}.
Arguments correlationIds {Num}.
Arguments mkSummaryReply {Num}.
Arguments default_totalRequests {Num}.
Arguments default_totalAmount {Num}.
Arguments fallback_totalRequests {Num}.
Arguments fallback_totalAmount {Num}.

(** A listing of the keys of the store, as [redis.keys] gives one: every key
    once, in some order. *)
Definition listsKeys (keys : list string) (store : gmap string Settlement) : Prop :=
  NoDup keys /\ forall k, k ∈ keys <-> is_Some (store !! k).

(** The settlements of [processor] whose timestamp lies between the bounds,
    both included; a missing or unreadable bound does not bound. *)
Definition withinBounds (minTs maxTs : TimeBound) (ts : Z) : Prop :=
  match minTs with At a => a <= ts | _ => True end
  /\ match maxTs with At b => ts <= b | _ => True end.

Definition counted (store : gmap string Settlement) (processor : ProcessorType)
  (minTs maxTs : TimeBound) (key : string) : bool :=
  match store !! key with
  | Some data =>
      bool_decide (s_processor data = processor)
      && negb (beforeMin (s_timestamp data) minTs)
      && negb (afterMax (s_timestamp data) maxTs)
  | None => false
  end.

(** The [totalRequests] the summary reports for [processor]. *)
Definition requestsOf {Num} (processor : ProcessorType) (reply : SummaryReply Num) : Z :=
  match processor with
  | Default => default_totalRequests reply
  | Fallback => fallback_totalRequests reply
  end.

(** Two settlements, one per processor, a minute apart. *)
Definition twoSettlements : Redis :=
  mkRedis true
    (<["payment:a" := mkSettlement Default 10 (Some "a") 100000]>
       (<["payment:b" := mkSettlement Fallback 20 (Some "b") 160000]> ∅)).

(** *** The queue module as a state machine *)

Definition setQueueStats (s : QueueStats) (q : QueueState) : QueueState :=
  mkQueueState (paymentQueue q) (queueProcessorRunning q) (lastQueueActivity q)
               s (processQueueTimer q).

(** The states the bindings of [queue.ts] can be in: the module is loaded at
    some time, and from then on payments are enqueued, the processor is
    forced, and the [processQueue] timer fires while the processor is
    running, each of them run to its end before the next starts; the
    outside and the ledger are whatever they are at that moment. *)
Inductive QueueReachable : QueueState -> Prop :=
| queue_loaded now : QueueReachable (initialQueue now)
| queue_enqueue body e q :
    QueueReachable q ->
    QueueReachable (snd (queuePayment body (e, q))).2
| queue_force now q :
    QueueReachable q -> QueueReachable (forceProcessQueue now q)
| queue_cycle e r q :
    QueueReachable q ->
    queueProcessorRunning q = true ->
    QueueReachable (snd (processQueue (e, q, r))).1.2.

(** The ids of a list of queued payments. *)
Definition ids (l : list QueuedPayment) : list string := map id l.

(** No item of the list is due at time [now]. *)
Definition noneDue (now : Z) (l : list QueuedPayment) : Prop :=
  Forall (fun pay => now - lastAttempt pay < delay pay) l.

(** A queue with one payment waiting, as [queuePayment] leaves it. *)
Definition afterOneEnqueue : QueueState :=
  (snd (queuePayment (mkPaymentBody "a" 10)
          (mkEnv 100000 [] [] [] [] ["k3x9"] [], initialQueue 0))).2.

(** The queue module state of a worker state. *)
Definition workerQueue (s : WorkerState) : QueueState :=
  let '(_, q, _) := s in q.

Definition workerEnvOf (s : WorkerState) : Env :=
  let '(e, _, _) := s in e.

(** An empty queue whose processor is still running, last active at time
    [50000], with nothing outside answering. *)
Definition idleWorker (now : Z) : WorkerState :=
  (mkEnv now [] [] [] [] ["k3x9"] [],
   mkQueueState [] true 50000 (mkQueueStats 1 1 0 0) (Some now),
   mkRedis true ∅).

(** Three payments waiting, none of them due before time [102000]. *)
Definition threeWaiting : WorkerState :=
  (mkEnv 100500 [] [] [] [] [] [],
   mkQueueState
     [mkQueuedPayment (mkPaymentBody "a" 10) "payment_1" 1 100000 3 4000 90000 90000;
      mkQueuedPayment (mkPaymentBody "b" 20) "payment_2" 1 100000 3 4000 90000 90000;
      mkQueuedPayment (mkPaymentBody "c" 30) "payment_3" 1 100000 3 4000 90000 90000]
     true 90000 (mkQueueStats 3 0 0 3) (Some 100500),
   mkRedis true ∅).

(** *** What a call of [makeRequest] may touch *)

Definition otherProcessor (p : ProcessorType) : ProcessorType :=
  match p with Default => Fallback | Fallback => Default end.

(** A log entry of a call of [makeRequest] for [p] and [payload]: a
    downstream call to [p] carrying [payload], a pause, or a breaker update
    of [p]. *)
Definition callOf (p : ProcessorType) (payload : PaymentBody) (ev : Event) : Prop :=
  match ev with
  | EvFetch p' payload' _ => p' = p /\ payload' = payload
  | EvSleep _ => True
  | EvRecordSucces p' => p' = p
  | EvRecordFailure p' => p' = p
  | EvProbe _ _ => False
  end.

(** Everything but the answers and the breaker of [p], the clock and the
    log is the same in the two states. *)
Definition untouchedBy (p : ProcessorType) (before after : Env * PaymentsState) : Prop :=
  healthCache after.2 = healthCache before.2
  /\ statsOf after.2 (otherProcessor p) = statsOf before.2 (otherProcessor p)
  /\ replies after.1 (otherProcessor p) = replies before.1 (otherProcessor p)
  /\ probes1 after.1 = probes1 before.1
  /\ probes2 after.1 = probes2 before.1
  /\ randoms after.1 = randoms before.1.

(** The longest a call of [makeRequest] can wait: three attempts cut off by
    the abort, and the two pauses between them. *)
Definition MAKE_REQUEST_WORST : Z :=
  (MAX_RETRIES + 1) * REQUEST_TIMEOUT + 1000 * 1 + 1000 * 2.

(** *** A processor that is down *)

(** An answer on which an attempt of [makeRequest] fails without a
    [recordSucces]: no response, a response cut off by the abort, or a
    5xx. *)
Definition down (a : ServerReply) : bool :=
  match a with
  | Reply latency st _ => (REQUEST_TIMEOUT <=? Z.of_N latency) || (500 <=? st)
  | NoReply _ => true
  end.

(** Every answer [p] is still going to give is such an answer. *)
Definition processorDown (e : Env) (p : ProcessorType) : Prop :=
  Forall (fun a => down a = true) (replies e p).

(** [makeRequest] called for one payment after another, [wait] milliseconds
    going by before each call: the results, oldest first. *)
Fixpoint requestsInARow (waits : list N) (p : ProcessorType) (payload : PaymentBody)
  : M (Env * PaymentsState) (list RequestResult) :=
  match waits with
  | [] => ret []
  | wait :: rest =>
      modify (fun '(e, s) => (elapse (Z.of_N wait) e, s)) ;;
      let* r := makeRequest p payload in
      let* rs := requestsInARow rest p payload in
      ret (r :: rs)
  end.

(** The longest the POST /payments handler can wait: one round of probes
    and a full call of [makeRequest] for each processor. *)
Definition HANDLER_WORST : Z := PROBE_TIMEOUT + 2 * MAKE_REQUEST_WORST.

(** What [getHealth] is about to report. *)
Definition reportedHealth (w : World) : bool * bool :=
  fst (getHealth (env w, paymentsState w)).

Definition reportedHealthOf (w : World) (p : ProcessorType) : bool :=
  match p with
  | Default => fst (reportedHealth w)
  | Fallback => snd (reportedHealth w)
  end.

(** The item [queuePayment] builds for [body] when called in [e]. *)
Definition newItem (body : PaymentBody) (e : Env) : QueuedPayment :=
  mkQueuedPayment body
    ("payment_" +:+ pretty (clock e) +:+ "_" +:+ fst (nextRandom e))
    0 0 QUEUE_MAX_RETRIES QUEUE_INITIAL_DELAY (clock e) (clock e).

(** *** The service as a state machine *)

(** The states the service can be in when it started with an empty ledger:
    from then on POST /payments and GET /payments/status requests are
    handled and the [processQueue] timer fires, each run to its end before
    the next starts; between them the outside changes as it likes (time
    goes by, the processors answer differently, redis goes down and comes
    back). *)
Inductive Served : World -> Prop :=
| served_start e s q isUp : Served (mkWorld e s q (mkRedis isUp ∅))
| served_payment body w : Served w -> Served (snd (payments body w))
| served_status w : Served w -> Served (snd (paymentsStatus w))
| served_cycle w : Served w -> Served (snd (inWorker processQueue w))
| served_outside e isUp w :
    Served w ->
    Served (mkWorld e (paymentsState w) (queueState w)
                    (mkRedis isUp (hashes (redis w)))).

(** An item as [queuePayment] makes it and as failed attempts leave it:
    [maxRetries] is [QUEUE_MAX_RETRIES], attempts are left, and the delay has
    doubled once per attempt made. *)
Definition wellFormedItem (pay : QueuedPayment) : Prop :=
  maxRetries pay = QUEUE_MAX_RETRIES
  /\ 0 <= attempts pay < QUEUE_MAX_RETRIES
  /\ delay pay = QUEUE_INITIAL_DELAY * QUEUE_BACKOFF_MULTIPLIER ^ attempts pay.

(** An answer on which an attempt of [makeRequest] returns
    [success: true]: it arrives before the abort, its status is below 500
    and its body parses. *)
Definition answers (a : ServerReply) : bool :=
  match a with
  | Reply latency st (Some _) => (Z.of_N latency <? REQUEST_TIMEOUT) && (st <? 500)
  | _ => false
  end.

(** *** A handler running while a cycle waits *)

(** [processQueuedPayment] with what another handler does to the module
    while the call waits at [await healthCheck()] (line 132): [meanwhile]
    runs when the probes have settled, before the function goes on. *)
Definition processQueuedPaymentDuring (meanwhile : M WorkerState unit)
  (pay : QueuedPayment) (healthCheck : M Env (bool * bool))
  : M WorkerState (bool * QueuedPayment) :=
  let* now := gets (fun '(e, _, _) => clock e) in
  if now - lastAttempt pay <? delay pay then ret (false, pay)
  else
    let pay := setAttempt now pay in
    let* '(p1, p2) := workerEnv healthCheck in
    meanwhile ;;
    let* done := tryProcessors (processorsToTry p1 p2) pay in
    if done then ret (true, pay)
    else if maxRetries pay <=? attempts pay then
      updateStats incFailed ;;
      ret (true, pay)
    else
      let pay := setDelay (Z.min (delay pay * QUEUE_BACKOFF_MULTIPLIER)
                                 QUEUE_MAX_DELAY) pay in
      updateStats incRetries ;;
      ret (false, pay).

(** The loop of [processQueue], [meanwhile] running during the attempt on
    the first item of the batch. *)
Definition processBatchDuring (meanwhile : M WorkerState unit)
  (healthCheck : M Env (bool * bool))
  (paymentsToProcess remainingPayments : list QueuedPayment)
  (processedInBatch : Z) : M WorkerState (list QueuedPayment * Z) :=
  match paymentsToProcess with
  | [] => ret (remainingPayments, processedInBatch)
  | pay :: rest =>
      let* '(shouldRemove, pay') :=
        processQueuedPaymentDuring meanwhile pay healthCheck in
      if shouldRemove then
        setLastQueueActivity ;;
        processBatch healthCheck rest remainingPayments (processedInBatch + 1)
      else
        processBatch healthCheck rest (pay' :: remainingPayments) processedInBatch
  end.

(** One run of [processQueue] during which another handler runs
    [meanwhile]: the cycle takes its two slices of [paymentQueue] (lines
    264-265), waits in the loop, and ends with
    [paymentQueue = remainingPayments] (line 284). *)
Definition processQueueDuring (meanwhile : M WorkerState unit) : M WorkerState unit :=
  let* '(e, q, _) := gets (fun s => s) in
  if (length (paymentQueue q) =? 0)%nat then
    if QUEUE_IDLE_THRESHOLD <? clock e - lastQueueActivity q
    then setQueue (paymentQueue q) false None
    else setQueue (paymentQueue q) (queueProcessorRunning q)
                  (Some (clock e + QUEUE_PROCESS_INTERVAL * 2))
  else
    let paymentsToProcess := take QUEUE_BATCH_SIZE (paymentQueue q) in
    let remainingPayments := drop QUEUE_BATCH_SIZE (paymentQueue q) in
    let* '(remaining, processedInBatch) :=
      processBatchDuring meanwhile probeBoth paymentsToProcess remainingPayments 0 in
    let nextInterval :=
      if 0 <? processedInBatch then QUEUE_PROCESS_INTERVAL / 2
      else QUEUE_PROCESS_INTERVAL in
    let* now := gets (fun '(e, _, _) => clock e) in
    setQueue remaining (queueProcessorRunning q) (Some (now + nextInterval)).

(** The POST /payments handler reaching [queuePayment(req.body)] for
    [body]. *)
Definition enqueueMeanwhile (body : PaymentBody) : M WorkerState unit :=
  fun '(e, q, r) =>
    let '(_, (e', q')) := queuePayment body (e, q) in (tt, (e', q', r)).

(** What the counters do not account for: the payments counted as queued
    that are neither in the queue nor counted as processed or failed. *)
Definition unaccounted (q : QueueState) : Z :=
  queued (queueStats q)
  - (processed (queueStats q) + failed (queueStats q)
     + Z.of_nat (length (paymentQueue q))).

(** ** Proof automation *)

(** Case analysis on every condition of the goal, innermost first. *)
Ltac case_conditions :=
  repeat match goal with
         | |- context [if ?c then _ else _] =>
             lazymatch c with
             | context [if _ then _ else _] => fail
             | _ => destruct c eqn:?
             end
         end.

(** Boolean comparisons of the context as propositions. *)
Ltac comparisons :=
  repeat match goal with
         | H : (_ <? _) = true |- _ => apply Z.ltb_lt in H
         | H : (_ <? _) = false |- _ => apply Z.ltb_ge in H
         | H : (_ <=? _) = true |- _ => apply Z.leb_le in H
         | H : (_ <=? _) = false |- _ => apply Z.leb_gt in H
         | H : (_ =? _) = true |- _ => apply Z.eqb_eq in H
         | H : (_ =? _) = false |- _ => apply Z.eqb_neq in H
         end.

(** The leaves of the case analysis of one pass through the loop of
    [makeRequest]: the log grew by one to three entries. *)
Ltac frame_leaf :=
  comparisons;
  first [ exfalso; lia
        | first [ eexists _, _, _, [_]; split; [reflexivity |]; split; [reflexivity |]
                | eexists _, _, _, [_; _]; split; [reflexivity |]; split; [reflexivity |]
                | eexists _, _, _, [_; _; _]; split; [reflexivity |]; split; [reflexivity |] ];
          (split; [repeat constructor |]);
          (split; [repeat split |]);
          cbn; lia ].

(** Conjunctions and disjunctions of booleans in the context. *)
Ltac booleans :=
  repeat match goal with
         | H : (_ && _) = true |- _ => apply andb_true_iff in H as [? ?]
         | H : (_ || _) = true |- _ => apply orb_true_iff in H as [? | ?]
         | H : (_ && _) = false |- _ => apply andb_false_iff in H as [? | ?]
         | H : (_ || _) = false |- _ => apply orb_false_iff in H as [? ?]
         end.

Ltac down_rest :=
  (split; [reflexivity |]); (split; [first [assumption | constructor] |]);
  (split; [reflexivity |]); (split; [reflexivity |]);
  (split; [cbn; lia |]); reflexivity.

Ltac down_leaf :=
  first [ eexists _, _, [_]; down_rest
        | eexists _, _, [_; _]; down_rest
        | eexists _, _, [_; _; _]; down_rest ].

Ltac unanswered_rest :=
  (split; [reflexivity |]); (split; [reflexivity |]);
  (split; [reflexivity |]); reflexivity.

Ltac unanswered_leaf :=
  first [ eexists _, _, [_]; unanswered_rest
        | eexists _, _, [_; _]; unanswered_rest
        | eexists _, _, [_; _; _]; unanswered_rest ].

(** The leaves of the case analysis of one pass through the loop of
    [makeRequest], for the answer of its one call. *)
Ltac lastFetch_rest :=
  (split; [reflexivity |]); (split; [reflexivity |]);
  cbn; first [reflexivity | apply Z.ltb_ge; lia].

Ltac lastFetch_leaf :=
  first [ exfalso; lia
        | eexists _, _, _, [_]; lastFetch_rest
        | eexists _, _, _, [_; _]; lastFetch_rest
        | eexists _, _, _, [_; _; _]; lastFetch_rest ].

(** * Properties *)

(** ** Circuit breaker *)

Lemma recordFailure_failures now s :
  failures (recordFailure now s) = failures s + 1.
Proof. reflexivity. Qed.

Lemma isCircuitOpen_closed now s :
  circuitOpen s = false -> isCircuitOpen now s = (false, s).
Proof. intros H. unfold isCircuitOpen. now rewrite H. Qed.

Lemma isCircuitOpen_healed now s :
  circuitOpen s = true ->
  CIRCUIT_BREAKER_TIMEOUT < now - lastFailure s ->
  isCircuitOpen now s = (false, mkProcessorStats 0 (lastFailure s) false).
Proof.
  intros Ho Ht. unfold isCircuitOpen. rewrite Ho. simpl.
  destruct (Z.ltb_spec CIRCUIT_BREAKER_TIMEOUT (now - lastFailure s)); [reflexivity | lia].
Qed.

Lemma isCircuitOpen_still_open now s :
  circuitOpen s = true ->
  now - lastFailure s <= CIRCUIT_BREAKER_TIMEOUT ->
  isCircuitOpen now s = (true, s).
Proof.
  intros Ho Ht. unfold isCircuitOpen. rewrite Ho. simpl.
  destruct (Z.ltb_spec CIRCUIT_BREAKER_TIMEOUT (now - lastFailure s)); [lia | reflexivity].
Qed.

(** What [isCircuitOpen] answers is the flag it leaves behind. *)
Lemma isCircuitOpen_flag now s :
  circuitOpen (snd (isCircuitOpen now s)) = fst (isCircuitOpen now s).
Proof.
  unfold isCircuitOpen.
  destruct (circuitOpen s) eqn:Ho; simpl; [| exact Ho].
  destruct (CIRCUIT_BREAKER_TIMEOUT <? now - lastFailure s); simpl; auto.
Qed.

(** The invariant of the breaker: the flag says whether the count has
    reached the threshold, and the count is never negative. *)
Lemma breaker_invariant s :
  BreakerReachable s ->
  0 <= failures s /\
  (circuitOpen s = true <-> CIRCUIT_BREAKER_THRESHOLD <= failures s).
Proof.
  induction 1 as [| now s _ [IHn IHo] | s _ _ | now s _ [IHn IHo]].
  - unfold CIRCUIT_BREAKER_THRESHOLD; simpl. split; [lia |]. split; [discriminate | lia].
  - rewrite recordFailure_failures. split; [lia |].
    unfold recordFailure; cbn -[Z.leb Z.add].
    destruct (Z.leb_spec CIRCUIT_BREAKER_THRESHOLD (failures s + 1)) as [Hle | Hlt].
    + split; [intros _; exact Hle | reflexivity].
    + split; [| lia]. intros Ho. apply IHo in Ho. lia.
  - unfold CIRCUIT_BREAKER_THRESHOLD; simpl. split; [lia |]. split; [discriminate | lia].
  - unfold isCircuitOpen.
    destruct (circuitOpen s) eqn:Ho; simpl.
    + destruct (CIRCUIT_BREAKER_TIMEOUT <? now - lastFailure s); simpl.
      * unfold CIRCUIT_BREAKER_THRESHOLD. split; [lia |]. split; [discriminate | lia].
      * rewrite Ho. auto.
    + rewrite Ho. auto.
Qed.

(** [n] failures in a row on a breaker whose count is 0: the count is [n],
    and the breaker is open exactly from the 20th on. *)
Lemma recordFailures_from_zero times s :
  circuitOpen s = false ->
  0 <= failures s < CIRCUIT_BREAKER_THRESHOLD ->
  failures (recordFailures times s) = failures s + Z.of_nat (length times) /\
  circuitOpen (recordFailures times s)
  = bool_decide (CIRCUIT_BREAKER_THRESHOLD <= failures s + Z.of_nat (length times)).
Proof.
  unfold recordFailures.
  assert (Gen : forall times s,
    0 <= failures s ->
    circuitOpen s = bool_decide (CIRCUIT_BREAKER_THRESHOLD <= failures s) ->
    failures (fold_left (fun s now => recordFailure now s) times s)
      = failures s + Z.of_nat (length times) /\
    circuitOpen (fold_left (fun s now => recordFailure now s) times s)
      = bool_decide (CIRCUIT_BREAKER_THRESHOLD <= failures s + Z.of_nat (length times))).
  { clear. induction times as [| now times IH]; intros s Hn Ho.
    - cbn [fold_left length Z.of_nat]. rewrite Z.add_0_r. auto.
    - cbn [fold_left]. destruct (IH (recordFailure now s)) as [IH1 IH2].
      + rewrite recordFailure_failures. lia.
      + rewrite recordFailure_failures. unfold recordFailure; cbn -[Z.leb Z.add].
        destruct (Z.leb_spec CIRCUIT_BREAKER_THRESHOLD (failures s + 1)).
        * symmetry. apply bool_decide_eq_true. assumption.
        * rewrite Ho. apply bool_decide_ext. lia.
      + rewrite IH1, IH2, recordFailure_failures.
        rewrite length_cons, Nat2Z.inj_succ.
        split; [lia | apply bool_decide_ext; lia]. }
  intros Ho Hn. apply Gen; [lia |].
  rewrite Ho. symmetry. apply bool_decide_eq_false. lia.
Qed.

(** C5.  For every state a processor's breaker can be in:
    (1) the breaker is open only if (indeed exactly if) the count of
        consecutive failures has reached [CIRCUIT_BREAKER_THRESHOLD] = 20;
    (2) [recordFailure] adds one to the count, and it opens a closed breaker
        exactly when the count it writes is the threshold;
    (3) starting from a count of 0, [n] failures in a row leave the breaker
        open exactly when [n >= 20];
    (4) on an open breaker [isCircuitOpen] answers closed, closes the breaker
        and resets the count to 0 once more than [CIRCUIT_BREAKER_TIMEOUT] =
        10000 ms have passed since the last failure, and answers open without
        touching it before that; a closed breaker is reported closed;
    (5) [recordSucces] resets the count to 0 and closes the breaker. *)
Theorem C5_circuit_breaker (s : ProcessorStats) (now : Z) :
  BreakerReachable s ->
  (circuitOpen s = true <-> CIRCUIT_BREAKER_THRESHOLD <= failures s)
  /\ (failures (recordFailure now s) = failures s + 1
      /\ lastFailure (recordFailure now s) = now
      /\ (circuitOpen s = false ->
          (circuitOpen (recordFailure now s) = true
           <-> failures (recordFailure now s) = CIRCUIT_BREAKER_THRESHOLD)))
  /\ (forall times : list Z,
        circuitOpen (recordFailures times (recordSucces s))
        = bool_decide (CIRCUIT_BREAKER_THRESHOLD <= Z.of_nat (length times)))
  /\ ((circuitOpen s = true ->
       CIRCUIT_BREAKER_TIMEOUT < now - lastFailure s ->
       fst (isCircuitOpen now s) = false
       /\ circuitOpen (snd (isCircuitOpen now s)) = false
       /\ failures (snd (isCircuitOpen now s)) = 0)
      /\ (circuitOpen s = true ->
          now - lastFailure s <= CIRCUIT_BREAKER_TIMEOUT ->
          isCircuitOpen now s = (true, s))
      /\ (circuitOpen s = false -> isCircuitOpen now s = (false, s)))
  /\ (failures (recordSucces s) = 0 /\ circuitOpen (recordSucces s) = false).
Proof.
  intros Hr. destruct (breaker_invariant s Hr) as [Hn Ho].
  split; [exact Ho |].
  split.
  { split; [reflexivity |]. split; [reflexivity |].
    intros Hc. rewrite recordFailure_failures.
    unfold recordFailure; cbn -[Z.leb Z.add]. rewrite Hc.
    assert (failures s < CIRCUIT_BREAKER_THRESHOLD).
    { destruct (Z.lt_ge_cases (failures s) CIRCUIT_BREAKER_THRESHOLD); [assumption |].
      apply Ho in H. congruence. }
    destruct (Z.leb_spec CIRCUIT_BREAKER_THRESHOLD (failures s + 1)).
    - split; [lia | reflexivity].
    - split; [discriminate | lia]. }
  split.
  { intros times.
    destruct (recordFailures_from_zero times (recordSucces s)) as [_ H].
    - reflexivity.
    - simpl. unfold CIRCUIT_BREAKER_THRESHOLD. lia.
    - rewrite H. simpl. reflexivity. }
  split.
  { split; [| split].
    - intros Hc Ht. rewrite (isCircuitOpen_healed now s Hc Ht). auto.
    - apply isCircuitOpen_still_open.
    - apply isCircuitOpen_closed. }
  split; reflexivity.
Qed.

Lemma recordFailures_reachable times s :
  BreakerReachable s -> BreakerReachable (recordFailures times s).
Proof.
  unfold recordFailures. revert s.
  induction times as [| t times IH]; intros s Hs; simpl; [assumption |].
  apply IH. now constructor.
Qed.

(** An instance of C5: twenty failures at time 1000, looked at 10001 ms
    later. *)
Lemma C5_circuit_breaker_witness :
  let s := recordFailures (replicate 20 1000) initialStats in
  BreakerReachable s
  /\ fst (isCircuitOpen 11001 s) = false
  /\ circuitOpen (snd (isCircuitOpen 11001 s)) = false
  /\ failures (snd (isCircuitOpen 11001 s)) = 0.
Proof.
  intros s.
  assert (R : BreakerReachable s)
    by (apply recordFailures_reachable, reach_initial).
  split; [exact R |].
  destruct (C5_circuit_breaker s 11001 R) as (_ & _ & _ & (H & _ & _) & _).
  apply H; [reflexivity | vm_compute; reflexivity].
Defined.

(** ** Retry queue: enqueue *)

Lemma queuePayment_full body e q :
  QUEUE_MAX_SIZE <= queueSize q ->
  queuePayment body (e, q) = (Raised "Payment queue is full", (e, q)).
Proof.
  unfold queuePayment, queueSize, bind, gets, modify, ret. cbn [snd]. intros H.
  destruct (Z.leb_spec QUEUE_MAX_SIZE (Z.of_nat (length (paymentQueue q))));
    [reflexivity | lia].
Qed.

Lemma queuePayment_free body e q :
  queueSize q < QUEUE_MAX_SIZE ->
  exists item e' q',
    queuePayment body (e, q) = (Done (id item), (e', q'))
    /\ log e' = log e
    /\ paymentQueue q' = paymentQueue q ++ [item]
    /\ payment item = body
    /\ attempts item = 0
    /\ delay item = QUEUE_INITIAL_DELAY
    /\ maxRetries item = QUEUE_MAX_RETRIES
    /\ queued (queueStats q') = queued (queueStats q) + 1
    /\ queueProcessorRunning q' = true.
Proof.
  unfold queuePayment, queueSize, bind, gets, modify, ret. cbn [snd]. intros H.
  destruct (Z.leb_spec QUEUE_MAX_SIZE (Z.of_nat (length (paymentQueue q))));
    [lia |].
  unfold onFst. destruct (nextRandom e) as [r e1] eqn:Hr.
  assert (log e1 = log e).
  { unfold nextRandom in Hr. destruct (randoms e); injection Hr as _ <-; reflexivity. }
  eexists _, _, _. split; [reflexivity |]. split; [assumption |].
  unfold startQueueProcessor; cbn.
  destruct (queueProcessorRunning q); cbn; repeat split; reflexivity.
Qed.

(** C8.  When the queue holds [QUEUE_MAX_SIZE] = 5000 items (or more),
    [queuePayment] throws "Payment queue is full" and leaves everything as it
    was: the queue, the counters, the running flag, the timer and the
    outside.  Below capacity it never throws: it returns the id of the new
    item, which it has appended to the queue with [attempts = 0],
    [delay = QUEUE_INITIAL_DELAY] and [maxRetries = QUEUE_MAX_RETRIES], the
    [queued] counter is one higher and the processor is running. *)
Theorem C8_enqueue_capacity (body : PaymentBody) (e : Env) (q : QueueState) :
  (QUEUE_MAX_SIZE <= queueSize q ->
   queuePayment body (e, q) = (Raised "Payment queue is full", (e, q)))
  /\ (queueSize q < QUEUE_MAX_SIZE ->
      exists item e' q',
        queuePayment body (e, q) = (Done (id item), (e', q'))
        /\ paymentQueue q' = paymentQueue q ++ [item]
        /\ payment item = body
        /\ attempts item = 0
        /\ delay item = QUEUE_INITIAL_DELAY
        /\ maxRetries item = QUEUE_MAX_RETRIES
        /\ queued (queueStats q') = queued (queueStats q) + 1
        /\ queueProcessorRunning q' = true).
Proof.
  split.
  - apply queuePayment_full.
  - intros H. destruct (queuePayment_free body e q H)
      as (item & e' & q' & H1 & _ & H2).
    exists item, e', q'. auto.
Qed.

(** An instance of C8: a queue of 5000 items, and an empty one. *)
Lemma C8_enqueue_capacity_witness :
  let e := mkEnv 1000 [] [] [] [] ["k3x9"] [] in
  let item := mkQueuedPayment (mkPaymentBody "old" 1) "payment_1_a" 0 0 3 2000 1 1 in
  let full := mkQueueState (replicate 5000 item) true 1 (mkQueueStats 5000 0 0 0)
                           (Some 3001) in
  queuePayment (mkPaymentBody "new" 5) (e, full)
    = (Raised "Payment queue is full", (e, full))
  /\ exists item' e' q',
       queuePayment (mkPaymentBody "new" 5) (e, initialQueue 0)
         = (Done (id item'), (e', q'))
       /\ paymentQueue q' = [] ++ [item']
       /\ payment item' = mkPaymentBody "new" 5
       /\ attempts item' = 0
       /\ delay item' = QUEUE_INITIAL_DELAY
       /\ maxRetries item' = QUEUE_MAX_RETRIES
       /\ queued (queueStats q') = 0 + 1
       /\ queueProcessorRunning q' = true.
Proof.
  intros e item full. split.
  - apply (C8_enqueue_capacity (mkPaymentBody "new" 5) e full).
    vm_compute. discriminate.
  - apply (C8_enqueue_capacity (mkPaymentBody "new" 5) e (initialQueue 0)).
    vm_compute. reflexivity.
Defined.

(** ** Health tracker *)



Lemma rawHealthy_answer latency statusCode :
  Z.of_N latency < PROBE_TIMEOUT ->
  rawHealthy (ProbeStatus latency statusCode)
  = bool_decide (200 <= statusCode < 300).
Proof.
  intros H. unfold rawHealthy, raceProbe.
  destruct (Z.ltb_spec (Z.of_N latency) PROBE_TIMEOUT); [| lia].
  cbn [fst settledHealthy].
  destruct (Z.leb_spec 200 statusCode), (Z.ltb_spec statusCode 300); cbn;
    symmetry; (apply bool_decide_eq_true || apply bool_decide_eq_false); lia.
Qed.

Lemma probeTime_bound a : probeTime a <= PROBE_TIMEOUT.
Proof.
  unfold probeTime, raceProbe. destruct a as [l c | l].
  - destruct (Z.ltb_spec (Z.of_N l) PROBE_TIMEOUT); cbn; lia.
  - cbn. lia.
Qed.

Lemma probeTime_nonneg a : 0 <= probeTime a.
Proof.
  unfold probeTime, raceProbe, PROBE_TIMEOUT. destruct a as [l c | l].
  - destruct (Z.ltb_spec (Z.of_N l) 2000); cbn; lia.
  - cbn. lia.
Qed.

Lemma nextProbe_clock p e : clock (snd (nextProbe p e)) = clock e.
Proof. unfold nextProbe. destruct p; cbn; destruct (_ : list ProbeReply); reflexivity. Qed.

Lemma nextProbe_other e :
  fst (nextProbe Fallback (snd (nextProbe Default e))) = nextProbeReply e Fallback.
Proof.
  unfold nextProbeReply, nextProbe; cbn.
  destruct (probes1 e); cbn; destruct (probes2 e); reflexivity.
Qed.


(** What a round of probes gives and how long it takes. *)
Lemma probeBoth_spec e :
  fst (probeBoth e)
  = (rawHealthy (nextProbeReply e Default), rawHealthy (nextProbeReply e Fallback))
  /\ clock (snd (probeBoth e))
     = clock e + Z.max (probeTime (nextProbeReply e Default))
                       (probeTime (nextProbeReply e Fallback)).
Proof.
  unfold probeBoth.
  pose proof (nextProbe_other e) as Ho. pose proof (nextProbe_clock Default e) as Hc1.
  pose proof (nextProbe_clock Fallback (snd (nextProbe Default e))) as Hc2.
  unfold nextProbeReply in *.
  destruct (nextProbe Default e) as [a1 e1]; cbn [fst snd] in *.
  destruct (nextProbe Fallback e1) as [a2 e2]; cbn [fst snd] in *. subst a2.
  unfold rawHealthy, probeTime.
  destruct (raceProbe a1) as [r1 t1], (raceProbe _) as [r2 t2]; cbn.
  split; [reflexivity | congruence].
Qed.

Lemma healthyAndClosed_spec p healthy e s :
  exists st,
    healthyAndClosed p healthy (e, s)
    = (healthy && negb (fst (isCircuitOpen (clock e) (statsOf s p))),
       (e, setStats p st s))
    /\ st = (if healthy then snd (isCircuitOpen (clock e) (statsOf s p))
             else statsOf s p).
Proof.
  unfold healthyAndClosed, isCircuitOpenOf, bind, ret.
  destruct healthy; cbn [andb].
  - destruct (isCircuitOpen (clock e) (statsOf s p)) as [b st]; cbn.
    eexists; split; reflexivity.
  - exists (statsOf s p). split; [| reflexivity].
    destruct s, p; reflexivity.
Qed.



(** ** Request executor *)

Lemma fetch_reply timeout p payload e latency st body rest :
  replies e p = Reply latency st body :: rest ->
  Z.of_N latency < timeout ->
  fetch timeout p payload e
  = (Responded st body,
     record (EvFetch p payload (Responded st body))
            (elapse (Z.of_N latency) (setReplies p rest e))).
Proof.
  intros Hr Hl. unfold fetch. rewrite Hr.
  destruct (Z.ltb_spec (Z.of_N latency) timeout); [reflexivity | lia].
Qed.

Lemma fetch_log timeout p payload e :
  log (snd (fetch timeout p payload e))
  = EvFetch p payload (fst (fetch timeout p payload e)) :: log e.
Proof.
  unfold fetch.
  destruct (match replies e p with [] => _ | a :: l => _ end) as [answer rest].
  destruct (match answer with Reply _ _ _ => _ | NoReply _ => _ end) as [r dt].
  destruct p; reflexivity.
Qed.

Lemma ok_lt_500 st : ok st = true -> st < 500.
Proof. unfold ok. intros H. apply andb_true_iff in H as [_ H]. lia. Qed.

Lemma statsOf_setStats p st s : statsOf (setStats p st s) p = st.
Proof. destruct p; reflexivity. Qed.

Lemma client_error_not_ok st : 400 <= st < 500 -> ok st = false /\ (500 <=? st) = false.
Proof.
  intros H. unfold ok. split.
  - apply andb_false_iff. right. lia.
  - lia.
Qed.

(** The [try] block on a 4xx response, whatever its body. *)
Lemma tryBlock_client_error p payload attempt e s latency st body rest :
  replies e p = Reply latency st body :: rest ->
  Z.of_N latency < REQUEST_TIMEOUT ->
  400 <= st < 500 ->
  exists c e' s',
    tryBlock p payload attempt (e, s) = (c, (e', s'))
    /\ log e' = EvRecordSucces p :: EvFetch p payload (Responded st body) :: log e
    /\ statsOf s' p = recordSucces (statsOf s p)
    /\ (forall data, body = Some data ->
          c = Returned (mkRequestResult true (Some data) (Some st))).
Proof.
  intros Hr Hl Hst.
  destruct (client_error_not_ok st Hst) as [Hok H500].
  unfold tryBlock, bind, onFst.
  rewrite (fetch_reply _ _ _ _ _ _ _ _ Hr Hl), Hok, H500.
  unfold recordSuccesOf, returnJson.
  destruct body as [data |]; cbn;
    eexists _, _, _; (split; [reflexivity |]);
    (split; [destruct p; reflexivity |]);
    (split; [apply statsOf_setStats |]).
  - intros d [= <-]. reflexivity.
  - intros d [=].
Qed.

(** [makeRequest] meeting, on its first attempt, a 4xx response whose body
    parses: it returns [success: true] after that one call, having called
    [recordSucces] and not [recordFailure]. *)
Lemma makeRequest_client_error_json p payload e s latency st data rest :
  replies e p = Reply latency st (Some data) :: rest ->
  Z.of_N latency < REQUEST_TIMEOUT ->
  400 <= st < 500 ->
  fst (isCircuitOpen (clock e) (statsOf s p)) = false ->
  exists e' s',
    makeRequest p payload (e, s)
    = (mkRequestResult true (Some data) (Some st), (e', s'))
    /\ log e' = EvRecordSucces p :: EvFetch p payload (Responded st (Some data)) :: log e
    /\ failures (statsOf s' p) = 0
    /\ circuitOpen (statsOf s' p) = false.
Proof.
  intros Hr Hl Hst Hclosed.
  unfold makeRequest, bind, isCircuitOpenOf.
  destruct (isCircuitOpen (clock e) (statsOf s p)) as [b st0] eqn:Hc.
  cbn [fst] in Hclosed. subst b.
  destruct (tryBlock_client_error p payload 0 e (setStats p st0 s) _ _ _ _ Hr Hl Hst)
    as (c & e' & s' & H1 & H2 & H3 & H4).
  specialize (H4 data eq_refl). subst c.
  change (Z.to_nat (MAX_RETRIES + 1)) with 3%nat.
  cbn [requestLoop]. unfold bind, loopBody, bind. rewrite H1. unfold ret.
  exists e', s'. rewrite H3. repeat split; auto.
Qed.

(** C10 (the code at the failing input).  Nineteen failures are on record
    for the default processor, its breaker is closed, and it answers 404
    with a body that is not JSON.  [makeRequest] does call [recordSucces]
    right after each response, which erases the nineteen failures; but
    [resp.json()] then rejects inside the [try], the [catch] takes the
    attempt as failed, and after the third attempt it calls
    [recordFailure]: when the call returns the count is 1, not 0, and the
    time of the last failure is the end of the call.  When the body of the
    404 parses, the same call returns after the first response with the
    count at 0 and the breaker closed. *)
Theorem C10_client_error_leaves_a_failure :
  let payload := mkPaymentBody "a" 10 in
  let s := mkPaymentsState (mkHealthCache 99000 true true)
             (mkProcessorStats 19 98000 false) initialStats in
  let notFound := Reply 20 404 None in
  let e := mkEnv 100000 [notFound; notFound; notFound] [] [] [] [] [] in
  let found := Reply 20 404 (Some (JObj [("message", JStr "not found")])) in
  let e2 := mkEnv 100000 [found] [] [] [] [] [] in
  (let '(r, (e', s')) := makeRequest Default payload (e, s) in
   success r = false
   /\ log e'
      = [EvRecordFailure Default;
         EvRecordSucces Default; EvFetch Default payload (Responded 404 None);
         EvSleep 2000;
         EvRecordSucces Default; EvFetch Default payload (Responded 404 None);
         EvSleep 1000;
         EvRecordSucces Default; EvFetch Default payload (Responded 404 None)]
   /\ processor1Stats s' = mkProcessorStats 1 103060 false)
  /\ (let '(r, (e', s')) := makeRequest Default payload (e2, s) in
      success r = true
      /\ status r = Some 404
      /\ log e'
         = [EvRecordSucces Default;
            EvFetch Default payload
              (Responded 404 (Some (JObj [("message", JStr "not found")])))]
      /\ processor1Stats s' = mkProcessorStats 0 98000 false).
Proof. vm_compute. repeat split; reflexivity. Qed.

Lemma fetchCount_app seg1 seg2 :
  fetchCount (seg1 ++ seg2) = (fetchCount seg1 + fetchCount seg2)%nat.
Proof. unfold fetchCount. now rewrite filter_app, length_app. Qed.

Lemma catchBlock_spec p attempt e s :
  exists e' s' seg,
    catchBlock p attempt (e, s) = (tt, (e', s'))
    /\ log e' = seg ++ log e
    /\ fetchCount seg = 0%nat
    /\ (if attempt =? MAX_RETRIES then seg = [EvRecordFailure p]
        else EvRecordFailure p ∉ seg)
    /\ pauses seg = (if attempt <? MAX_RETRIES then [1000 * (attempt + 1)] else []).
Proof.
  unfold catchBlock, bind, when, recordFailureOf, onFst, sleep, modify, ret.
  destruct (Z.eqb_spec attempt MAX_RETRIES) as [-> | Hne].
  - cbn. eexists _, _, [EvRecordFailure p]. repeat split; reflexivity.
  - destruct (attempt <? MAX_RETRIES); cbn.
    + eexists _, _, [EvSleep _]. repeat split; try reflexivity.
      intros [H | H]%elem_of_cons; [discriminate | inversion H].
    + eexists _, _, []. repeat split; try reflexivity.
      intros H; inversion H.
Qed.

(** The [try] block: one downstream call, and what is logged after it. *)
Lemma tryBlock_spec p payload attempt e s :
  exists c e1 s1 r pre,
    tryBlock p payload attempt (e, s) = (c, (e1, s1))
    /\ log e1 = pre ++ EvFetch p payload r :: log e
    /\ fetchCount pre = 0%nat
    /\ match c with
       | Returned res =>
           exists st data,
             res = mkRequestResult true (Some data) (Some st)
             /\ st < 500
             /\ r = Responded st (Some data)
             /\ pre = [EvRecordSucces p]
       | Continued =>
           if attempt =? MAX_RETRIES then pre = [EvRecordFailure p] else pre = []
       | Thrown => EvRecordFailure p ∉ pre
       end.
Proof.
  unfold tryBlock, bind, onFst.
  pose proof (fetch_log REQUEST_TIMEOUT p payload e) as Hlog.
  destruct (fetch REQUEST_TIMEOUT p payload e) as [r e1]. cbn [fst snd] in Hlog.
  destruct r as [st body |].
  - assert (Hsucc : st < 500 ->
      exists c e2 s2 r pre,
        (let '(_, s') := recordSuccesOf p (e1, s) in returnJson st body s')
        = (c, (e2, s2))
        /\ log e2 = pre ++ EvFetch p payload r :: log e
        /\ fetchCount pre = 0%nat
        /\ match c with
           | Returned res =>
               exists st data,
                 res = mkRequestResult true (Some data) (Some st)
                 /\ st < 500
                 /\ r = Responded st (Some data)
                 /\ pre = [EvRecordSucces p]
           | Continued =>
               if attempt =? MAX_RETRIES then pre = [EvRecordFailure p] else pre = []
           | Thrown => EvRecordFailure p ∉ pre
           end).
    { intros Hst. unfold recordSuccesOf, returnJson, ret.
      destruct body as [data |];
        eexists _, _, _, _, [EvRecordSucces p]; (split; [reflexivity |]);
        cbn [log record]; rewrite Hlog; (split; [reflexivity |]);
        (split; [reflexivity |]).
      - exists st, data. auto.
      - rewrite list_elem_of_singleton. discriminate. }
    destruct (ok st) eqn:Hok.
    + apply Hsucc. now apply ok_lt_500.
    + destruct (Z.leb_spec 500 st) as [Hge | Hlt]; [| now apply Hsucc].
      unfold when, recordFailureOf, ret.
      destruct (Z.eqb_spec attempt MAX_RETRIES).
      * eexists _, _, _, _, [_]. split; [reflexivity |].
        cbn [log record]. rewrite Hlog. repeat split; reflexivity.
      * eexists _, _, _, _, []. split; [reflexivity |].
        cbn [log record]. rewrite Hlog. repeat split; reflexivity.
  - unfold ret. eexists _, _, _, _, []. split; [reflexivity |].
    rewrite Hlog. repeat split; try reflexivity. apply not_elem_of_nil.
Qed.

(** One pass through the loop body of [makeRequest]: one downstream call;
    either the function returns with [success: true] on a response below 500
    whose body parsed, or the loop goes on, and then [recordFailure] has been
    called only if this was the last pass. *)
Lemma loopBody_spec p payload attempt e s :
  exists c e' s' seg,
    loopBody p payload attempt (e, s) = (c, (e', s'))
    /\ log e' = seg ++ log e
    /\ fetchCount seg = 1%nat
    /\ match c with
       | Returned r =>
           exists st data,
             r = mkRequestResult true (Some data) (Some st)
             /\ st < 500
             /\ seg = [EvRecordSucces p; EvFetch p payload (Responded st (Some data))]
       | Continued =>
           if attempt =? MAX_RETRIES
           then exists seg', seg = EvRecordFailure p :: seg' /\ EvRecordFailure p ∉ seg'
           else EvRecordFailure p ∉ seg
       | Thrown => False
       end.
Proof.
  unfold loopBody, bind.
  destruct (tryBlock_spec p payload attempt e s)
    as (c & e1 & s1 & r & pre & -> & Hl1 & Hc1 & Hshape).
  destruct c as [res | |].
  - destruct Hshape as (st & data & -> & Hst & -> & ->).
    unfold ret. eexists _, _, _, [_; _]. split; [reflexivity |].
    split; [exact Hl1 |]. split; [reflexivity |]. eauto.
  - unfold ret. exists Continued, e1, s1, (pre ++ [EvFetch p payload r]).
    split; [reflexivity |].
    split; [rewrite Hl1, <- app_assoc; reflexivity |].
    split; [rewrite fetchCount_app, Hc1; reflexivity |].
    destruct (attempt =? MAX_RETRIES); subst pre; cbn [app].
    + eexists. split; [reflexivity |].
      rewrite list_elem_of_singleton. discriminate.
    + rewrite list_elem_of_singleton. discriminate.
  - destruct (catchBlock_spec p attempt e1 s1) as (e' & s' & seg & -> & Hl & Hc & Hf & _).
    unfold ret. exists Continued, e', s', (seg ++ pre ++ [EvFetch p payload r]).
    split; [reflexivity |].
    split; [rewrite Hl, Hl1, <- !app_assoc; reflexivity |].
    split; [rewrite !fetchCount_app, Hc, Hc1; reflexivity |].
    destruct (attempt =? MAX_RETRIES).
    + subst seg. eexists. split; [reflexivity |].
      rewrite elem_of_app, list_elem_of_singleton. intros [? | ?]; [tauto | discriminate].
    + rewrite !elem_of_app, list_elem_of_singleton.
      intros [? | [? | ?]]; [tauto | tauto | discriminate].
Qed.

(** The loop of [makeRequest], with [n] passes left. *)
Lemma requestLoop_spec n :
  forall p payload attempt e s,
    attempt + Z.of_nat n = MAX_RETRIES + 1 ->
    exists r e' s' seg,
      requestLoop n p payload attempt (e, s) = (r, (e', s'))
      /\ log e' = seg ++ log e
      /\ (fetchCount seg <= n)%nat
      /\ (success r = true ->
          exists st data seg',
            r = mkRequestResult true (Some data) (Some st)
            /\ st < 500
            /\ seg = EvRecordSucces p
                     :: EvFetch p payload (Responded st (Some data)) :: seg'
            /\ EvRecordFailure p ∉ seg)
      /\ (success r = false -> r = failed_ /\ fetchCount seg = n)
      /\ (EvRecordFailure p ∈ seg ->
          success r = false
          /\ exists seg', seg = EvRecordFailure p :: seg' /\ EvRecordFailure p ∉ seg').
Proof.
  induction n as [| n IH]; intros p payload attempt e s Hn.
  - exists failed_, e, s, []. cbn.
    split; [reflexivity |]. split; [reflexivity |]. split; [lia |].
    split; [discriminate |]. split; [auto |].
    intros Hin; inversion Hin.
  - cbn [requestLoop]. unfold bind.
    destruct (loopBody_spec p payload attempt e s)
      as (c & e1 & s1 & seg1 & -> & Hl1 & Hc1 & Hshape).
    destruct c as [r | |]; [| | contradiction].
    + destruct Hshape as (st & data & -> & Hst & ->).
      unfold ret. eexists _, e1, s1, _. split; [reflexivity |].
      split; [exact Hl1 |]. split; [rewrite Hc1; lia |].
      assert (Hno : EvRecordFailure p
                    ∉ [EvRecordSucces p; EvFetch p payload (Responded st (Some data))]).
      { rewrite !not_elem_of_cons. repeat split; try discriminate. apply not_elem_of_nil. }
      split; [| split].
      * intros _. exists st, data, []. auto.
      * discriminate.
      * intros Hin. contradiction.
    + destruct n as [| n'].
      * (* the last pass *)
        assert (Hlast : attempt = MAX_RETRIES) by (cbn in Hn; lia).
        rewrite Hlast, Z.eqb_refl in Hshape. destruct Hshape as (seg' & -> & Hnot).
        cbn [requestLoop]. unfold ret.
        exists failed_, e1, s1, (EvRecordFailure p :: seg').
        split; [reflexivity |]. split; [exact Hl1 |]. split; [lia |].
        split; [discriminate |].
        split; [intros _; split; [reflexivity | exact Hc1] |].
        intros _. split; [reflexivity |]. eauto.
      * (* an earlier pass *)
        assert (Hmid : attempt <> MAX_RETRIES) by (rewrite !Nat2Z.inj_succ in Hn; lia).
        apply Z.eqb_neq in Hmid. rewrite Hmid in Hshape.
        destruct (IH p payload (attempt + 1) e1 s1) as
          (r & e2 & s2 & seg2 & -> & Hl2 & Hc2 & Hok & Hko & Hfail);
          [rewrite Nat2Z.inj_succ in Hn; lia |].
        exists r, e2, s2, (seg2 ++ seg1). split; [reflexivity |].
        split; [rewrite Hl2, Hl1, app_assoc; reflexivity |].
        split; [rewrite fetchCount_app; lia |].
        split; [| split].
        -- intros Hs. destruct (Hok Hs) as (st & data & seg' & -> & Hst & -> & Hnot).
           exists st, data, (seg' ++ seg1). repeat split; auto.
           rewrite not_elem_of_app. auto.
        -- intros Hs. destruct (Hko Hs) as [-> Hz]. split; [reflexivity |].
           rewrite fetchCount_app. lia.
        -- intros [Hin | Hin]%elem_of_app; [| contradiction].
           destruct (Hfail Hin) as (Hs & seg' & -> & Hnot).
           split; [exact Hs |]. exists (seg' ++ seg1). split; [reflexivity |].
           rewrite not_elem_of_app. auto.
Qed.

(** [makeRequest]: at most [MAX_RETRIES + 1] = 3 downstream calls; it returns
    [success: true] exactly on a response below 500 whose body parsed, that
    response being the last thing it asked for; and [recordFailure] is called
    at most once, as the very last step of a call that made all three
    attempts and returns [success: false]. *)
Lemma makeRequest_spec p payload e s :
  exists r e' s' seg,
    makeRequest p payload (e, s) = (r, (e', s'))
    /\ log e' = seg ++ log e
    /\ (fetchCount seg <= 3)%nat
    /\ (success r = true ->
        exists st data seg',
          r = mkRequestResult true (Some data) (Some st)
          /\ st < 500
          /\ seg = EvRecordSucces p
                   :: EvFetch p payload (Responded st (Some data)) :: seg'
          /\ EvRecordFailure p ∉ seg)
    /\ (success r = false -> r = failed_)
    /\ (EvRecordFailure p ∈ seg ->
        success r = false /\ fetchCount seg = 3%nat
        /\ exists seg', seg = EvRecordFailure p :: seg' /\ EvRecordFailure p ∉ seg').
Proof.
  unfold makeRequest, bind, isCircuitOpenOf.
  destruct (isCircuitOpen (clock e) (statsOf s p)) as [[|] st0].
  - unfold ret. exists failed_, e, (setStats p st0 s), []. cbn.
    split; [reflexivity |]. split; [reflexivity |]. split; [lia |].
    split; [discriminate |]. split; [auto |].
    intros Hin; inversion Hin.
  - change (Z.to_nat (MAX_RETRIES + 1)) with 3%nat.
    destruct (requestLoop_spec 3 p payload 0 e (setStats p st0 s))
      as (r & e' & s' & seg & -> & Hl & Hc & Hok & Hko & Hfail); [reflexivity |].
    exists r, e', s', seg. repeat split; auto.
    + intros Hs. now destruct (Hko Hs).
    + now destruct (Hfail H).
    + destruct (Hfail H) as [Hs _]. now destruct (Hko Hs).
    + now destruct (Hfail H).
Qed.

(** A 5xx response sends the loop of [makeRequest] straight into its next
    pass: the only time that goes by is the time the response took, and
    [recordFailure] is called on the last pass only. *)
Lemma loopBody_server_error p payload attempt e s latency st body rest :
  replies e p = Reply latency st body :: rest ->
  Z.of_N latency < REQUEST_TIMEOUT ->
  500 <= st ->
  exists e' s',
    loopBody p payload attempt (e, s) = (Continued, (e', s'))
    /\ clock e' = clock e + Z.of_N latency
    /\ log e' = (if attempt =? MAX_RETRIES then [EvRecordFailure p] else [])
                ++ EvFetch p payload (Responded st body) :: log e.
Proof.
  intros Hr Hl Hst. unfold loopBody, tryBlock, bind, onFst.
  rewrite (fetch_reply _ _ _ _ _ _ _ _ Hr Hl).
  assert (ok st = false) as ->.
  { unfold ok. apply andb_false_iff. right. lia. }
  destruct (Z.leb_spec 500 st); [| lia].
  unfold when, recordFailureOf, ret.
  destruct (attempt =? MAX_RETRIES); eexists _, _; (split; [reflexivity |]);
    destruct p; split; reflexivity.
Qed.

(** A rejected [fetch] (network error, abort on timeout) is followed by a
    pause of [1000 * (attempt + 1)] ms before the next pass. *)
Lemma loopBody_network_error p payload attempt e s :
  fst (fetch REQUEST_TIMEOUT p payload e) = Rejected ->
  attempt < MAX_RETRIES ->
  exists e' s',
    loopBody p payload attempt (e, s) = (Continued, (e', s'))
    /\ clock e' = clock (snd (fetch REQUEST_TIMEOUT p payload e)) + 1000 * (attempt + 1)
    /\ log e' = EvSleep (1000 * (attempt + 1)) :: EvFetch p payload Rejected :: log e.
Proof.
  intros Hr Ha. unfold loopBody, tryBlock, bind, onFst.
  pose proof (fetch_log REQUEST_TIMEOUT p payload e) as Hlog.
  destruct (fetch REQUEST_TIMEOUT p payload e) as [r e1]. cbn [fst snd] in *. subst r.
  unfold ret, catchBlock, bind, when.
  destruct (Z.eqb_spec attempt MAX_RETRIES); [lia |].
  destruct (Z.ltb_spec attempt MAX_RETRIES); [| lia].
  unfold ret, onFst, sleep, modify. eexists _, _. split; [reflexivity |].
  cbn. rewrite Hlog. split; reflexivity.
Qed.

(** C6 (the code at the failing input).  The default processor answers 503
    to each call: [makeRequest] makes its three calls back to back, without
    any pause (the clock only moves by the 3 x 20 ms the answers took), and
    calls [recordFailure] once, after the third.  When instead the three
    calls are refused, the same function pauses 1000 ms and then 2000 ms
    between them. *)
Theorem C6_server_error_retried_without_backoff :
  let payload := mkPaymentBody "a" 10 in
  let unavailable := Reply 20 503 (Some (JObj [("message", JStr "unavailable")])) in
  let e := mkEnv 100000 [unavailable; unavailable; unavailable] [] [] [] [] [] in
  let refused := mkEnv 100000 [NoReply 20; NoReply 20; NoReply 20] [] [] [] [] [] in
  (let '(r, (e', s')) := makeRequest Default payload (e, initialPayments) in
   r = failed_
   /\ fetchCount (log e') = 3%nat
   /\ pauses (log e') = []
   /\ clock e' = 100060
   /\ processor1Stats s' = mkProcessorStats 1 100060 false)
  /\ (let '(r, (e', s')) := makeRequest Default payload (refused, initialPayments) in
      r = failed_
      /\ fetchCount (log e') = 3%nat
      /\ pauses (log e') = [1000; 2000]
      /\ clock e' = 103060
      /\ processor1Stats s' = mkProcessorStats 1 103060 false).
Proof. vm_compute. repeat split; reflexivity. Qed.

(** The queue's request function on a 4xx response whose body parses. *)
Lemma makeQueueRequest_client_error_json p payload e latency st data rest :
  replies e p = Reply latency st (Some data) :: rest ->
  Z.of_N latency < QUEUE_REQUEST_TIMEOUT ->
  400 <= st < 500 ->
  fst (makeQueueRequest p payload e) = mkRequestResult true (Some data) (Some st).
Proof.
  intros Hr Hl Hst. unfold makeQueueRequest, bind.
  rewrite (fetch_reply _ _ _ _ _ _ _ _ Hr Hl).
  destruct (client_error_not_ok st Hst) as [-> ->]. reflexivity.
Qed.

(** C7 (the code at the failing input).  The default processor answers 404
    with a body that is not JSON.  [makeRequest]: [resp.json()] rejects inside
    the [try], the [catch] treats the attempt as failed, the call is retried
    twice (with the pauses of the [catch]), [recordFailure] is called after
    the third attempt and the result is [success: false].
    [makeQueueRequest]: the [catch] returns [success: false]. *)
Theorem C7_client_error_without_json_body :
  let payload := mkPaymentBody "a" 10 in
  let notFound := Reply 20 404 None in
  let e := mkEnv 100000 [notFound; notFound; notFound] [] [] [] [] [] in
  (let '(r, (e', s')) := makeRequest Default payload (e, initialPayments) in
   success r = false
   /\ fetchCount (log e') = 3%nat
   /\ pauses (log e') = [1000; 2000]
   /\ head (log e') = Some (EvRecordFailure Default)
   /\ failures (processor1Stats s') = 1)
  /\ success (fst (makeQueueRequest Default payload e)) = false.
Proof. vm_compute. repeat split; reflexivity. Qed.

(** ** The POST /payments handler *)

Lemma lastFetch_app_Some seg1 seg2 x :
  lastFetch seg1 = Some x -> lastFetch (seg1 ++ seg2) = Some x.
Proof.
  induction seg1 as [| ev seg1 IH]; [discriminate |].
  destruct ev; cbn; auto.
Qed.

Lemma registerPayment_spec processor amount cid e r :
  exists t r',
    registerPayment processor amount cid (e, r) = (t, (e, r'))
    /\ up r' = up r
    /\ match t with
       | Raised _ => up r = false /\ r' = r
       | Done _ =>
           up r = true
           /\ hashes r'
              = match hashes r !! paymentKey cid with
                | Some _ => hashes r
                | None => <[paymentKey cid :=
                              mkSettlement processor amount cid (clock e)]> (hashes r)
                end
       end.
Proof.
  unfold registerPayment. destruct (up r) eqn:Hup; cbn [negb].
  - destruct (hashes r !! paymentKey cid) eqn:Hk.
    + exists (Done tt), r. auto.
    + eexists (Done tt), _. split; [reflexivity |]. cbn. auto.
  - eexists (Raised _), r. auto.
Qed.

Lemma queuePayment_spec body e q :
  exists t e' q',
    queuePayment body (e, q) = (t, (e', q'))
    /\ log e' = log e
    /\ match t with
       | Raised _ => QUEUE_MAX_SIZE <= queueSize q /\ q' = q
       | Done queueId =>
           exists item,
             queueId = id item
             /\ payment item = body
             /\ paymentQueue q' = paymentQueue q ++ [item]
       end.
Proof.
  destruct (Z.le_gt_cases QUEUE_MAX_SIZE (queueSize q)) as [H | H].
  - rewrite (queuePayment_full body e q H).
    eexists _, _, _. split; [reflexivity |]. auto.
  - destruct (queuePayment_free body e q ltac:(lia))
      as (item & e' & q' & -> & Hl & Hq & Hp & _).
    eexists _, _, _. split; [reflexivity |]. split; [exact Hl |].
    exists item. auto.
Qed.

Lemma lastFetch_app seg1 seg2 :
  lastFetch (seg1 ++ seg2)
  = match lastFetch seg1 with
    | Some x => Some x
    | None => lastFetch seg2
    end.
Proof.
  induction seg1 as [| ev seg1 IH]; [reflexivity |].
  destruct ev; cbn; auto.
Qed.

Lemma lastSettles_app seg1 seg2 :
  lastSettles seg1 = false -> lastSettles seg2 = false ->
  lastSettles (seg1 ++ seg2) = false.
Proof.
  unfold lastSettles. rewrite lastFetch_app.
  destruct (lastFetch seg1) as [[[p payload] r] |]; auto.
Qed.

(** One pass through the loop of [makeRequest]: it returns only with
    [success: true]; when it goes on, the call it made was not answered
    with a status below 500 and a body that parsed. *)
Lemma loopBody_lastFetch p payload attempt e s :
  exists c e' s' seg,
    loopBody p payload attempt (e, s) = (c, (e', s'))
    /\ log e' = seg ++ log e
    /\ match c with
       | Returned r => success r = true
       | _ => lastSettles seg = false
       end.
Proof.
  unfold loopBody, tryBlock, catchBlock, bind, onFst, fetch, when, returnJson,
    recordSuccesOf, recordFailureOf, sleep, modify, ret, ok, REQUEST_TIMEOUT, MAX_RETRIES.
  destruct e as [c r1 r2 pr1 pr2 rn lg], s as [hc st1 st2].
  destruct p; cbn [replies replies1 replies2].
  - destruct r1 as [| [latency st body | latency] rest]; try destruct body;
      cbn; case_conditions; cbn; case_conditions; booleans; comparisons;
      lastFetch_leaf.
  - destruct r2 as [| [latency st body | latency] rest]; try destruct body;
      cbn; case_conditions; cbn; case_conditions; booleans; comparisons;
      lastFetch_leaf.
Qed.

Lemma requestLoop_unsettled n :
  forall p payload attempt e s,
    exists r e' s' seg,
      requestLoop n p payload attempt (e, s) = (r, (e', s'))
      /\ log e' = seg ++ log e
      /\ (success r = false -> lastSettles seg = false).
Proof.
  induction n as [| n IH]; intros p payload attempt e s.
  - exists failed_, e, s, []. repeat split.
  - cbn [requestLoop]. unfold bind.
    destruct (loopBody_lastFetch p payload attempt e s)
      as (c & e1 & s1 & seg1 & -> & Hl1 & Hc).
    destruct (IH p payload (attempt + 1) e1 s1) as (r & e2 & s2 & seg2 & Heq & Hl2 & Hr).
    assert (Hgo : exists r e' s' seg,
               requestLoop n p payload (attempt + 1) (e1, s1) = (r, (e', s'))
               /\ log e' = seg ++ log e
               /\ (lastSettles seg1 = false -> success r = false ->
                   lastSettles seg = false)).
    { exists r, e2, s2, (seg2 ++ seg1). split; [exact Heq |].
      split; [rewrite Hl2, Hl1, app_assoc; reflexivity |].
      intros H1 H2. apply lastSettles_app; auto. }
    destruct c as [res | |].
    + unfold ret. exists res, e1, s1, seg1. split; [reflexivity |].
      split; [exact Hl1 |]. congruence.
    + destruct Hgo as (r' & e' & s' & seg & -> & Hl & H).
      exists r', e', s', seg. auto.
    + destruct Hgo as (r' & e' & s' & seg & -> & Hl & H).
      exists r', e', s', seg. auto.
Qed.

(** A call of [makeRequest] that returns [success: false] has not had a
    call answered with a status below 500 and a body that parsed. *)
Lemma makeRequest_unsettled p payload e s :
  exists r e' s' seg,
    makeRequest p payload (e, s) = (r, (e', s'))
    /\ log e' = seg ++ log e
    /\ (success r = false -> lastSettles seg = false).
Proof.
  unfold makeRequest, bind, isCircuitOpenOf.
  destruct (isCircuitOpen (clock e) (statsOf s p)) as [[|] st0].
  - unfold ret. exists failed_, e, (setStats p st0 s), []. repeat split.
  - apply requestLoop_unsettled.
Qed.

Lemma getHealth_no_call e s :
  exists seg,
    log (snd (getHealth (e, s))).1 = seg ++ log e /\ lastFetch seg = None.
Proof.
  unfold getHealth, bind, gets, ret.
  destruct (clock e - last (healthCache s) <? HEALTH_TTL); [exists []; split; reflexivity |].
  unfold onFst.
  assert (Hp : exists h1 h2,
             log (snd (probeBoth e)) = [EvProbe Fallback h2; EvProbe Default h1] ++ log e).
  { unfold probeBoth, nextProbe.
    destruct e as [c r1 r2 pr1 pr2 rn lg]; cbn.
    destruct pr1 as [| a1 l1]; cbn; destruct pr2 as [| a2 l2]; cbn;
      repeat match goal with
             | |- context [raceProbe ?a] => destruct (raceProbe a)
             end;
      eexists _, _; reflexivity. }
  destruct Hp as (h1' & h2' & Hseg).
  destruct (probeBoth e) as [[h1 h2] e1]. cbn [snd] in Hseg.
  destruct (healthyAndClosed_spec Default h1 e1 s) as (st1 & -> & _).
  destruct (healthyAndClosed_spec Fallback h2 e1 (setStats Default st1 s)) as (st2 & -> & _).
  unfold modify. cbn. eexists. split; [exact Hseg | reflexivity].
Qed.

(** One settlement attempt of the handler, in full: it ends the request
    exactly when the processor's last answer had a status below 500 and a
    body that parsed; the reply is then that status and that body when the
    ledger write returns, and the handler rejects when it throws. *)
Lemma settle_outcome p body w :
  exists res w' seg,
    settle p body w = (res, w')
    /\ log (env w') = seg ++ log (env w)
    /\ queueState w' = queueState w
    /\ match res with
       | Some out =>
           exists st data,
             lastFetch seg = Some (p, body, Responded st (Some data))
             /\ st < 500
             /\ (if up (redis w)
                 then out = Replied (if st =? 0 then 200 else st) data
                      /\ redis w'
                         = (snd (registerPayment p (amount body) None
                                   (env w', redis w))).2
                 else out = Uncaught /\ redis w' = redis w)
       | None => redis w' = redis w /\ lastSettles seg = false
       end.
Proof.
  unfold settle, bind, inPayments.
  destruct (makeRequest_spec p body (env w) (paymentsState w))
    as (r & e1 & s1 & seg & Heq & Hl & _ & Hok & _ & _).
  destruct (makeRequest_unsettled p body (env w) (paymentsState w))
    as (r0 & e0 & s0 & seg0 & Heq0 & Hl0 & Hko).
  rewrite Heq in Heq0. injection Heq0 as <- <- <-.
  assert (seg0 = seg) as -> by (rewrite Hl in Hl0; now apply app_inv_tail in Hl0).
  rewrite Heq.
  destruct (success r) eqn:Hs.
  - destruct (Hok eq_refl) as (st & data & seg' & -> & Hst & -> & _).
    unfold inLedger. cbn [env redis paymentsState queueState].
    pose proof (registerPayment_spec p (amount body) None e1 (redis w))
      as (t & r' & Hreg & Hup & Ht).
    rewrite Hreg.
    destruct t as [[] | msg]; unfold ret.
    + eexists _, _, _. split; [reflexivity |]. split; [exact Hl |].
      split; [reflexivity |]. exists st, data. split; [reflexivity |].
      split; [exact Hst |]. destruct Ht as [-> _]. cbn [env redis].
      rewrite Hreg. split; reflexivity.
    + eexists _, _, _. split; [reflexivity |]. split; [exact Hl |].
      split; [reflexivity |]. exists st, data. split; [reflexivity |].
      split; [exact Hst |]. destruct Ht as [-> ->]. cbn [redis]. split; reflexivity.
  - unfold ret. eexists None, _, seg. split; [reflexivity |].
    split; [exact Hl |]. split; [reflexivity |]. split; [reflexivity | auto].
Qed.

(** The handler, in full. *)
Lemma payments_outcome body w :
  exists out w' seg,
    payments body w = (out, w')
    /\ log (env w') = seg ++ log (env w)
    /\ ((exists p st data,
            lastFetch seg = Some (p, body, Responded st (Some data))
            /\ st < 500
            /\ queueState w' = queueState w
            /\ (if up (redis w)
                then out = Replied (if st =? 0 then 200 else st) data
                     /\ redis w'
                        = (snd (registerPayment p (amount body) None
                                  (env w', redis w))).2
                else out = Uncaught /\ redis w' = redis w))
        \/ (lastSettles seg = false
            /\ redis w' = redis w
            /\ (if QUEUE_MAX_SIZE <=? queueSize (queueState w)
                then queueState w' = queueState w
                     /\ out = Replied 500
                                (if negb (fst (reportedHealth w))
                                    && negb (snd (reportedHealth w))
                                 then overloadBody body (queueSize (queueState w))
                                 else queueFullBody body)
                else exists item,
                       out = Replied 200 (queuedBody body (id item))
                       /\ payment item = body
                       /\ paymentQueue (queueState w')
                          = paymentQueue (queueState w) ++ [item]))).
Proof.
  unfold payments, bind, gets, reportedHealth.
  unfold inPayments at 1.
  destruct (getHealth_no_call (env w) (paymentsState w)) as (seg0 & Hl0 & Hn0).
  destruct (getHealth (env w, paymentsState w)) as [[h1 h2] [e0 s0]].
  cbn [fst snd] in *.
  set (w0 := mkWorld e0 s0 (queueState w) (redis w)).
  assert (Hq0 : queueState w0 = queueState w) by reflexivity.
  assert (Hr0 : redis w0 = redis w) by reflexivity.
  assert (Hlog0 : log (env w0) = seg0 ++ log (env w)) by exact Hl0.
  assert (Hs0 : lastSettles seg0 = false) by (unfold lastSettles; now rewrite Hn0).
  clearbody w0. clear Hl0 e0 s0 Hn0.
  rewrite Hq0.
  destruct (QUEUE_MAX_SIZE <=? queueSize (queueState w)) eqn:Hfull.
  1: destruct (negb h1 && negb h2) eqn:Hboth; cbn [andb].
  1: { unfold ret. eexists _, w0, seg0. split; [reflexivity |]. split; [exact Hlog0 |].
       right. split; [exact Hs0 |]. split; [exact Hr0 |]. split; [exact Hq0 | reflexivity]. }
  all: rewrite ?andb_false_r.
  all: assert (First : exists res w1 seg1,
    (if h1 then settle Default body else ret None) w0 = (res, w1)
    /\ log (env w1) = seg1 ++ log (env w)
    /\ queueState w1 = queueState w
    /\ match res with
       | Some out =>
           exists p st data,
             lastFetch seg1 = Some (p, body, Responded st (Some data))
             /\ st < 500
             /\ (if up (redis w)
                 then out = Replied (if st =? 0 then 200 else st) data
                      /\ redis w1
                         = (snd (registerPayment p (amount body) None
                                   (env w1, redis w))).2
                 else out = Uncaught /\ redis w1 = redis w)
       | None => redis w1 = redis w /\ lastSettles seg1 = false
       end)
    by (destruct h1;
        [ destruct (settle_outcome Default body w0) as (res & w1 & seg & -> & Hl & Hq & Hres);
          exists res, w1, (seg ++ seg0); split; [reflexivity |];
          split; [rewrite Hl, Hlog0, app_assoc; reflexivity |];
          split; [congruence |];
          destruct res as [out |];
          [ destruct Hres as (st & data & Hf & Hst & Hout); exists Default, st, data;
            split; [now apply lastFetch_app_Some |]; split; [exact Hst |];
            rewrite <- Hr0; exact Hout
          | destruct Hres as [Hres1 Hres2];
            split; [congruence | now apply lastSettles_app] ]
        | unfold ret; exists None, w0, seg0; auto ]).
  all: destruct First as (res1 & w1 & seg1 & -> & Hlog1 & Hq1 & Hres1).
  all: destruct res1 as [out1 |];
    [ unfold ret; exists out1, w1, seg1; split; [reflexivity |]; split; [exact Hlog1 |];
      left; destruct Hres1 as (p & st & data & ? & ? & ?);
      exists p, st, data; auto |].
  all: destruct Hres1 as [Hr1 Hs1].
  all: assert (Second : exists res w2 seg2,
    (if h2 then settle Fallback body else ret None) w1 = (res, w2)
    /\ log (env w2) = seg2 ++ log (env w)
    /\ queueState w2 = queueState w
    /\ match res with
       | Some out =>
           exists p st data,
             lastFetch seg2 = Some (p, body, Responded st (Some data))
             /\ st < 500
             /\ (if up (redis w)
                 then out = Replied (if st =? 0 then 200 else st) data
                      /\ redis w2
                         = (snd (registerPayment p (amount body) None
                                   (env w2, redis w))).2
                 else out = Uncaught /\ redis w2 = redis w)
       | None => redis w2 = redis w /\ lastSettles seg2 = false
       end)
    by (destruct h2;
        [ destruct (settle_outcome Fallback body w1) as (res & w2 & seg & -> & Hl & Hq & Hres);
          exists res, w2, (seg ++ seg1); split; [reflexivity |];
          split; [rewrite Hl, Hlog1, app_assoc; reflexivity |];
          split; [congruence |];
          destruct res as [out |];
          [ destruct Hres as (st & data & Hf & Hst & Hout); exists Fallback, st, data;
            split; [now apply lastFetch_app_Some |]; split; [exact Hst |];
            rewrite <- Hr1; exact Hout
          | destruct Hres as [Hres1 Hres2];
            split; [congruence | now apply lastSettles_app] ]
        | unfold ret; exists None, w1, seg1; auto ]).
  all: destruct Second as (res2 & w2 & seg2 & -> & Hlog2 & Hq2 & Hres2).
  all: destruct res2 as [out2 |];
    [ unfold ret; exists out2, w2, seg2; split; [reflexivity |]; split; [exact Hlog2 |];
      left; destruct Hres2 as (p & st & data & ? & ? & ?);
      exists p, st, data; auto |].
  all: destruct Hres2 as [Hr2 Hs2].
  all: unfold inQueue.
  - apply Z.leb_le in Hfull.
    rewrite (queuePayment_full body (env w2) (queueState w2)) by (rewrite Hq2; exact Hfull).
    unfold ret. eexists _, _, seg2. split; [reflexivity |].
    split; [exact Hlog2 |]. right. split; [exact Hs2 |]. split; [exact Hr2 |].
    cbn [queueState]. split; [exact Hq2 | reflexivity].
  - apply Z.leb_gt in Hfull.
    destruct (queuePayment_free body (env w2) (queueState w2))
      as (item & e3 & q3 & -> & Hl3 & Hqueue & Hp & _); [rewrite Hq2; exact Hfull |].
    unfold ret. eexists _, _, seg2. split; [reflexivity |].
    split; [cbn; congruence |]. right. split; [exact Hs2 |]. split; [exact Hr2 |].
    cbn [queueState]. exists item. split; [reflexivity |]. split; [exact Hp |].
    congruence.
Qed.

(** C4, corrected.  What the POST /payments handler answers, [seg] being
    what the run added to the log.
    - Direct settlement.  When the last downstream call of the run was
      answered with a status [st] below 500 and a body that parsed, that
      call carried this payment, the queue is left alone, and: if the ledger
      write returns (redis is up) the handler replies with that status (200
      when [st] is 0) and that body, having registered the payment; if it
      throws, the handler rejects and the ledger is as before.
    - Otherwise (no call was made, or the last one failed) the ledger is
      left alone and the request is deferred: below capacity the handler
      replies 200 with [{correlationId, queueId, status: "queued"}],
      [queueId] being the id of the item it has appended to the queue for
      this payment; at capacity it replies 500 with an error body (the
      overload body when both processors were reported unhealthy, the
      queue-full body otherwise) and the queue is unchanged. *)
Theorem C4_reply_shapes (body : PaymentBody) (w : World) :
  exists out w' seg,
    payments body w = (out, w')
    /\ log (env w') = seg ++ log (env w)
    /\ (forall p payload st data,
          lastFetch seg = Some (p, payload, Responded st (Some data)) ->
          st < 500 ->
          payload = body
          /\ queueState w' = queueState w
          /\ (up (redis w) = true ->
              out = Replied (if st =? 0 then 200 else st) data
              /\ redis w'
                 = (snd (registerPayment p (amount body) None (env w', redis w))).2)
          /\ (up (redis w) = false -> out = Uncaught /\ redis w' = redis w))
    /\ (lastSettles seg = false ->
        redis w' = redis w
        /\ (queueSize (queueState w) < QUEUE_MAX_SIZE ->
            exists item,
              out = Replied 200 (queuedBody body (id item))
              /\ payment item = body
              /\ paymentQueue (queueState w')
                 = paymentQueue (queueState w) ++ [item])
        /\ (QUEUE_MAX_SIZE <= queueSize (queueState w) ->
            queueState w' = queueState w
            /\ out = Replied 500
                       (if negb (fst (reportedHealth w)) && negb (snd (reportedHealth w))
                        then overloadBody body (queueSize (queueState w))
                        else queueFullBody body))).
Proof.
  destruct (payments_outcome body w) as (out & w' & seg & Heq & Hlog & Hcases).
  exists out, w', seg. split; [exact Heq |]. split; [exact Hlog |].
  split.
  - intros p payload st data Hlast Hst.
    destruct Hcases as [(p0 & st0 & data0 & Hlast0 & _ & Hq & Hout) | (Hno & _)].
    + rewrite Hlast in Hlast0. injection Hlast0 as -> -> -> ->.
      split; [reflexivity |]. split; [exact Hq |].
      destruct (up (redis w)); split; intros Hup; try discriminate; exact Hout.
    + unfold lastSettles in Hno. rewrite Hlast in Hno. cbn in Hno.
      apply Z.ltb_ge in Hno. lia.
  - intros Hno.
    destruct Hcases as [(p0 & st0 & data0 & Hlast0 & Hst0 & _) | (_ & Hr & Hqueue)].
    + unfold lastSettles in Hno. rewrite Hlast0 in Hno. cbn in Hno.
      apply Z.ltb_ge in Hno. lia.
    + split; [exact Hr |].
      destruct (Z.leb_spec QUEUE_MAX_SIZE (queueSize (queueState w))); split;
        intros Hsize; try lia; exact Hqueue.
Qed.

(** An instance of C4: the default processor answers the payment with 422
    and a JSON body, redis is up; the reply is 422 with that body. *)
Lemma C4_reply_shapes_witness :
  exists out w',
    payments (mkPaymentBody "a" 10) rejected422 = (out, w')
    /\ out = Replied 422 (JObj [("message", JStr "unprocessable")])
    /\ queueState w' = queueState rejected422.
Proof.
  destruct (C4_reply_shapes (mkPaymentBody "a" 10) rejected422)
    as (out & w' & seg & Heq & Hlog & Hsettled & _).
  exists out, w'. split; [exact Heq |].
  assert (Hlast : lastFetch seg
                  = Some (Default, mkPaymentBody "a" 10,
                          Responded 422 (Some (JObj [("message", JStr "unprocessable")])))).
  { change (log (env rejected422)) with (@nil Event) in Hlog.
    rewrite app_nil_r in Hlog. rewrite <- Hlog.
    replace w' with (snd (payments (mkPaymentBody "a" 10) rejected422))
      by (rewrite Heq; reflexivity).
    vm_compute. reflexivity. }
  destruct (Hsettled _ _ _ _ Hlast ltac:(lia)) as (_ & Hq & Hup & _).
  split; [apply Hup; reflexivity | exact Hq].
Defined.

(** A direct settlement whose reply is not 200: the default processor
    answers 422, [makeRequest] takes it as success, the handler registers the
    payment and replies 422 with the processor's body. *)
Lemma C4_counterexample :
  let body := mkPaymentBody "a" 10 in
  let data := JObj [("message", JStr "unprocessable")] in
  exists w',
    payments body rejected422 = (Replied 422 data, w')
    /\ lastFetch (log (env w')) = Some (Default, body, Responded 422 (Some data))
    /\ queueState w' = queueState rejected422
    /\ 422 <> 200.
Proof.
  intros body data. eexists. split; [vm_compute; reflexivity |].
  split; [reflexivity |]. split; [reflexivity | discriminate].
Qed.

(** ** Settlement ledger *)

(** [registerPayment] is idempotent on its key: once a settlement is stored
    under a correlation id, a further call with that id returns without
    changing anything, whatever processor, amount and time it comes with. *)
Lemma registerPayment_idempotent processor amount processor' amount' cid e e' r :
  up r = true ->
  let r1 := (snd (registerPayment processor amount cid (e, r))).2 in
  registerPayment processor' amount' cid (e', r1) = (Done tt, (e', r1))
  /\ is_Some (hashes r1 !! paymentKey cid).
Proof.
  intros Hup r1. subst r1.
  destruct (registerPayment_spec processor amount cid e r) as (t & r' & -> & Hup' & Ht).
  cbn [snd]. rewrite Hup in Hup'.
  destruct t as [[] | msg]; [| destruct Ht; congruence].
  destruct Ht as [_ Hh].
  assert (Hin : is_Some (hashes r' !! paymentKey cid)).
  { rewrite Hh. destruct (hashes r !! paymentKey cid) eqn:Hk.
    - rewrite Hk. eauto.
    - rewrite lookup_insert_eq. eauto. }
  split; [| exact Hin].
  unfold registerPayment. rewrite Hup'. cbn [negb].
  destruct Hin as [v ->]. reflexivity.
Qed.

(** A settlement already stored is never overwritten. *)
Lemma registerPayment_keeps processor amount cid e r k v :
  hashes r !! k = Some v ->
  hashes (snd (registerPayment processor amount cid (e, r))).2 !! k = Some v.
Proof.
  intros Hk. unfold registerPayment.
  destruct (up r); cbn; [| exact Hk].
  destruct (hashes r !! paymentKey cid) eqn:Hc; cbn; [exact Hk |].
  rewrite lookup_insert_ne; [exact Hk | congruence].
Qed.

(** The only key a call can write is the key of the id it was given. *)
Lemma registerPayment_other_keys processor amount cid e r k :
  k <> paymentKey cid ->
  hashes (snd (registerPayment processor amount cid (e, r))).2 !! k
  = hashes r !! k.
Proof.
  intros Hk. unfold registerPayment.
  destruct (up r); cbn; [| reflexivity].
  destruct (hashes r !! paymentKey cid); cbn; [reflexivity |].
  now rewrite lookup_insert_ne.
Qed.

Lemma settle_ledger p body w k :
  k <> "payment:undefined" ->
  hashes (redis (snd (settle p body w))) !! k = hashes (redis w) !! k.
Proof.
  intros Hk. unfold settle, bind, inPayments.
  destruct (makeRequest p body (env w, paymentsState w)) as [r [e1 s1]].
  destruct (success r); [| reflexivity].
  unfold inLedger. cbn [env redis].
  pose proof (registerPayment_other_keys p (amount body) None e1 (redis w) k Hk) as H.
  destruct (registerPayment p (amount body) None (e1, redis w)) as [t [e2 r2]].
  cbn in H. destruct t; exact H.
Qed.

(** The handler never stores a settlement under the correlation id of the
    payment it settles: the only ledger key it can write is
    ["payment:undefined"]. *)
Lemma payments_ledger body w k :
  k <> "payment:undefined" ->
  hashes (redis (snd (payments body w))) !! k = hashes (redis w) !! k.
Proof.
  intros Hk. unfold payments, bind, gets.
  unfold inPayments at 1.
  destruct (getHealth (env w, paymentsState w)) as [[h1 h2] [e0 s0]].
  set (w0 := mkWorld e0 s0 (queueState w) (redis w)).
  change (hashes (redis w) !! k) with (hashes (redis w0) !! k).
  cbn [queueState]. clearbody w0.
  destruct (negb h1 && negb h2 && _); [reflexivity |].
  assert (First : hashes (redis (snd ((if h1 then settle Default body else ret None) w0))) !! k
                  = hashes (redis w0) !! k).
  { destruct h1; [now apply settle_ledger | reflexivity]. }
  destruct ((if h1 then settle Default body else ret None) w0) as [res1 w1].
  cbn [snd] in First. rewrite <- First.
  destruct res1; [reflexivity |].
  assert (Second : hashes (redis (snd ((if h2 then settle Fallback body else ret None) w1))) !! k
                   = hashes (redis w1) !! k).
  { destruct h2; [now apply settle_ledger | reflexivity]. }
  destruct ((if h2 then settle Fallback body else ret None) w1) as [res2 w2].
  cbn [snd] in Second. rewrite <- Second.
  destruct res2; [reflexivity |].
  unfold inQueue.
  destruct (queuePayment body (env w2, queueState w2)) as [t [e3 q3]].
  destruct t; reflexivity.
Qed.

(** C1 (the code at the failing input).  Two payments, "a" and "b", are
    settled one after the other on the default processor.  The handler calls
    [registerPayment('default', amount)] without the correlation id, so the
    first settlement is stored under the key ["payment:undefined"] and the
    second call finds that key and skips: the ledger holds one record for the
    two payments, none under "payment:a" or "payment:b".  The queue worker
    calls [registerPayment] the same way: the payment "c" it settles is
    stored under ["payment:undefined"] as well. *)
Theorem C1_settlements_lose_their_correlation_id :
  (let '(out1, w1) := payments (mkPaymentBody "a" 10) twoPayments in
   let '(out2, w2) := payments (mkPaymentBody "b" 20) w1 in
   out1 = Replied 200 accepted
   /\ out2 = Replied 200 accepted
   /\ map_to_list (hashes (redis w2))
      = [("payment:undefined", mkSettlement Default 10 None 100017)]
   /\ hashes (redis w2) !! "payment:a" = None
   /\ hashes (redis w2) !! "payment:b" = None)
  /\ (let '(_, (_, q, r)) := processQueue (oneQueued true) in
      paymentQueue q = []
      /\ processed (queueStats q) = 1
      /\ map_to_list (hashes r)
         = [("payment:undefined", mkSettlement Default 30 None 100017)]
      /\ hashes r !! "payment:c" = None).
Proof. vm_compute. repeat split; reflexivity. Qed.

(** ** Retry queue: the worker *)

Lemma fetch_replies timeout p payload e p' :
  replies (snd (fetch timeout p payload e)) p'
  = if decide (p' = p) then tail (replies e p) else replies e p'.
Proof.
  unfold fetch.
  destruct (replies e p) as [| a l] eqn:Hr.
  - cbn. destruct (decide (p' = p)) as [-> | Hne].
    + rewrite <- Hr. destruct p; cbn in *; rewrite ?Hr; reflexivity.
    + destruct p, p'; try congruence; reflexivity.
  - destruct (match a with Reply _ _ _ => _ | NoReply _ => _ end) as [r dt].
    cbn. destruct (decide (p' = p)) as [-> | Hne].
    + destruct p; reflexivity.
    + destruct p, p'; try congruence; reflexivity.
Qed.


Lemma fetch_result timeout p payload e :
  fst (fetch timeout p payload e)
  = match nextReply e p with
    | Reply latency st body =>
        if Z.of_N latency <? timeout then Responded st body else Rejected
    | NoReply _ => Rejected
    end.
Proof.
  unfold fetch, nextReply.
  destruct (replies e p) as [| a l]; [reflexivity |].
  destruct a as [latency st body | latency]; [| reflexivity].
  destruct (Z.of_N latency <? timeout); reflexivity.
Qed.

(** [makeQueueRequest] succeeds exactly on an accepting answer. *)
Lemma makeQueueRequest_spec p payload e :
  exists r e',
    makeQueueRequest p payload e = (r, e')
    /\ success r = accepts (nextReply e p)
    /\ e' = snd (fetch QUEUE_REQUEST_TIMEOUT p payload e).
Proof.
  unfold makeQueueRequest, bind.
  pose proof (fetch_result QUEUE_REQUEST_TIMEOUT p payload e) as Hf.
  destruct (fetch QUEUE_REQUEST_TIMEOUT p payload e) as [res e1].
  cbn [fst snd] in *. subst res. unfold accepts.
  destruct (nextReply e p) as [latency st body | latency].
  - destruct (Z.of_N latency <? QUEUE_REQUEST_TIMEOUT); cbn [andb].
    + destruct (ok st) eqn:Hok.
      * apply ok_lt_500 in Hok. apply Z.ltb_lt in Hok.
        destruct body; unfold ret; eexists _, _; (split; [reflexivity |]);
          split; try reflexivity; cbn; now rewrite Hok.
      * destruct (Z.leb_spec 500 st) as [Hge | Hlt].
        -- apply Z.ltb_ge in Hge.
           unfold ret; eexists _, _; (split; [reflexivity |]);
             split; try reflexivity; cbn. destruct body; now rewrite ?Hge.
        -- apply Z.ltb_lt in Hlt.
           destruct body; unfold ret; eexists _, _; (split; [reflexivity |]);
             split; try reflexivity; cbn; now rewrite Hlt.
    + unfold ret; eexists _, _; (split; [reflexivity |]); split; try reflexivity.
      cbn. destruct body; reflexivity.
  - unfold ret; eexists _, _; (split; [reflexivity |]); split; reflexivity.
Qed.



Lemma probeBoth_replies e p : replies (snd (probeBoth e)) p = replies e p.
Proof.
  unfold probeBoth, nextProbe.
  destruct e as [c r1 r2 pr1 pr2 rn lg]; cbn.
  destruct pr1 as [| a1 l1]; cbn; destruct pr2 as [| a2 l2]; cbn;
    repeat match goal with
           | |- context [raceProbe ?a] => destruct (raceProbe a)
           end;
    destruct p; reflexivity.
Qed.

Lemma probeBoth_clock e : clock e <= clock (snd (probeBoth e)).
Proof.
  destruct (probeBoth_spec e) as [_ ->].
  pose proof (probeTime_nonneg (nextProbeReply e Default)). lia.
Qed.


(** An item that is not due is left alone. *)
Lemma processQueuedPayment_not_due pay hc e q r :
  clock e - lastAttempt pay < delay pay ->
  processQueuedPayment pay hc (e, q, r) = ((false, pay), (e, q, r)).
Proof.
  intros H. unfold processQueuedPayment, bind, gets, ret.
  destruct (Z.ltb_spec (clock e - lastAttempt pay) (delay pay)); [reflexivity | lia].
Qed.








Lemma nextReply_fetch_other timeout p payload e p' :
  p' <> p -> nextReply (snd (fetch timeout p payload e)) p' = nextReply e p'.
Proof.
  intros Hne. unfold nextReply. rewrite fetch_replies.
  destruct (decide (p' = p)); [contradiction | reflexivity].
Qed.

Lemma nextReply_probeBoth e p : nextReply (snd (probeBoth e)) p = nextReply e p.
Proof. unfold nextReply. now rewrite probeBoth_replies. Qed.

Lemma settlesOn_fetch_other timeout p payload e ps :
  p ∉ ps -> settlesOn (snd (fetch timeout p payload e)) ps = settlesOn e ps.
Proof.
  unfold settlesOn. induction ps as [| p' ps IH]; intros Hnot; [reflexivity |].
  apply not_elem_of_cons in Hnot as [Hne Hnot]. cbn [List.find].
  rewrite nextReply_fetch_other by congruence. rewrite IH by assumption. reflexivity.
Qed.

(** When some processor of the list accepts and redis is down: the loop
    returns at that processor, the payment is counted as processed, and the
    error of [registerPayment] is swallowed, leaving the ledger as it was. *)
Lemma tryProcessors_accepted ps pay :
  forall e q r p,
    NoDup ps ->
    up r = false ->
    settlesOn e ps = Some p ->
    exists e',
      tryProcessors ps pay (e, q, r) = (true, (e', countProcessed q, r)).
Proof.
  induction ps as [| p0 ps IH]; intros e q r p Hnd Hup Hfind; [discriminate |].
  apply NoDup_cons in Hnd as [Hnot Hnd].
  cbn [tryProcessors]. unfold bind, workerEnv.
  destruct (makeQueueRequest_spec p0 (payment pay) e) as (res & e1 & -> & Hs & ->).
  rewrite Hs. unfold settlesOn in Hfind. cbn [List.find] in Hfind.
  destruct (accepts (nextReply e p0)).
  - unfold updateStats, modify, workerLedger, registerPayment. rewrite Hup. cbn.
    eexists. reflexivity.
  - apply (IH _ q r p Hnd Hup).
    rewrite settlesOn_fetch_other by assumption. exact Hfind.
Qed.

Lemma processorsToTry_NoDup h1 h2 : NoDup (processorsToTry h1 h2).
Proof.
  destruct h1, h2; cbn; repeat constructor;
    rewrite ?not_elem_of_cons; repeat split; try discriminate; apply not_elem_of_nil.
Qed.

Lemma processQueuedPayment_accepted pay e q r p :
  delay pay <= clock e - lastAttempt pay ->
  up r = false ->
  settlesOn e (processorsToTry (probedHealth e).1 (probedHealth e).2) = Some p ->
  exists e',
    processQueuedPayment pay probeBoth (e, q, r)
    = ((true, setAttempt (clock e) pay), (e', countProcessed q, r)).
Proof.
  intros Hdue Hup Hfind. unfold processQueuedPayment, bind, gets.
  destruct (Z.ltb_spec (clock e - lastAttempt pay) (delay pay)); [lia |].
  unfold workerEnv, probedHealth in *.
  assert (Hsame : forall ps, settlesOn (snd (probeBoth e)) ps = settlesOn e ps).
  { intros ps. unfold settlesOn. induction ps as [| p' ps IH]; [reflexivity |].
    cbn [List.find]. now rewrite nextReply_probeBoth, IH. }
  destruct (probeBoth e) as [[h1 h2] e1]. cbn [fst snd] in *.
  rewrite <- Hsame in Hfind.
  destruct (tryProcessors_accepted (processorsToTry h1 h2) (setAttempt (clock e) pay)
              e1 q r p (processorsToTry_NoDup h1 h2) Hup Hfind) as [e' ->].
  unfold ret. eexists. reflexivity.
Qed.

(** C2, corrected.  A queued payment is due, one of the processors the
    worker tries accepts it, and the ledger write fails (redis is down).
    [processQueuedPayment] then swallows the error and returns [true]: the
    payment is counted as processed (not as failed, not as a retry) and
    nothing is written to the ledger; and the cycle that gets [true] removes
    the item: a queue that held just this item is empty afterwards.  The item
    is gone, so no later cycle registers it. *)
Theorem C2_ledger_failure_still_removes
  (pay : QueuedPayment) (e : Env) (q : QueueState) (r : Redis) (p : ProcessorType) :
  delay pay <= clock e - lastAttempt pay ->
  settlesOn e (processorsToTry (probedHealth e).1 (probedHealth e).2) = Some p ->
  up r = false ->
  (exists e',
     processQueuedPayment pay probeBoth (e, q, r)
     = ((true, setAttempt (clock e) pay), (e', countProcessed q, r)))
  /\ (paymentQueue q = [pay] ->
      exists e' q',
        processQueue (e, q, r) = (tt, (e', q', r))
        /\ paymentQueue q' = []
        /\ queueStats q' = incProcessed (queueStats q)).
Proof.
  intros Hdue Hfind Hup.
  destruct (processQueuedPayment_accepted pay e q r p Hdue Hup Hfind) as [e' Heq].
  split; [exists e'; exact Heq |].
  intros Hq. unfold processQueue, bind, gets. rewrite Hq.
  cbn [length Nat.eqb take drop QUEUE_BATCH_SIZE processBatch]. unfold bind.
  rewrite Heq.
  unfold setLastQueueActivity, modify, ret, setQueue, modify, gets. cbn.
  eexists _, _. split; [reflexivity |]. split; reflexivity.
Qed.

(** An instance of C2: the item [waiting], accepted by the default
    processor while redis is down. *)
Lemma C2_ledger_failure_still_removes_witness :
  let '(e, q, r) := oneQueued false in
  exists e' q',
    processQueue (e, q, r) = (tt, (e', q', r))
    /\ paymentQueue q' = []
    /\ queueStats q' = incProcessed (queueStats q).
Proof.
  apply (C2_ledger_failure_still_removes waiting
           (mkEnv 100000 [Reply 10 200 (Some accepted)] []
                  [ProbeStatus 5 200] [ProbeStatus 7 200] [] [])
           (mkQueueState [waiting] true 90000 (mkQueueStats 1 0 0 0) (Some 100000))
           (mkRedis false ∅) Default).
  - vm_compute. discriminate.
  - reflexivity.
  - reflexivity.
  - reflexivity.
Defined.

(** The downstream call succeeded, the ledger write failed, and the item is
    no longer in the queue. *)
Lemma C2_counterexample :
  let '(_, (e', q', r')) := processQueue (oneQueued false) in
  lastFetch (log e') = Some (Default, payment waiting, Responded 200 (Some accepted))
  /\ hashes r' = ∅
  /\ getQueuedPayment (id waiting) q' = None
  /\ paymentQueue q' = []
  /\ processed (queueStats q') = 1.
Proof. vm_compute. repeat split; reflexivity. Qed.

(** The same item on the worker's own rhythm, a cycle every
    [QUEUE_PROCESS_INTERVAL] = 3000 ms: the cycles that come before the delay
    (2000, then 4000, then 8000 ms) has elapsed are skipped, the sixth cycle
    is the third attempt and drops the item. *)
Example dropped_on_the_sixth_cycle :
  (let '(removed, pay', _) :=
     retryCycles (replicate 5 3000%N) waiting (allDown true) in
   (removed, attempts pay', delay pay')) = (false, 2, 8000)
  /\ (let '(removed, pay', s') :=
        retryCycles (replicate 6 3000%N) waiting (allDown true) in
      (removed, attempts pay', workerStats s'))
     = (true, 3, mkQueueStats 1 0 1 2).
Proof. vm_compute. split; reflexivity. Qed.

(** ** A run from request to drop

    Both processors answer 503 to every call.  The payment is queued by the
    handler; the worker then comes back to it three times, a minute apart,
    and drops it at the third attempt: the queue is empty, [failed] is 1, and
    the ledger has never seen the payment. *)
Example queued_then_dropped :
  let run :=
    (let* out := payments (mkPaymentBody "a" 10) in
     later 60000 ;; inWorker processQueue ;;
     later 60000 ;; inWorker processQueue ;;
     later 60000 ;; inWorker processQueue ;;
     ret out) in
  let '(out, w) := run bothFailing in
  out = Replied 200 (queuedBody (mkPaymentBody "a" 10) "payment_100127_k3x9")
  /\ paymentQueue (queueState w) = []
  /\ queueStats (queueState w) = mkQueueStats 1 0 1 2
  /\ hashes (redis w) = ∅.
Proof. vm_compute. repeat split; reflexivity. Qed.

(** * Beyond the claims *)

(** ** GET /payments-summary *)

Lemma filter_length_ext {A} (f g : A -> bool) (l : list A) :
  (forall x, x ∈ l -> f x = g x) ->
  length (filter f l) = length (filter g l).
Proof.
  induction l as [| x l IH]; intros H; [reflexivity |].
  assert (IH' : length (filter f l) = length (filter g l))
    by (apply IH; intros y Hy; apply H; now right).
  rewrite !filter_cons, (H x) by (left).
  destruct (decide (g x)); cbn [length]; now rewrite IH'.
Qed.

Lemma listsKeys_Permutation keys keys' store :
  listsKeys keys store -> listsKeys keys' store -> keys ≡ₚ keys'.
Proof.
  intros [Hnd Hin] [Hnd' Hin']. apply NoDup_Permutation; [assumption .. |].
  intros k. now rewrite Hin, Hin'.
Qed.

Lemma summaryStep_counts {Num} (add : Num -> Q -> Num) store minTs maxTs groups key :
  let groups' := summaryStep Num add store minTs maxTs groups key in
  totalRequests (fst groups')
  = totalRequests (fst groups)
    + (if counted store Default minTs maxTs key then 1 else 0)
  /\ totalRequests (snd groups')
     = totalRequests (snd groups)
       + (if counted store Fallback minTs maxTs key then 1 else 0).
Proof.
  unfold summaryStep, counted.
  destruct (store !! key) as [data |]; cbn zeta; [| split; lia].
  destruct (beforeMin (s_timestamp data) minTs),
           (afterMax (s_timestamp data) maxTs),
           (s_processor data);
    repeat case_bool_decide; try congruence; cbn; split; lia.
Qed.

(** The loop of the summary route counts, for each processor, the listed keys
    whose settlement is that processor's and lies between the bounds. *)
Lemma summary_fold {Num} (add : Num -> Q -> Num) store minTs maxTs keys :
  forall groups,
    let groups' := fold_left (summaryStep Num add store minTs maxTs) keys groups in
    totalRequests (fst groups')
    = totalRequests (fst groups)
      + Z.of_nat (length (filter (counted store Default minTs maxTs) keys))
    /\ totalRequests (snd groups')
       = totalRequests (snd groups)
         + Z.of_nat (length (filter (counted store Fallback minTs maxTs) keys)).
Proof.
  induction keys as [| key keys IH]; intros groups; cbn [fold_left].
  - cbn. split; lia.
  - specialize (IH (summaryStep Num add store minTs maxTs groups key)).
    cbn zeta in IH. destruct IH as [IHd IHf]. cbn zeta.
    destruct (summaryStep_counts add store minTs maxTs groups key) as [Hd Hf].
    cbn zeta in Hd, Hf.
    rewrite IHd, IHf, Hd, Hf, !filter_cons.
    destruct (counted store Default minTs maxTs key),
             (counted store Fallback minTs maxTs key);
      repeat match goal with
             | |- context [decide (Is_true true)] =>
                 destruct (decide (Is_true true)) as [_ | H]; [| exfalso; apply H; exact I]
             | |- context [decide (Is_true false)] =>
                 destruct (decide (Is_true false)) as [[] | _]
             end;
      rewrite ?length_cons, ?Nat2Z.inj_succ; split; lia.
Qed.

(** When a key counts. *)
Lemma counted_spec store processor minTs maxTs key :
  counted store processor minTs maxTs key = true
  <-> exists data,
        store !! key = Some data
        /\ s_processor data = processor
        /\ withinBounds minTs maxTs (s_timestamp data).
Proof.
  unfold counted, withinBounds, beforeMin, afterMax.
  destruct (store !! key) as [data |].
  - rewrite !andb_true_iff, bool_decide_eq_true, !negb_true_iff.
    split.
    + intros [[Hp Hmin] Hmax]. exists data. split; [reflexivity |]. split; [exact Hp |].
      split; [destruct minTs | destruct maxTs]; auto; lia.
    + intros (d & [= <-] & Hp & Hmin & Hmax). repeat split; auto.
      * destruct minTs; auto; lia.
      * destruct maxTs; auto; lia.
  - split; [discriminate | intros (? & [=] & _)].
Qed.

Lemma filter_length_disjoint {A} (f g : A -> bool) (l : list A) :
  (forall x, f x = true -> g x = false) ->
  (length (filter f l) + length (filter g l) <= length l)%nat.
Proof.
  intros H. induction l as [| x l IH]; [reflexivity |].
  rewrite !filter_cons. specialize (H x).
  destruct (f x), (g x);
    repeat match goal with
           | |- context [decide (Is_true true)] =>
               destruct (decide (Is_true true)) as [_ | Hn]; [| exfalso; apply Hn; exact I]
           | |- context [decide (Is_true false)] =>
               destruct (decide (Is_true false)) as [[] | _]
           end; cbn [length]; try lia.
Qed.

Lemma listsKeys_length keys store : listsKeys keys store -> length keys = size store.
Proof.
  intros Hk.
  assert (Hm : listsKeys (map_to_list store).*1 store).
  { split; [apply NoDup_fst_map_to_list |].
    intros k. rewrite list_elem_of_fmap. split.
    - intros ([k' v] & -> & Hin). apply elem_of_map_to_list in Hin. eauto.
    - intros [v Hv]. exists (k, v). split; [reflexivity |].
      now apply elem_of_map_to_list. }
  rewrite (Permutation_length (listsKeys_Permutation _ _ _ Hk Hm)).
  now rewrite length_fmap, length_map_to_list.
Qed.

Lemma paymentsSummary_counts {Num} (zero : Num) add toFixed2 keys minTs maxTs r :
  up r = true ->
  exists reply,
    paymentsSummary Num zero add toFixed2 keys minTs maxTs r = Done reply
    /\ forall processor,
         requestsOf processor reply
         = Z.of_nat (length (filter (counted (hashes r) processor minTs maxTs) keys)).
Proof.
  intros Hup. unfold paymentsSummary. rewrite Hup. cbn [negb].
  destruct (summary_fold add (hashes r) minTs maxTs keys (emptyGroup Num zero, emptyGroup Num zero))
    as [Hd Hf].
  cbn zeta in Hd, Hf.
  destruct (fold_left _ keys _) as [d f]. cbn in Hd, Hf.
  eexists. split; [reflexivity |].
  intros [|]; cbn; assumption.
Qed.

(** X1.  GET /payments-summary, for any listing of the keys redis may give:
    the [totalRequests] of each processor is the number of stored settlements
    of that processor whose timestamp lies between [from] and [to], both
    included (an absent bound, or one that is no date, does not bound); the
    two counts do not depend on the order of the listing and together never
    exceed the number of stored settlements.  With redis down the handler
    rejects. *)
Theorem X1_summary_counts {Num} (zero : Num) (add : Num -> Q -> Num)
  (toFixed2 : Num -> Num) (keys : list string) (minTs maxTs : TimeBound) (r : Redis) :
  listsKeys keys (hashes r) ->
  (up r = true ->
   exists reply,
     paymentsSummary Num zero add toFixed2 keys minTs maxTs r = Done reply
     /\ (forall processor,
           requestsOf processor reply
           = Z.of_nat (length (filter (counted (hashes r) processor minTs maxTs) keys)))
     /\ (forall processor key,
           counted (hashes r) processor minTs maxTs key = true
           <-> exists data,
                 hashes r !! key = Some data
                 /\ s_processor data = processor
                 /\ withinBounds minTs maxTs (s_timestamp data))
     /\ requestsOf Default reply + requestsOf Fallback reply
        <= Z.of_nat (size (hashes r))
     /\ (forall keys',
           listsKeys keys' (hashes r) ->
           exists reply',
             paymentsSummary Num zero add toFixed2 keys' minTs maxTs r = Done reply'
             /\ forall processor,
                  requestsOf processor reply' = requestsOf processor reply))
  /\ (up r = false ->
      paymentsSummary Num zero add toFixed2 keys minTs maxTs r = Raised "redis").
Proof.
  intros Hk. split.
  - intros Hup.
    destruct (paymentsSummary_counts zero add toFixed2 keys minTs maxTs r Hup)
      as (reply & Heq & Hcount).
    exists reply. split; [exact Heq |]. split; [exact Hcount |].
    split; [intros; apply counted_spec |]. split.
    + rewrite !Hcount, <- (listsKeys_length keys (hashes r) Hk).
      pose proof (filter_length_disjoint
                    (counted (hashes r) Default minTs maxTs)
                    (counted (hashes r) Fallback minTs maxTs) keys) as Hd.
      assert (forall x, counted (hashes r) Default minTs maxTs x = true ->
                        counted (hashes r) Fallback minTs maxTs x = false) as Hex.
      { intros x. unfold counted. destruct (hashes r !! x) as [data |]; [| discriminate].
        destruct (s_processor data); repeat case_bool_decide; try congruence;
          cbn; intros; try discriminate; auto. }
      specialize (Hd Hex). lia.
    + intros keys' Hk'.
      destruct (paymentsSummary_counts zero add toFixed2 keys' minTs maxTs r Hup)
        as (reply' & Heq' & Hcount').
      exists reply'. split; [exact Heq' |].
      intros processor. rewrite Hcount, Hcount'.
      now rewrite (listsKeys_Permutation _ _ _ Hk' Hk).
  - intros Hdown. unfold paymentsSummary. now rewrite Hdown.
Qed.

(** An instance of X1: two settlements, a range that holds only the
    first. *)
Lemma X1_summary_counts_witness :
  exists reply,
    paymentsSummary Q 0%Q Qplus (fun x => x)
                    ["payment:b"; "payment:a"] (At 100000) (At 159999) twoSettlements
    = Done reply
    /\ requestsOf Default reply = 1
    /\ requestsOf Fallback reply = 0.
Proof.
  assert (Hk : listsKeys ["payment:b"; "payment:a"] (hashes twoSettlements)).
  { split.
    - repeat constructor; rewrite ?not_elem_of_cons; repeat split;
        try discriminate; apply not_elem_of_nil.
    - intros k. cbn [hashes twoSettlements].
      rewrite !elem_of_cons, elem_of_nil.
      destruct (decide (k = "payment:a")) as [-> | Ha];
        [rewrite lookup_insert_eq; split; eauto |].
      rewrite lookup_insert_ne by congruence.
      destruct (decide (k = "payment:b")) as [-> | Hb];
        [rewrite lookup_insert_eq; split; eauto |].
      rewrite lookup_insert_ne by congruence. rewrite lookup_empty.
      split; [intros [? | [? | []]]; congruence | intros [? [=]]]. }
  destruct (X1_summary_counts 0%Q Qplus (fun x => x) _ (At 100000) (At 159999)
              twoSettlements Hk) as [H _].
  destruct (H eq_refl) as (reply & Heq & Hcount & _).
  exists reply. split; [exact Heq |].
  rewrite !Hcount. split; vm_compute; reflexivity.
Defined.

Lemma listsKeys_insert keys keys' store key data :
  store !! key = None ->
  listsKeys keys store ->
  listsKeys keys' (<[key := data]> store) ->
  keys' ≡ₚ key :: keys.
Proof.
  intros Hnone [Hnd Hin] [Hnd' Hin'].
  apply NoDup_Permutation; [assumption | |].
  - apply NoDup_cons. split; [| assumption].
    rewrite Hin, Hnone. intros [? [=]].
  - intros k. rewrite Hin', elem_of_cons, Hin.
    destruct (decide (k = key)) as [-> | Hne].
    + rewrite lookup_insert_eq. split; eauto.
    + rewrite lookup_insert_ne by congruence. split; [auto | intros [? | ?]; congruence || auto].
Qed.

(** X2.  Registering and summarising.  A settlement registered under a
    correlation id that was not in the ledger adds exactly one to the
    [totalRequests] of its processor in every summary whose range holds the
    time of the registration, and nothing to the other processor or to a
    summary over another range; registering an id that is already there
    changes no summary. *)
Theorem X2_register_then_summary {Num} (zero : Num) (add : Num -> Q -> Num)
  (toFixed2 : Num -> Num) (processor : ProcessorType) (amount : Q)
  (cid : option string) (e : Env) (r : Redis)
  (keys keys' : list string) (minTs maxTs : TimeBound) :
  up r = true ->
  listsKeys keys (hashes r) ->
  listsKeys keys' (hashes (snd (registerPayment processor amount cid (e, r))).2) ->
  exists before after,
    paymentsSummary Num zero add toFixed2 keys minTs maxTs r = Done before
    /\ paymentsSummary Num zero add toFixed2 keys' minTs maxTs
         (snd (registerPayment processor amount cid (e, r))).2 = Done after
    /\ forall p,
         requestsOf p after
         = requestsOf p before
           + (if bool_decide (hashes r !! paymentKey cid = None)
                 && bool_decide (p = processor)
                 && negb (beforeMin (clock e) minTs)
                 && negb (afterMax (clock e) maxTs)
              then 1 else 0).
Proof.
  intros Hup Hk Hk'.
  destruct (registerPayment_spec processor amount cid e r) as (t & r' & Heq & Hup' & Ht).
  rewrite Heq in *. cbn [snd] in *. rewrite Hup in Hup'.
  destruct t as [[] | msg]; [| destruct Ht; congruence].
  destruct Ht as [_ Hh].
  destruct (paymentsSummary_counts zero add toFixed2 keys minTs maxTs r Hup)
    as (before & Hb & Hcb).
  destruct (paymentsSummary_counts zero add toFixed2 keys' minTs maxTs r' Hup')
    as (after & Ha & Hca).
  exists before, after. split; [exact Hb |]. split; [exact Ha |].
  intros p. rewrite Hcb, Hca.
  destruct (hashes r !! paymentKey cid) as [old |] eqn:Hold.
  - rewrite bool_decide_eq_false_2 by discriminate. cbn [andb].
    rewrite Hh in *.
    rewrite (listsKeys_Permutation _ _ _ Hk' Hk). lia.
  - rewrite bool_decide_eq_true_2 by reflexivity. cbn [andb].
    rewrite Hh in *.
    rewrite (listsKeys_insert _ _ _ _ _ Hold Hk Hk'), filter_cons.
    assert (Hsame : length (filter (counted (<[paymentKey cid :=
                        mkSettlement processor amount cid (clock e)]> (hashes r))
                        p minTs maxTs) keys)
                    = length (filter (counted (hashes r) p minTs maxTs) keys)).
    { apply filter_length_ext. intros k Hin. unfold counted.
      rewrite lookup_insert_ne; [reflexivity |].
      intros <-. destruct Hk as [_ Hin']. apply Hin' in Hin.
      rewrite Hold in Hin. destruct Hin as [? [=]]. }
    assert (Hc : counted (<[paymentKey cid :=
                     mkSettlement processor amount cid (clock e)]> (hashes r))
                   p minTs maxTs (paymentKey cid)
                 = bool_decide (p = processor) && negb (beforeMin (clock e) minTs)
                   && negb (afterMax (clock e) maxTs)).
    { unfold counted. rewrite lookup_insert_eq. cbn [s_processor s_timestamp].
      now rewrite (bool_decide_ext (processor = p) (p = processor))
        by (split; congruence). }
    rewrite Hc.
    destruct (bool_decide (p = processor) && negb (beforeMin (clock e) minTs)
              && negb (afterMax (clock e) maxTs));
      [destruct (decide (Is_true true)) as [_ | Hn]; [| exfalso; apply Hn; exact I]
      | destruct (decide (Is_true false)) as [[] | _]];
      rewrite ?length_cons, ?Nat2Z.inj_succ, Hsame; lia.
Qed.

(** An instance of X2: a third settlement, "c", on the fallback
    processor. *)
Lemma X2_register_then_summary_witness :
  let e := mkEnv 170000 [] [] [] [] [] [] in
  exists before after,
    paymentsSummary Q 0%Q Qplus (fun x => x) ["payment:b"; "payment:a"]
                    Unbounded Unbounded twoSettlements = Done before
    /\ paymentsSummary Q 0%Q Qplus (fun x => x) ["payment:c"; "payment:b"; "payment:a"]
         Unbounded Unbounded
         (snd (registerPayment Fallback 30 (Some "c") (e, twoSettlements))).2
       = Done after
    /\ requestsOf Fallback after = requestsOf Fallback before + 1
    /\ requestsOf Default after = requestsOf Default before + 0.
Proof.
  intros e.
  assert (Hk : listsKeys ["payment:b"; "payment:a"] (hashes twoSettlements)).
  { split.
    - repeat constructor; rewrite ?not_elem_of_cons; repeat split;
        try discriminate; apply not_elem_of_nil.
    - intros k. cbn [hashes twoSettlements].
      rewrite !elem_of_cons, elem_of_nil.
      destruct (decide (k = "payment:a")) as [-> | Ha];
        [rewrite lookup_insert_eq; split; eauto |].
      rewrite lookup_insert_ne by congruence.
      destruct (decide (k = "payment:b")) as [-> | Hb];
        [rewrite lookup_insert_eq; split; eauto |].
      rewrite lookup_insert_ne by congruence. rewrite lookup_empty.
      split; [intros [? | [? | []]]; congruence | intros [? [=]]]. }
  assert (Hk' : listsKeys ["payment:c"; "payment:b"; "payment:a"]
                  (hashes (snd (registerPayment Fallback 30 (Some "c")
                                  (e, twoSettlements))).2)).
  { split.
    - repeat constructor; rewrite ?not_elem_of_cons; repeat split;
        try discriminate; apply not_elem_of_nil.
    - intros k.
      change (hashes (snd (registerPayment Fallback 30 (Some "c") (e, twoSettlements))).2)
        with (<["payment:c" := mkSettlement Fallback 30 (Some "c") 170000]>
                (hashes twoSettlements)).
      cbn [hashes twoSettlements].
      rewrite !elem_of_cons, elem_of_nil.
      destruct (decide (k = "payment:c")) as [-> | Hc];
        [rewrite lookup_insert_eq; split; eauto |].
      rewrite lookup_insert_ne by congruence.
      destruct (decide (k = "payment:a")) as [-> | Ha];
        [rewrite lookup_insert_eq; split; eauto |].
      rewrite lookup_insert_ne by congruence.
      destruct (decide (k = "payment:b")) as [-> | Hb];
        [rewrite lookup_insert_eq; split; eauto |].
      rewrite lookup_insert_ne by congruence. rewrite lookup_empty.
      split; [intros [? | [? | [? | []]]]; congruence | intros [? [=]]]. }
  destruct (X2_register_then_summary 0%Q Qplus (fun x => x) Fallback 30 (Some "c") e
              twoSettlements _ _ Unbounded Unbounded eq_refl Hk Hk')
    as (before & after & Hb & Ha & Hinc).
  exists before, after. split; [exact Hb |]. split; [exact Ha |].
  split; [apply (Hinc Fallback) | apply (Hinc Default)].
Defined.

(** ** The queue worker, whatever the processors answer *)

(** The loop over the processors: one call per processor tried, until one
    accepts; the payment is counted as processed exactly when one did; the
    ledger can only change at the key an absent correlation id gives. *)
Lemma tryProcessors_general ps pay :
  forall e q r,
    exists (b : bool) e' r' seg,
      tryProcessors ps pay (e, q, r)
      = (b, (e', (if b then countProcessed q else q), r'))
      /\ log e' = seg ++ log e
      /\ Forall (fun ev => isFetch ev = true) seg
      /\ (length seg <= length ps)%nat
      /\ (ps <> [] -> (1 <= length seg)%nat)
      /\ (b = false -> r' = r /\ length seg = length ps)
      /\ up r' = up r
      /\ (forall k, k <> "payment:undefined" -> hashes r' !! k = hashes r !! k).
Proof.
  induction ps as [| p ps IH]; intros e q r.
  - exists false, e, r, []. cbn. repeat split; auto; try lia. congruence.
  - cbn [tryProcessors]. unfold bind, workerEnv.
    destruct (makeQueueRequest_spec p (payment pay) e) as (res & e1 & -> & _ & ->).
    pose proof (fetch_log QUEUE_REQUEST_TIMEOUT p (payment pay) e) as Hlog.
    set (e1 := snd (fetch QUEUE_REQUEST_TIMEOUT p (payment pay) e)) in *.
    destruct (success res).
    + unfold updateStats, modify, workerLedger.
      destruct (registerPayment_spec p (amount (payment pay)) None e1 r)
        as (t & r' & -> & Hup & Ht).
      unfold ret.
      exists true, e1, r',
        [EvFetch p (payment pay) (fetch QUEUE_REQUEST_TIMEOUT p (payment pay) e).1].
      split; [reflexivity |]. split; [exact Hlog |].
      split; [repeat constructor |]. split; [cbn; lia |]. split; [cbn; lia |].
      split; [discriminate |]. split; [exact Hup |].
      intros k Hk. destruct t as [[] | msg].
      * destruct Ht as [_ ->]. change (paymentKey None) with "payment:undefined".
        destruct (hashes r !! "payment:undefined"); [reflexivity |].
        now rewrite lookup_insert_ne.
      * now destruct Ht as [_ ->].
    + destruct (IH e1 q r) as (b & e' & r' & seg & -> & Hl & Hf & Hlen & Hne & Hb & Hup & Hk).
      exists b, e', r',
        (seg ++ [EvFetch p (payment pay) (fetch QUEUE_REQUEST_TIMEOUT p (payment pay) e).1]).
      split; [reflexivity |].
      split; [rewrite Hl, Hlog, <- app_assoc; reflexivity |].
      split; [apply Forall_app; split; [exact Hf | repeat constructor] |].
      rewrite length_app. cbn [length].
      split; [lia |]. split; [lia |].
      split; [intros Hfalse; destruct (Hb Hfalse); split; [assumption | lia] |].
      split; assumption.
Qed.

Lemma probeBoth_log e :
  exists h1 h2,
    log (snd (probeBoth e)) = EvProbe Fallback h2 :: EvProbe Default h1 :: log e.
Proof.
  unfold probeBoth, nextProbe.
  destruct e as [c r1 r2 pr1 pr2 rn lg]; cbn.
  destruct pr1 as [| a1 l1]; cbn; destruct pr2 as [| a2 l2]; cbn;
    repeat match goal with
           | |- context [raceProbe ?a] => destruct (raceProbe a)
           end;
    eexists _, _; reflexivity.
Qed.

Lemma processorsToTry_length h1 h2 :
  (1 <= length (processorsToTry h1 h2) <= 2)%nat.
Proof. destruct h1, h2; cbn; lia. Qed.

(** [processQueuedPayment] in general.  It only touches the counters of the
    queue module; it says "remove" exactly when it counted the payment as
    processed or as failed; the payment object keeps its id, its payment and
    its [maxRetries]; an attempt is one round of probes followed by one or
    two downstream calls. *)
Lemma processQueuedPayment_general pay e q r :
  exists (rm : bool) pay' e' stats' r' seg,
    processQueuedPayment pay probeBoth (e, q, r)
    = ((rm, pay'), (e', setQueueStats stats' q, r'))
    /\ log e' = seg ++ log e
    /\ id pay' = id pay /\ payment pay' = payment pay
    /\ maxRetries pay' = maxRetries pay
    /\ queued stats' = queued (queueStats q)
    /\ processed stats' + failed stats'
       = processed (queueStats q) + failed (queueStats q) + (if rm then 1 else 0)
    /\ up r' = up r
    /\ (forall k, k <> "payment:undefined" -> hashes r' !! k = hashes r !! k)
    /\ (if clock e - lastAttempt pay <? delay pay
        then seg = [] /\ rm = false /\ pay' = pay /\ e' = e
             /\ stats' = queueStats q /\ r' = r
        else attempts pay' = attempts pay + 1
             /\ lastAttempt pay' = clock e
             /\ (1 <= fetchCount seg <= 2)%nat
             /\ exists h1 h2 calls,
                  seg = calls ++ [EvProbe Fallback h2; EvProbe Default h1]
                  /\ Forall (fun ev => isFetch ev = true) calls).
Proof.
  unfold processQueuedPayment, bind, gets.
  destruct (clock e - lastAttempt pay <? delay pay).
  - unfold ret. exists false, pay, e, (queueStats q), r, [].
    split; [destruct q; reflexivity |]. repeat split; auto; lia.
  - unfold workerEnv.
    destruct (probeBoth_log e) as (h1' & h2' & Hpl).
    destruct (probeBoth e) as [[h1 h2] e1]. cbn [snd] in Hpl.
    destruct (tryProcessors_general (processorsToTry h1 h2) (setAttempt (clock e) pay) e1 q r)
      as (b & e' & r' & calls & -> & Hl & Hf & Hlen & Hne & Hb & Hup & Hk).
    pose proof (processorsToTry_length h1 h2) as Hpt.
    assert (Hcount : (1 <= fetchCount (calls ++ [EvProbe Fallback h2'; EvProbe Default h1']) <= 2)%nat).
    { rewrite fetchCount_app. change (fetchCount [_; _]) with 0%nat.
      assert (fetchCount calls = length calls) as ->.
      { unfold fetchCount. clear - Hf. induction Hf as [| ev l Hev _ IH]; [reflexivity |].
        rewrite filter_cons. rewrite Hev.
        destruct (decide (Is_true true)) as [_ | Hn]; [| exfalso; apply Hn; exact I].
        cbn [length]. now rewrite IH. }
      assert (processorsToTry h1 h2 <> []) by (destruct h1, h2; discriminate).
      specialize (Hne H). lia. }
    assert (Hseg : log e' = (calls ++ [EvProbe Fallback h2'; EvProbe Default h1']) ++ log e)
      by (rewrite Hl, Hpl, <- app_assoc; reflexivity).
    set (seg := calls ++ [EvProbe Fallback h2'; EvProbe Default h1']) in *.
    assert (Hshape : exists h1 h2 calls0,
              seg = calls0 ++ [EvProbe Fallback h2; EvProbe Default h1]
              /\ Forall (fun ev => isFetch ev = true) calls0)
      by (exists h1', h2', calls; auto).
    destruct b.
    + unfold ret.
      exists true, (setAttempt (clock e) pay), e', (incProcessed (queueStats q)), r', seg.
      split; [reflexivity |]. split; [exact Hseg |].
      cbn. repeat split; auto; lia.
    + destruct (Hb eq_refl) as [-> _].
      cbn [maxRetries attempts setAttempt].
      destruct (maxRetries pay <=? attempts pay + 1);
        unfold updateStats, modify, ret.
      * exists true, (setAttempt (clock e) pay), e', (incFailed (queueStats q)), r, seg.
        split; [reflexivity |]. split; [exact Hseg |].
        cbn. repeat split; auto; lia.
      * eexists false, _, e', (incRetries (queueStats q)), r, seg.
        split; [reflexivity |]. split; [exact Hseg |].
        cbn. repeat split; auto; lia.
Qed.

(** The loop of [processQueue] over its batch: the items it keeps are put,
    one by one, in front of the rest, so they come back in reverse order;
    [processedInBatch] counts the others, each of which was counted as
    processed or as failed. *)
Lemma processBatch_general batch :
  forall remaining n e q r,
    exists kept n' e' q' r',
      processBatch probeBoth batch remaining n (e, q, r)
      = ((kept ++ remaining, n'), (e', q', r'))
      /\ paymentQueue q' = paymentQueue q
      /\ queueProcessorRunning q' = queueProcessorRunning q
      /\ processQueueTimer q' = processQueueTimer q
      /\ queued (queueStats q') = queued (queueStats q)
      /\ processed (queueStats q') + failed (queueStats q')
         = processed (queueStats q) + failed (queueStats q) + (n' - n)
      /\ Z.of_nat (length kept) + (n' - n) = Z.of_nat (length batch)
      /\ 0 <= n' - n
      /\ ids kept `sublist_of` rev (ids batch)
      /\ up r' = up r
      /\ (forall k, k <> "payment:undefined" -> hashes r' !! k = hashes r !! k).
Proof.
  induction batch as [| pay rest IH]; intros remaining n e q r.
  - exists [], n, e, q, r. cbn. repeat split; auto; try lia.
  - cbn [processBatch]. unfold bind.
    destruct (processQueuedPayment_general pay e q r)
      as (rm & pay' & e1 & stats1 & r1 & seg & -> & _ & Hid & _ & _ & Hq & Hpf & Hup & Hk & _).
    destruct rm.
    + unfold setLastQueueActivity, modify.
      destruct (IH remaining (n + 1) e1
                  (mkQueueState (paymentQueue (setQueueStats stats1 q))
                     (queueProcessorRunning (setQueueStats stats1 q)) (clock e1)
                     (queueStats (setQueueStats stats1 q))
                     (processQueueTimer (setQueueStats stats1 q))) r1)
        as (kept & n' & e' & q' & r' & -> & H1 & H2 & H3 & H4 & H5 & H6 & H7 & H8 & H9 & H10).
      cbn in H1, H2, H3, H4, H5.
      exists kept, n', e', q', r'. split; [reflexivity |].
      rewrite length_cons, Nat2Z.inj_succ.
      split; [congruence |]. split; [congruence |]. split; [congruence |].
      split; [congruence |]. split; [lia |]. split; [lia |]. split; [lia |].
      split; [cbn [ids map rev]; now apply sublist_inserts_r |].
      split; [congruence |].
      intros k Hne. rewrite H10, Hk by assumption. reflexivity.
    + destruct (IH (pay' :: remaining) n e1 (setQueueStats stats1 q) r1)
        as (kept & n' & e' & q' & r' & -> & H1 & H2 & H3 & H4 & H5 & H6 & H7 & H8 & H9 & H10).
      cbn in H1, H2, H3, H4, H5.
      exists (kept ++ [pay']), n', e', q', r'.
      split; [rewrite <- app_assoc; reflexivity |].
      rewrite length_app, !length_cons, !Nat2Z.inj_add, Nat2Z.inj_succ.
      cbn [length Z.of_nat].
      split; [congruence |]. split; [congruence |]. split; [congruence |].
      split; [congruence |]. split; [lia |]. split; [lia |]. split; [lia |].
      split.
      { unfold ids in *. rewrite map_app. cbn [map rev]. rewrite Hid.
        apply sublist_app; [assumption | reflexivity]. }
      split; [congruence |].
      intros k Hne. rewrite H10, Hk by assumption. reflexivity.
Qed.

(** One cycle of [processQueue] with items in the queue. *)
Lemma processQueue_general e q r :
  paymentQueue q <> [] ->
  exists kept n e' q' r',
    processQueue (e, q, r) = (tt, (e', q', r'))
    /\ paymentQueue q' = kept ++ drop QUEUE_BATCH_SIZE (paymentQueue q)
    /\ ids kept `sublist_of` rev (ids (take QUEUE_BATCH_SIZE (paymentQueue q)))
    /\ Z.of_nat (length kept) + n
       = Z.of_nat (length (take QUEUE_BATCH_SIZE (paymentQueue q)))
    /\ 0 <= n
    /\ queueProcessorRunning q' = queueProcessorRunning q
    /\ processQueueTimer q'
       = Some (clock e' + (if 0 <? n then 1500 else 3000))
    /\ queued (queueStats q') = queued (queueStats q)
    /\ processed (queueStats q') + failed (queueStats q')
       = processed (queueStats q) + failed (queueStats q) + n
    /\ up r' = up r
    /\ (forall k, k <> "payment:undefined" -> hashes r' !! k = hashes r !! k).
Proof.
  intros Hne. unfold processQueue, bind, gets.
  destruct (paymentQueue q) as [| item items] eqn:Hq; [congruence |].
  cbn [length Nat.eqb].
  destruct (processBatch_general (take QUEUE_BATCH_SIZE (item :: items))
              (drop QUEUE_BATCH_SIZE (item :: items)) 0 e q r)
    as (kept & n & e' & q' & r' & -> & H1 & H2 & H3 & H4 & H5 & H6 & H7 & H8 & H9 & H10).
  unfold setQueue, modify, ret. rewrite Z.sub_0_r in *.
  eexists kept, n, e', _, r'. split; [reflexivity |].
  cbn [paymentQueue queueProcessorRunning processQueueTimer queueStats].
  split; [reflexivity |]. split; [exact H8 |]. split; [exact H6 |].
  split; [exact H7 |]. split; [reflexivity |].
  split; [destruct (0 <? n); reflexivity |].
  repeat split; assumption.
Qed.

(** One cycle of [processQueue] on an empty queue: it stops the processor
    when the queue has been idle for more than [QUEUE_IDLE_THRESHOLD],
    otherwise it looks again after twice the interval; nothing else
    changes. *)
Lemma processQueue_empty e q r :
  paymentQueue q = [] ->
  processQueue (e, q, r)
  = (tt, (e,
          mkQueueState [] (if QUEUE_IDLE_THRESHOLD <? clock e - lastQueueActivity q
                           then false else queueProcessorRunning q)
                       (lastQueueActivity q) (queueStats q)
                       (if QUEUE_IDLE_THRESHOLD <? clock e - lastQueueActivity q
                        then None else Some (clock e + 6000)),
          r)).
Proof.
  intros Hq. unfold processQueue, bind, gets. rewrite Hq. cbn [length Nat.eqb].
  destruct (QUEUE_IDLE_THRESHOLD <? clock e - lastQueueActivity q);
    unfold setQueue, modify; reflexivity.
Qed.

Lemma queuePayment_stats body e q :
  queueSize q < QUEUE_MAX_SIZE ->
  let q' := (snd (queuePayment body (e, q))).2 in
  queueStats q'
  = mkQueueStats (queued (queueStats q) + 1) (processed (queueStats q))
                 (failed (queueStats q)) (retries (queueStats q))
  /\ length (paymentQueue q') = S (length (paymentQueue q))
  /\ queueProcessorRunning q' = true
  /\ processQueueTimer q'
     = (if queueProcessorRunning q then processQueueTimer q
        else Some (clock e + QUEUE_PROCESS_INTERVAL))
  /\ lastQueueActivity q' = clock e.
Proof.
  unfold queuePayment, queueSize, bind, gets, modify, ret. cbn [snd]. intros H.
  destruct (Z.leb_spec QUEUE_MAX_SIZE (Z.of_nat (length (paymentQueue q))));
    [lia |].
  unfold onFst. destruct (nextRandom e) as [rnd e1] eqn:Hr.
  cbn. unfold startQueueProcessor. cbn.
  destruct (queueProcessorRunning q); cbn;
    rewrite ?length_app; cbn; repeat split; lia.
Qed.

Lemma forceProcessQueue_spec now q :
  paymentQueue (forceProcessQueue now q) = paymentQueue q
  /\ queueStats (forceProcessQueue now q) = queueStats q
  /\ queueProcessorRunning (forceProcessQueue now q) = true
  /\ processQueueTimer (forceProcessQueue now q)
     = (if queueProcessorRunning q then processQueueTimer q
        else Some (now + QUEUE_PROCESS_INTERVAL)).
Proof.
  unfold forceProcessQueue, startQueueProcessor.
  destruct (queueProcessorRunning q) eqn:Hrun; cbn; rewrite ?Hrun; cbn; auto.
Qed.

(** X3.  Accounting of the queue.  In every state the queue module reaches
    by enqueues, forced starts and cycles that each run to their end before
    the next starts, every payment ever enqueued is either still in the
    queue or was counted exactly once, as processed or as failed:
    [queued = processed + failed + paymentQueue.length]; and the queue never
    holds more than [QUEUE_MAX_SIZE] items. *)
Theorem X3_queue_accounting (q : QueueState) :
  QueueReachable q ->
  queued (queueStats q)
  = processed (queueStats q) + failed (queueStats q)
    + Z.of_nat (length (paymentQueue q))
  /\ Z.of_nat (length (paymentQueue q)) <= QUEUE_MAX_SIZE.
Proof.
  induction 1 as [now | body e q _ [IHc IHb] | now q _ [IHc IHb] | e r q _ [IHc IHb] Hrun].
  - cbn. unfold QUEUE_MAX_SIZE. lia.
  - destruct (Z.le_gt_cases QUEUE_MAX_SIZE (queueSize q)) as [Hfull | Hfree].
    + rewrite (queuePayment_full body e q Hfull). cbn. auto.
    + destruct (queuePayment_stats body e q ltac:(lia)) as (Hs & Hl & _).
      cbn zeta in Hs, Hl. rewrite Hs, Hl, Nat2Z.inj_succ. cbn.
      unfold queueSize in Hfree. lia.
  - destruct (forceProcessQueue_spec now q) as (-> & -> & _). auto.
  - destruct (paymentQueue q) as [| item items] eqn:Hq.
    + rewrite (processQueue_empty e q r Hq). cbn. cbn in IHc. auto.
    + destruct (processQueue_general e q r) as
        (kept & n & e' & q' & r' & -> & Hq' & _ & Hlen & Hn & _ & _ & Hqd & Hpf & _);
        [congruence |].
      cbn [snd fst]. rewrite Hq', Hqd, length_app.
      rewrite Hq in *.
      pose proof (f_equal (@length _) (take_drop QUEUE_BATCH_SIZE (item :: items))) as Htd.
      rewrite length_app in Htd.
      split; lia.
Qed.

(** An instance of X3: the queue after one enqueue. *)
Lemma X3_queue_accounting_witness :
  queued (queueStats afterOneEnqueue)
  = processed (queueStats afterOneEnqueue) + failed (queueStats afterOneEnqueue)
    + Z.of_nat (length (paymentQueue afterOneEnqueue))
  /\ Z.of_nat (length (paymentQueue afterOneEnqueue)) <= QUEUE_MAX_SIZE.
Proof.
  apply (X3_queue_accounting afterOneEnqueue).
  apply queue_enqueue, queue_loaded.
Defined.

(** X4.  Life cycle of the processor.  In every state the queue module
    reaches by enqueues, forced starts and cycles, the processor is flagged
    as running exactly when a [processQueue] timer is pending: a running
    processor always has its next cycle scheduled, and a stopped one has
    none, so the next enqueue starts it. *)
Theorem X4_running_iff_scheduled (q : QueueState) :
  QueueReachable q ->
  queueProcessorRunning q = true <-> is_Some (processQueueTimer q).
Proof.
  induction 1 as [now | body e q _ IH | now q _ IH | e r q _ IH Hrun].
  - cbn. split; [discriminate | intros [? [=]]].
  - destruct (Z.le_gt_cases QUEUE_MAX_SIZE (queueSize q)) as [Hfull | Hfree].
    + rewrite (queuePayment_full body e q Hfull). exact IH.
    + destruct (queuePayment_stats body e q ltac:(lia)) as (_ & _ & Hr & Ht & _).
      cbn zeta in Hr, Ht. rewrite Hr, Ht.
      destruct (queueProcessorRunning q); [| split; eauto].
      split; [intros _; now apply IH | reflexivity].
  - destruct (forceProcessQueue_spec now q) as (_ & _ & -> & ->).
    destruct (queueProcessorRunning q); [| split; eauto].
    split; [intros _; now apply IH | reflexivity].
  - destruct (paymentQueue q) as [| item items] eqn:Hq.
    + rewrite (processQueue_empty e q r Hq). cbn. rewrite Hrun.
      destruct (QUEUE_IDLE_THRESHOLD <? clock e - lastQueueActivity q).
      * split; [discriminate | intros [? [=]]].
      * split; eauto.
    + destruct (processQueue_general e q r) as
        (kept & n & e' & q' & r' & -> & _ & _ & _ & _ & Hr & Ht & _);
        [congruence |].
      cbn [snd fst]. rewrite Hr, Ht, Hrun. split; eauto.
Qed.

(** An instance of X4: the queue after one enqueue. *)
Lemma X4_running_iff_scheduled_witness :
  queueProcessorRunning afterOneEnqueue = true
  <-> is_Some (processQueueTimer afterOneEnqueue).
Proof.
  apply (X4_running_iff_scheduled afterOneEnqueue).
  apply queue_enqueue, queue_loaded.
Defined.

(** X5.  Idle shutdown and restart.  A cycle that finds the queue empty
    touches neither the outside nor the ledger nor the counters.  When the
    last activity is more than [QUEUE_IDLE_THRESHOLD] (30 s) old it stops
    the processor and schedules nothing; the next payment enqueued then
    starts it again, with the first cycle [QUEUE_PROCESS_INTERVAL] (3 s)
    after the enqueue.  Otherwise the processor stays as it is and looks
    again after twice the interval. *)
Theorem X5_idle_shutdown_and_restart (e : Env) (q : QueueState) (r : Redis) :
  paymentQueue q = [] ->
  let s' := snd (processQueue (e, q, r)) in
  workerEnvOf s' = e /\ workerLedgerOf s' = r
  /\ paymentQueue (workerQueue s') = []
  /\ queueStats (workerQueue s') = queueStats q
  /\ (QUEUE_IDLE_THRESHOLD < clock e - lastQueueActivity q ->
      queueProcessorRunning (workerQueue s') = false
      /\ processQueueTimer (workerQueue s') = None
      /\ forall body e2,
           let q2 := (snd (queuePayment body (e2, workerQueue s'))).2 in
           queueProcessorRunning q2 = true
           /\ processQueueTimer q2 = Some (clock e2 + QUEUE_PROCESS_INTERVAL)
           /\ length (paymentQueue q2) = 1%nat)
  /\ (clock e - lastQueueActivity q <= QUEUE_IDLE_THRESHOLD ->
      queueProcessorRunning (workerQueue s') = queueProcessorRunning q
      /\ processQueueTimer (workerQueue s')
         = Some (clock e + QUEUE_PROCESS_INTERVAL * 2)).
Proof.
  intros Hq. rewrite (processQueue_empty e q r Hq). cbn [snd workerEnvOf workerLedgerOf workerQueue].
  cbn [paymentQueue queueStats queueProcessorRunning processQueueTimer].
  split; [reflexivity |]. split; [reflexivity |]. split; [reflexivity |].
  split; [reflexivity |].
  destruct (Z.ltb_spec QUEUE_IDLE_THRESHOLD (clock e - lastQueueActivity q)) as [Hidle | Hidle].
  - split; [| lia]. intros _. split; [reflexivity |]. split; [reflexivity |].
    intros body e2.
    set (q1 := mkQueueState [] false (lastQueueActivity q) (queueStats q) None).
    destruct (queuePayment_stats body e2 q1) as (_ & Hl & Hr & Ht & _).
    { unfold queueSize, QUEUE_MAX_SIZE. cbn. lia. }
    cbn zeta in *. rewrite Hr, Ht, Hl. cbn. auto.
  - split; [lia |]. intros _. split; reflexivity.
Qed.

(** An instance of X5: the queue has been idle for 60 s. *)
Lemma X5_idle_shutdown_and_restart_witness :
  queueProcessorRunning (workerQueue (snd (processQueue (idleWorker 110000)))) = false
  /\ processQueueTimer (workerQueue (snd (processQueue (idleWorker 110000)))) = None.
Proof.
  pose proof (X5_idle_shutdown_and_restart
                (mkEnv 110000 [] [] [] [] ["k3x9"] [])
                (mkQueueState [] true 50000 (mkQueueStats 1 1 0 0) (Some 110000))
                (mkRedis true ∅) eq_refl) as H.
  cbn zeta in H. destruct H as (_ & _ & _ & _ & H & _).
  destruct H as (H1 & H2 & _); [vm_compute; reflexivity |].
  split; [exact H1 | exact H2].
Defined.

(** X6.  What one cycle does to a non-empty queue.  Only the first
    [QUEUE_BATCH_SIZE] (10) items are looked at: the items behind them stay
    at the back, in their order.  The items of the batch that are kept come
    back in front of them in reverse order (each is [unshift]ed).  Every
    item of the batch is either kept or removed, every removed one is
    counted once, as processed or as failed, and the next cycle is scheduled
    1.5 s after the end of this one when something was removed, 3 s after it
    when nothing was. *)
Theorem X6_cycle_on_a_batch (e : Env) (q : QueueState) (r : Redis) :
  paymentQueue q <> [] ->
  let s' := snd (processQueue (e, q, r)) in
  exists kept removed,
    paymentQueue (workerQueue s') = kept ++ drop QUEUE_BATCH_SIZE (paymentQueue q)
    /\ ids kept `sublist_of` rev (ids (take QUEUE_BATCH_SIZE (paymentQueue q)))
    /\ Z.of_nat (length kept) + removed
       = Z.of_nat (length (take QUEUE_BATCH_SIZE (paymentQueue q)))
    /\ 0 <= removed <= Z.of_nat QUEUE_BATCH_SIZE
    /\ queued (queueStats (workerQueue s')) = queued (queueStats q)
    /\ processed (queueStats (workerQueue s')) + failed (queueStats (workerQueue s'))
       = processed (queueStats q) + failed (queueStats q) + removed
    /\ queueProcessorRunning (workerQueue s') = queueProcessorRunning q
    /\ processQueueTimer (workerQueue s')
       = Some (clock (workerEnvOf s')
               + (if 0 <? removed then QUEUE_PROCESS_INTERVAL / 2
                  else QUEUE_PROCESS_INTERVAL)).
Proof.
  intros Hne.
  destruct (processQueue_general e q r Hne)
    as (kept & n & e' & q' & r' & -> & H1 & H2 & H3 & H4 & H5 & H6 & H7 & H8 & _).
  cbn [snd workerQueue workerEnvOf]. exists kept, n.
  split; [assumption |]. split; [assumption |]. split; [assumption |].
  split.
  { rewrite length_take in H3. lia. }
  repeat (split; [assumption |]).
  rewrite H6. destruct (0 <? n); reflexivity.
Qed.

(** An instance of X6: one payment waiting and a processor that accepts
    it. *)
Lemma X6_cycle_on_a_batch_witness :
  exists kept removed,
    paymentQueue (workerQueue (snd (processQueue (oneQueued true))))
    = kept ++ drop QUEUE_BATCH_SIZE [waiting]
    /\ Z.of_nat (length kept) + removed = 1.
Proof.
  destruct (X6_cycle_on_a_batch
              (mkEnv 100000 [Reply 10 200 (Some accepted)] []
                     [ProbeStatus 5 200] [ProbeStatus 7 200] [] [])
              (mkQueueState [waiting] true 90000 (mkQueueStats 1 0 0 0) (Some 100000))
              (mkRedis true ∅))
    as (kept & removed & H1 & _ & H3 & _).
  - discriminate.
  - exists kept, removed. split; [exact H1 | exact H3].
Defined.

Lemma processBatch_none_due hc batch :
  forall remaining n e q r,
    noneDue (clock e) batch ->
    processBatch hc batch remaining n (e, q, r)
    = ((rev batch ++ remaining, n), (e, q, r)).
Proof.
  induction batch as [| pay rest IH]; intros remaining n e q r Hnd.
  - reflexivity.
  - apply Forall_cons in Hnd as [Hpay Hrest].
    cbn [processBatch]. unfold bind.
    rewrite (processQueuedPayment_not_due pay hc e q r Hpay).
    rewrite (IH (pay :: remaining) n e q r Hrest).
    cbn [rev]. rewrite <- app_assoc. reflexivity.
Qed.

(** X7.  A cycle in which no item of the batch is due.  No probe and no
    downstream call is made, no counter and no item changes, the ledger is
    not touched and the next cycle comes [QUEUE_PROCESS_INTERVAL] later; but
    the queue is not left as it was: the batch comes back in reverse order
    in front of the rest. *)
Theorem X7_cycle_with_nothing_due (e : Env) (q : QueueState) (r : Redis) :
  paymentQueue q <> [] ->
  noneDue (clock e) (take QUEUE_BATCH_SIZE (paymentQueue q)) ->
  processQueue (e, q, r)
  = (tt, (e,
          mkQueueState (rev (take QUEUE_BATCH_SIZE (paymentQueue q))
                        ++ drop QUEUE_BATCH_SIZE (paymentQueue q))
                       (queueProcessorRunning q) (lastQueueActivity q)
                       (queueStats q)
                       (Some (clock e + QUEUE_PROCESS_INTERVAL)),
          r)).
Proof.
  intros Hne Hnd. unfold processQueue, bind, gets.
  destruct (paymentQueue q) as [| item items] eqn:Hq; [congruence |].
  cbn [length Nat.eqb].
  rewrite (processBatch_none_due probeBoth _ _ 0 e q r Hnd).
  unfold setQueue, modify. reflexivity.
Qed.

(** An instance of X7: three payments that are not due come back as
    3, 2, 1. *)
Lemma X7_cycle_with_nothing_due_witness :
  ids (paymentQueue (workerQueue (snd (processQueue threeWaiting))))
  = ["payment_3"; "payment_2"; "payment_1"].
Proof.
  unfold threeWaiting.
  rewrite X7_cycle_with_nothing_due.
  - reflexivity.
  - discriminate.
  - cbn. repeat constructor.
Defined.

(** One attempt on a due payment, whatever the processors answer. *)
Lemma processQueuedPayment_attempt pay e q r :
  delay pay <= clock e - lastAttempt pay ->
  exists (rm : bool) pay' e' q' r' calls h1 h2,
    processQueuedPayment pay probeBoth (e, q, r) = ((rm, pay'), (e', q', r'))
    /\ log e' = calls ++ [EvProbe Fallback h2; EvProbe Default h1] ++ log e
    /\ Forall (fun ev => isFetch ev = true) calls
    /\ (1 <= length calls <= 2)%nat
    /\ attempts pay' = attempts pay + 1
    /\ lastAttempt pay' = clock e
    /\ id pay' = id pay /\ payment pay' = payment pay
    /\ maxRetries pay' = maxRetries pay
    /\ paymentQueue q' = paymentQueue q
    /\ ((rm = true /\ queueStats q' = incProcessed (queueStats q)
         /\ delay pay' = delay pay)
        \/ (rm = true /\ queueStats q' = incFailed (queueStats q)
            /\ maxRetries pay <= attempts pay + 1
            /\ delay pay' = delay pay /\ r' = r)
        \/ (rm = false /\ queueStats q' = incRetries (queueStats q)
            /\ attempts pay + 1 < maxRetries pay
            /\ delay pay' = Z.min (delay pay * QUEUE_BACKOFF_MULTIPLIER) QUEUE_MAX_DELAY
            /\ r' = r)).
Proof.
  intros Hdue. unfold processQueuedPayment, bind, gets.
  destruct (Z.ltb_spec (clock e - lastAttempt pay) (delay pay)); [lia |].
  unfold workerEnv.
  destruct (probeBoth_log e) as (h1' & h2' & Hpl).
  destruct (probeBoth e) as [[h1 h2] e1]. cbn [snd] in Hpl.
  destruct (tryProcessors_general (processorsToTry h1 h2) (setAttempt (clock e) pay) e1 q r)
    as (b & e' & r' & calls & -> & Hl & Hf & Hlen & Hne & Hb & _).
  pose proof (processorsToTry_length h1 h2) as Hpt.
  assert (Hcalls : (1 <= length calls <= 2)%nat).
  { assert (processorsToTry h1 h2 <> []) as Hn by (destruct h1, h2; discriminate).
    specialize (Hne Hn). lia. }
  assert (Hseg : log e' = calls ++ [EvProbe Fallback h2'; EvProbe Default h1'] ++ log e)
    by (rewrite Hl, Hpl; reflexivity).
  destruct b.
  - unfold ret.
    exists true, (setAttempt (clock e) pay), e', (countProcessed q), r', calls, h1', h2'.
    split; [reflexivity |]. repeat (split; [first [assumption | reflexivity | lia] |]).
    left. repeat split.
  - destruct (Hb eq_refl) as [-> _].
    cbn [maxRetries attempts setAttempt].
    destruct (Z.leb_spec (maxRetries pay) (attempts pay + 1));
      unfold updateStats, modify, ret.
    + eexists true, (setAttempt (clock e) pay), e', _, r, calls, h1', h2'.
      split; [reflexivity |]. repeat (split; [first [assumption | reflexivity | lia] |]).
      right; left. repeat split. assumption.
    + eexists false, _, e', _, r, calls, h1', h2'.
      split; [reflexivity |]. repeat (split; [first [assumption | reflexivity | lia] |]).
      right; right. repeat split. assumption.
Qed.








(** ** The request executor, whatever the processor answers *)

Lemma untouchedBy_refl p x : untouchedBy p x x.
Proof. repeat split. Qed.

Lemma untouchedBy_trans p x y z :
  untouchedBy p x y -> untouchedBy p y z -> untouchedBy p x z.
Proof.
  unfold untouchedBy. intros (H1 & H2 & H3 & H4 & H5 & H6) (K1 & K2 & K3 & K4 & K5 & K6).
  repeat split; congruence.
Qed.

(** One pass through the loop of [makeRequest]: what it logs is about [p] and
    [payload] only, it leaves everything else alone, and it takes at most
    the request timeout plus the pause that follows a rejected attempt. *)

Lemma loopBody_frame p payload attempt e s :
  0 <= attempt ->
  exists c e' s' seg,
    loopBody p payload attempt (e, s) = (c, (e', s'))
    /\ log e' = seg ++ log e
    /\ Forall (callOf p payload) seg
    /\ untouchedBy p (e, s) (e', s')
    /\ clock e <= clock e'
       <= clock e + REQUEST_TIMEOUT
          + (if attempt <? MAX_RETRIES then 1000 * (attempt + 1) else 0).
Proof.
  intros Hatt.
  unfold loopBody, tryBlock, catchBlock, bind, onFst, fetch, when, returnJson,
    recordSuccesOf, recordFailureOf, sleep, modify, ret, REQUEST_TIMEOUT, MAX_RETRIES.
  destruct e as [c r1 r2 pr1 pr2 rn lg], s as [hc st1 st2].
  destruct p; cbn [replies replies1 replies2].
  - destruct r1 as [| [latency st body | latency] rest]; cbn;
      case_conditions; try destruct body; cbn; case_conditions;
      frame_leaf.
  - destruct r2 as [| [latency st body | latency] rest]; cbn;
      case_conditions; try destruct body; cbn; case_conditions;
      frame_leaf.
Qed.

Lemma requestLoop_frame n :
  forall p payload attempt e s,
    0 <= attempt ->
    attempt + Z.of_nat n = MAX_RETRIES + 1 ->
    exists r e' s' seg,
      requestLoop n p payload attempt (e, s) = (r, (e', s'))
      /\ log e' = seg ++ log e
      /\ Forall (callOf p payload) seg
      /\ untouchedBy p (e, s) (e', s')
      /\ clock e <= clock e'
         <= clock e + Z.of_nat n * REQUEST_TIMEOUT
            + (if attempt <=? 0 then 3000 else if attempt <=? 1 then 2000 else 0).
Proof.
  induction n as [| n IH]; intros p payload attempt e s Hatt Hn.
  - exists failed_, e, s, []. split; [reflexivity |]. split; [reflexivity |].
    split; [constructor |]. split; [apply untouchedBy_refl |].
    unfold MAX_RETRIES in Hn. case_conditions; comparisons; lia.
  - cbn [requestLoop]. unfold bind.
    destruct (loopBody_frame p payload attempt e s Hatt)
      as (c & e1 & s1 & seg1 & -> & Hl1 & Hf1 & Hu1 & Hc1).
    assert (Hstop : exists seg,
               log e1 = seg ++ log e /\ Forall (callOf p payload) seg
               /\ untouchedBy p (e, s) (e1, s1)
               /\ clock e <= clock e1
                  <= clock e + Z.of_nat (S n) * REQUEST_TIMEOUT
                     + (if attempt <=? 0 then 3000
                        else if attempt <=? 1 then 2000 else 0)).
    { exists seg1. repeat (split; [assumption |]).
      unfold MAX_RETRIES, REQUEST_TIMEOUT in *. rewrite Nat2Z.inj_succ.
      revert Hc1. case_conditions; comparisons; lia. }
    assert (Hgo : exists r e' s' seg,
               requestLoop n p payload (attempt + 1) (e1, s1) = (r, (e', s'))
               /\ log e' = seg ++ log e
               /\ Forall (callOf p payload) seg
               /\ untouchedBy p (e, s) (e', s')
               /\ clock e <= clock e'
                  <= clock e + Z.of_nat (S n) * REQUEST_TIMEOUT
                     + (if attempt <=? 0 then 3000
                        else if attempt <=? 1 then 2000 else 0)).
    { destruct (IH p payload (attempt + 1) e1 s1) as
        (r & e2 & s2 & seg2 & Heq & Hl2 & Hf2 & Hu2 & Hc2);
        [lia | rewrite Nat2Z.inj_succ in Hn; lia |].
      exists r, e2, s2, (seg2 ++ seg1). split; [exact Heq |].
      split; [rewrite Hl2, Hl1, app_assoc; reflexivity |].
      split; [apply Forall_app; auto |].
      split; [eapply untouchedBy_trans; eassumption |].
      unfold MAX_RETRIES, REQUEST_TIMEOUT in *. rewrite Nat2Z.inj_succ.
      revert Hc1 Hc2. case_conditions; comparisons; lia. }
    destruct c as [r | |].
    + destruct Hstop as (seg & H). unfold ret. exists r, e1, s1, seg.
      split; [reflexivity | exact H].
    + exact Hgo.
    + exact Hgo.
Qed.

Lemma isCircuitOpenOf_frame p e s :
  exists b s',
    isCircuitOpenOf p (e, s) = (b, (e, s')) /\ untouchedBy p (e, s) (e, s').
Proof.
  unfold isCircuitOpenOf.
  destruct (isCircuitOpen (clock e) (statsOf s p)) as [b st].
  eexists _, _. split; [reflexivity |].
  destruct s, p; repeat split.
Qed.

Lemma makeRequest_frame p payload e s :
  exists r e' s' seg,
    makeRequest p payload (e, s) = (r, (e', s'))
    /\ log e' = seg ++ log e
    /\ Forall (callOf p payload) seg
    /\ untouchedBy p (e, s) (e', s')
    /\ clock e <= clock e' <= clock e + MAKE_REQUEST_WORST.
Proof.
  unfold makeRequest, bind.
  destruct (isCircuitOpenOf_frame p e s) as (b & s0 & -> & Hu0).
  destruct b.
  - unfold ret. exists failed_, e, s0, []. split; [reflexivity |].
    split; [reflexivity |]. split; [constructor |]. split; [exact Hu0 |].
    unfold MAKE_REQUEST_WORST, MAX_RETRIES, REQUEST_TIMEOUT. lia.
  - change (Z.to_nat (MAX_RETRIES + 1)) with 3%nat.
    destruct (requestLoop_frame 3 p payload 0 e s0 ltac:(lia) eq_refl)
      as (r & e' & s' & seg & -> & Hl & Hf & Hu & Hc).
    exists r, e', s', seg. split; [reflexivity |]. split; [exact Hl |].
    split; [exact Hf |]. split; [eapply untouchedBy_trans; eassumption |].
    unfold MAKE_REQUEST_WORST, MAX_RETRIES, REQUEST_TIMEOUT in *. cbn in Hc. lia.
Qed.

(** X9.  What a call of [makeRequest] may do, whatever the processor
    answers.  It makes at most [MAX_RETRIES + 1] = 3 downstream calls, all of
    them to the processor it was given and with the payload it was given; it
    spends at most 33 s waiting for responses and pausing (three attempts of
    at most [REQUEST_TIMEOUT] = 10 s and pauses of 1 s and 2 s; the time to
    read a body is not counted); and it touches nothing but the answers and
    the breaker of that processor: the health cache, the breaker and the
    pending answers of the other processor and the probes are as before. *)
Theorem X9_makeRequest_budget_and_frame
  (p : ProcessorType) (payload : PaymentBody) (e : Env) (s : PaymentsState) :
  exists r e' s' seg,
    makeRequest p payload (e, s) = (r, (e', s'))
    /\ log e' = seg ++ log e
    /\ (fetchCount seg <= 3)%nat
    /\ Forall (callOf p payload) seg
    /\ clock e <= clock e' <= clock e + MAKE_REQUEST_WORST
    /\ MAKE_REQUEST_WORST = 33000
    /\ healthCache s' = healthCache s
    /\ statsOf s' (otherProcessor p) = statsOf s (otherProcessor p)
    /\ replies e' (otherProcessor p) = replies e (otherProcessor p)
    /\ (forall p', probes e' p' = probes e p').
Proof.
  destruct (makeRequest_frame p payload e s)
    as (r & e' & s' & seg & Heq & Hl & Hf & Hu & Hc).
  destruct (makeRequest_spec p payload e s)
    as (r0 & e0 & s0 & seg0 & Heq0 & Hl0 & Hn0 & _).
  rewrite Heq in Heq0. injection Heq0 as <- <- <-.
  assert (seg0 = seg) as -> by (rewrite Hl in Hl0; now apply app_inv_tail in Hl0).
  exists r, e', s', seg. split; [exact Heq |]. split; [exact Hl |].
  split; [exact Hn0 |]. split; [exact Hf |]. split; [exact Hc |].
  split; [reflexivity |].
  destruct Hu as (H1 & H2 & H3 & H4 & H5 & H6). cbn [fst snd] in *.
  repeat (split; [assumption |]).
  intros []; assumption.
Qed.

Lemma setStats_same p s : setStats p (statsOf s p) s = s.
Proof. destruct s, p; reflexivity. Qed.

Lemma makeRequest_open p payload e s :
  circuitOpen (statsOf s p) = true ->
  clock e - lastFailure (statsOf s p) <= CIRCUIT_BREAKER_TIMEOUT ->
  makeRequest p payload (e, s) = (failed_, (e, s)).
Proof.
  intros Hopen Hrecent. unfold makeRequest, bind, isCircuitOpenOf, isCircuitOpen.
  rewrite Hopen. cbn [negb].
  destruct (Z.ltb_spec CIRCUIT_BREAKER_TIMEOUT (clock e - lastFailure (statsOf s p)));
    [lia |].
  unfold ret. now rewrite setStats_same.
Qed.

(** X10.  An open breaker skips the request.  While the breaker of a
    processor is open and its last failure is at most
    [CIRCUIT_BREAKER_TIMEOUT] (10 s) old, [makeRequest] returns
    [{success: false}] at once: no downstream call, no pause, no time spent,
    and the breaker keeps its count. *)
Theorem X10_open_breaker_skips_the_request
  (p : ProcessorType) (payload : PaymentBody) (e : Env) (s : PaymentsState) :
  circuitOpen (statsOf s p) = true ->
  clock e - lastFailure (statsOf s p) <= CIRCUIT_BREAKER_TIMEOUT ->
  makeRequest p payload (e, s) = (failed_, (e, s)).
Proof.
  intros Hopen Hrecent. unfold makeRequest, bind, isCircuitOpenOf.
  assert (Hcheck : isCircuitOpen (clock e) (statsOf s p) = (true, statsOf s p)).
  { unfold isCircuitOpen. rewrite Hopen. cbn [negb].
    destruct (Z.ltb_spec CIRCUIT_BREAKER_TIMEOUT (clock e - lastFailure (statsOf s p)));
      [lia | reflexivity]. }
  rewrite Hcheck. unfold ret. now rewrite setStats_same.
Qed.

(** An instance of X10: the default breaker opened 4 s ago; the answer the
    processor would give is not asked for. *)
Lemma X10_open_breaker_skips_the_request_witness :
  let e := mkEnv 104000 [Reply 10 200 (Some accepted)] [] [] [] [] [] in
  let s := mkPaymentsState (mkHealthCache 0 true true)
             (mkProcessorStats 20 100000 true) initialStats in
  makeRequest Default (mkPaymentBody "a" 10) (e, s) = (failed_, (e, s)).
Proof.
  intros e s. apply (X10_open_breaker_skips_the_request Default _ e s).
  - reflexivity.
  - vm_compute. discriminate.
Defined.

(** One pass through the loop against a processor that is down: the attempt
    fails, and [recordFailure] is called on the last pass only, as the last
    thing the pass does. *)
Lemma loopBody_down p payload attempt e s :
  0 <= attempt ->
  processorDown e p ->
  exists e' s' seg,
    loopBody p payload attempt (e, s) = (Continued, (e', s'))
    /\ processorDown e' p
    /\ log e' = seg ++ log e
    /\ fetchCount seg = 1%nat
    /\ clock e <= clock e'
    /\ statsOf s' p
       = (if attempt =? MAX_RETRIES then recordFailure (clock e') (statsOf s p)
          else statsOf s p).
Proof.
  unfold processorDown, loopBody, tryBlock, catchBlock, bind, onFst, fetch, when,
    returnJson, recordSuccesOf, recordFailureOf, sleep, modify, ret, ok,
    REQUEST_TIMEOUT, MAX_RETRIES.
  destruct e as [c r1 r2 pr1 pr2 rn lg], s as [hc st1 st2].
  destruct p; cbn [replies replies1 replies2]; intros Hatt Hdown.
  - destruct r1 as [| [latency st body | latency] rest];
      [| apply Forall_cons in Hdown as [Ha Hrest]
       | apply Forall_cons in Hdown as [Ha Hrest]];
      cbn in *; unfold REQUEST_TIMEOUT in *;
      case_conditions; try destruct body; cbn; case_conditions;
      booleans; comparisons; try lia;
      down_leaf.
  - destruct r2 as [| [latency st body | latency] rest];
      [| apply Forall_cons in Hdown as [Ha Hrest]
       | apply Forall_cons in Hdown as [Ha Hrest]];
      cbn in *; unfold REQUEST_TIMEOUT in *;
      case_conditions; try destruct body; cbn; case_conditions;
      booleans; comparisons; try lia;
      down_leaf.
Qed.

Lemma requestLoop_down n :
  forall p payload attempt e s,
    0 <= attempt ->
    attempt + Z.of_nat (S n) = MAX_RETRIES + 1 ->
    processorDown e p ->
    exists e' s' seg,
      requestLoop (S n) p payload attempt (e, s) = (failed_, (e', s'))
      /\ processorDown e' p
      /\ log e' = seg ++ log e
      /\ fetchCount seg = S n
      /\ clock e <= clock e'
      /\ statsOf s' p = recordFailure (clock e') (statsOf s p).
Proof.
  induction n as [| n IH]; intros p payload attempt e s Hatt Hn Hdown.
  - cbn [requestLoop]. unfold bind.
    destruct (loopBody_down p payload attempt e s Hatt Hdown)
      as (e1 & s1 & seg1 & -> & Hd1 & Hl1 & Hc1 & Hk1 & Hs1).
    assert (attempt = MAX_RETRIES) as -> by (cbn in Hn; lia).
    rewrite Z.eqb_refl in Hs1. unfold ret.
    exists e1, s1, seg1. repeat (split; [first [reflexivity | assumption] |]).
    assumption.
  - cbn [requestLoop]. unfold bind.
    destruct (loopBody_down p payload attempt e s Hatt Hdown)
      as (e1 & s1 & seg1 & -> & Hd1 & Hl1 & Hc1 & Hk1 & Hs1).
    assert (Hmid : (attempt =? MAX_RETRIES) = false)
      by (apply Z.eqb_neq; rewrite !Nat2Z.inj_succ in Hn; lia).
    rewrite Hmid in Hs1.
    destruct (IH p payload (attempt + 1) e1 s1) as
      (e2 & s2 & seg2 & Heq & Hd2 & Hl2 & Hc2 & Hk2 & Hs2);
      [lia | rewrite !Nat2Z.inj_succ in *; lia | assumption |].
    cbn [requestLoop] in Heq. unfold bind in Heq. rewrite Heq.
    exists e2, s2, (seg2 ++ seg1). split; [reflexivity |]. split; [assumption |].
    split; [rewrite Hl2, Hl1, app_assoc; reflexivity |].
    split; [rewrite fetchCount_app; lia |]. split; [lia |]. congruence.
Qed.

(** A call of [makeRequest] for a processor that is down, its breaker
    closed: three attempts, then one [recordFailure], stamped with the time
    the call ends. *)
Lemma makeRequest_down p payload e s :
  processorDown e p ->
  circuitOpen (statsOf s p) = false ->
  exists e' s' seg,
    makeRequest p payload (e, s) = (failed_, (e', s'))
    /\ processorDown e' p
    /\ log e' = seg ++ log e
    /\ fetchCount seg = 3%nat
    /\ clock e <= clock e'
    /\ statsOf s' p = recordFailure (clock e') (statsOf s p).
Proof.
  intros Hdown Hclosed. unfold makeRequest, bind, isCircuitOpenOf, isCircuitOpen.
  rewrite Hclosed. cbn [negb]. rewrite setStats_same.
  change (Z.to_nat (MAX_RETRIES + 1)) with 3%nat.
  apply requestLoop_down; [lia | reflexivity | assumption].
Qed.

Lemma processorDown_elapse dt e p : processorDown e p -> processorDown (elapse dt e) p.
Proof. destruct p; exact (fun H => H). Qed.

(** Failing requests in a row, from a closed breaker that stays below the
    threshold: each makes its three attempts and adds one failure. *)
Lemma requestsInARow_down waits :
  forall p payload e s,
    processorDown e p ->
    circuitOpen (statsOf s p) = false ->
    failures (statsOf s p) + Z.of_nat (length waits) <= CIRCUIT_BREAKER_THRESHOLD ->
    exists e' s' seg,
      requestsInARow waits p payload (e, s)
      = (replicate (length waits) failed_, (e', s'))
      /\ processorDown e' p
      /\ log e' = seg ++ log e
      /\ fetchCount seg = (3 * length waits)%nat
      /\ clock e <= clock e'
      /\ failures (statsOf s' p) = failures (statsOf s p) + Z.of_nat (length waits)
      /\ circuitOpen (statsOf s' p)
         = (CIRCUIT_BREAKER_THRESHOLD <=? failures (statsOf s' p))
           && negb (length waits =? 0)%nat
      /\ (waits <> [] -> lastFailure (statsOf s' p) = clock e').
Proof.
  induction waits as [| wait rest IH]; intros p payload e s Hdown Hclosed Hbelow.
  - exists e, s, []. cbn. rewrite Z.add_0_r, andb_false_r.
    repeat (split; [first [reflexivity | assumption | lia] |]). congruence.
  - cbn [requestsInARow]. unfold bind, modify.
    destruct (makeRequest_down p payload (elapse (Z.of_N wait) e) s)
      as (e1 & s1 & seg1 & -> & Hd1 & Hl1 & Hc1 & Hk1 & Hs1);
      [now apply processorDown_elapse | assumption |].
    cbn [length] in Hbelow. rewrite Nat2Z.inj_succ in Hbelow.
    assert (Hf1 : failures (statsOf s1 p) = failures (statsOf s p) + 1)
      by (rewrite Hs1; reflexivity).
    assert (Ho1 : circuitOpen (statsOf s1 p)
                  = (CIRCUIT_BREAKER_THRESHOLD <=? failures (statsOf s p) + 1)).
    { rewrite Hs1. unfold recordFailure. cbn [circuitOpen].
      rewrite Hclosed. now destruct (_ <=? _). }
    assert (Hlf1 : lastFailure (statsOf s1 p) = clock e1) by (rewrite Hs1; reflexivity).
    assert (Hk0 : clock e <= clock e1).
    { change (clock (elapse (Z.of_N wait) e)) with (clock e + Z.of_N wait) in Hk1. lia. }
    destruct rest as [| wait' rest'].
    + cbn [requestsInARow length replicate]. unfold ret.
      exists e1, s1, seg1. split; [reflexivity |]. split; [assumption |].
      split; [exact Hl1 |]. split; [exact Hc1 |]. split; [exact Hk0 |].
      split; [cbn; lia |]. split; [| intros _; exact Hlf1].
      rewrite Ho1, Hf1. cbn. now rewrite andb_true_r.
    + destruct (IH p payload e1 s1) as
        (e2 & s2 & seg2 & -> & Hd2 & Hl2 & Hc2 & Hk2 & Hf2 & Ho2 & Hlf2).
      * assumption.
      * rewrite Ho1. apply Z.leb_gt. cbn [length] in Hbelow.
        rewrite Nat2Z.inj_succ in Hbelow. lia.
      * rewrite Hf1. lia.
      * unfold ret. exists e2, s2, (seg2 ++ seg1).
        split; [reflexivity |]. split; [assumption |].
        split; [cbn [log elapse setClock] in Hl1; rewrite Hl2, Hl1, app_assoc; reflexivity |].
        split; [rewrite fetchCount_app, Hc2, Hc1; cbn [length]; lia |].
        split; [lia |].
        split; [rewrite Hf2, Hf1; cbn [length]; rewrite !Nat2Z.inj_succ; lia |].
        split; [rewrite Ho2; reflexivity |].
        intros _. apply Hlf2. discriminate.
Qed.

(** X11.  A processor that is down trips its breaker.  Starting with the
    breaker closed, requests for a processor whose every answer is a 5xx, a
    timeout or no response each make their three attempts and add one
    failure, whatever the time between them; when the count reaches
    [CIRCUIT_BREAKER_THRESHOLD] (20) the breaker is open, and every request
    that comes within [CIRCUIT_BREAKER_TIMEOUT] (10 s) of that last failure
    returns [{success: false}] without calling the processor. *)
Theorem X11_down_processor_trips_the_breaker
  (p : ProcessorType) (payload : PaymentBody) (e : Env) (s : PaymentsState)
  (waits : list N) :
  processorDown e p ->
  circuitOpen (statsOf s p) = false ->
  waits <> [] ->
  failures (statsOf s p) + Z.of_nat (length waits) = CIRCUIT_BREAKER_THRESHOLD ->
  exists e' s' seg,
    requestsInARow waits p payload (e, s)
    = (replicate (length waits) failed_, (e', s'))
    /\ log e' = seg ++ log e
    /\ fetchCount seg = (3 * length waits)%nat
    /\ circuitOpen (statsOf s' p) = true
    /\ failures (statsOf s' p) = CIRCUIT_BREAKER_THRESHOLD
    /\ forall wait payload',
         Z.of_N wait <= CIRCUIT_BREAKER_TIMEOUT ->
         makeRequest p payload' (elapse (Z.of_N wait) e', s')
         = (failed_, (elapse (Z.of_N wait) e', s')).
Proof.
  intros Hdown Hclosed Hne Hcount.
  destruct (requestsInARow_down waits p payload e s Hdown Hclosed ltac:(lia))
    as (e' & s' & seg & Heq & _ & Hl & Hc & _ & Hf & Ho & Hlf).
  assert (Hopen : circuitOpen (statsOf s' p) = true).
  { rewrite Ho, Hf, Hcount. destruct waits; [congruence | reflexivity]. }
  exists e', s', seg. split; [exact Heq |]. split; [exact Hl |].
  split; [exact Hc |]. split; [exact Hopen |]. split; [lia |].
  intros wait payload' Hwait. apply makeRequest_open; [exact Hopen |].
  rewrite (Hlf Hne).
  change (clock (elapse (Z.of_N wait) e')) with (clock e' + Z.of_N wait). lia.
Qed.

(** An instance of X11: nothing answers; twenty requests, one every
    100 ms, from a fresh breaker. *)
Lemma X11_down_processor_trips_the_breaker_witness :
  exists e' s',
    snd (requestsInARow (replicate 20 100%N) Default (mkPaymentBody "a" 10)
           (mkEnv 100000 [] [] [] [] [] [], initialPayments)) = (e', s')
    /\ fetchCount (log e') = 60%nat
    /\ circuitOpen (processor1Stats s') = true.
Proof.
  destruct (X11_down_processor_trips_the_breaker Default (mkPaymentBody "a" 10)
              (mkEnv 100000 [] [] [] [] [] []) initialPayments (replicate 20 100%N))
    as (e' & s' & seg & Heq & Hl & Hc & Ho & _).
  - constructor.
  - reflexivity.
  - discriminate.
  - reflexivity.
  - exists e', s'. rewrite Heq. split; [reflexivity |].
    split; [| exact Ho].
    rewrite Hl. cbn [log]. rewrite app_nil_r. exact Hc.
Defined.

(** ** The health tracker and the routes that read it *)

Lemma isCircuitOpen_false_closed now s :
  fst (isCircuitOpen now s) = false -> circuitOpen (snd (isCircuitOpen now s)) = false.
Proof.
  unfold isCircuitOpen. destruct (circuitOpen s) eqn:Ho; cbn [negb].
  - destruct (CIRCUIT_BREAKER_TIMEOUT <? now - lastFailure s); [reflexivity | discriminate].
  - intros _. exact Ho.
Qed.

Lemma getHealth_cached e s :
  clock e - last (healthCache s) < HEALTH_TTL ->
  getHealth (e, s) = ((p1 (healthCache s), p2 (healthCache s)), (e, s)).
Proof.
  intros H. unfold getHealth, bind, gets, ret.
  destruct (Z.ltb_spec (clock e - last (healthCache s)) HEALTH_TTL); [reflexivity | lia].
Qed.

(** A refresh: the cache is stamped with the time the call started, and a
    processor it reports healthy has its breaker closed when it returns. *)
Lemma getHealth_refresh e s :
  HEALTH_TTL <= clock e - last (healthCache s) ->
  exists h1 h2 e' s',
    getHealth (e, s) = ((h1, h2), (e', s'))
    /\ healthCache s' = mkHealthCache (clock e) h1 h2
    /\ (h1 = true -> circuitOpen (processor1Stats s') = false)
    /\ (h2 = true -> circuitOpen (processor2Stats s') = false).
Proof.
  intros H. unfold getHealth, bind, gets.
  destruct (Z.ltb_spec (clock e - last (healthCache s)) HEALTH_TTL); [lia |].
  unfold onFst. destruct (probeBoth e) as [[r1 r2] e1].
  destruct (healthyAndClosed_spec Default r1 e1 s) as (st1 & -> & Hst1).
  destruct (healthyAndClosed_spec Fallback r2 e1 (setStats Default st1 s))
    as (st2 & -> & Hst2).
  unfold modify, ret. eexists _, _, _, _. split; [reflexivity |].
  cbn [setHealthCache setStats healthCache processor1Stats processor2Stats statsOf] in *.
  split; [reflexivity |]. split.
  - intros Hh. apply andb_true_iff in Hh as [-> Hc]. apply negb_true_iff in Hc.
    subst st1. now apply isCircuitOpen_false_closed.
  - intros Hh. apply andb_true_iff in Hh as [-> Hc]. apply negb_true_iff in Hc.
    subst st2. now apply isCircuitOpen_false_closed.
Qed.

(** X12.  The health served between two refreshes.  Once [getHealth] has
    refreshed its cache, every call that starts less than [HEALTH_TTL] (5 s)
    after the start of that refresh returns what the refresh found and
    touches nothing, whatever has happened to the breakers since: a
    processor whose breaker opened in the meantime is still reported as it
    was. *)
Theorem X12_health_between_refreshes
  (e : Env) (s : PaymentsState) (e2 : Env) (s2 : PaymentsState) :
  HEALTH_TTL <= clock e - last (healthCache s) ->
  healthCache s2 = healthCache (snd (getHealth (e, s))).2 ->
  clock e2 - clock e < HEALTH_TTL ->
  getHealth (e2, s2) = (fst (getHealth (e, s)), (e2, s2)).
Proof.
  intros Hstale Hcache Hsoon.
  destruct (getHealth_refresh e s Hstale) as (h1 & h2 & e1 & s1 & Heq & Hc & _).
  rewrite Heq in *. cbn [fst snd] in *. rewrite Hc in Hcache.
  rewrite (getHealth_cached e2 s2); rewrite Hcache; [reflexivity |].
  cbn [last]. exact Hsoon.
Qed.

(** An instance of X12: a refresh finds the default processor healthy; 4 s
    later its breaker is open, and it is still reported healthy. *)
Lemma X12_health_between_refreshes_witness :
  let e := mkEnv 100000 [] [] [ProbeStatus 5 200] [ProbeStatus 7 500] [] [] in
  let e2 := mkEnv 104000 [] [] [] [] [] [] in
  let s2 := mkPaymentsState (mkHealthCache 100000 true false)
              (mkProcessorStats 20 103000 true) initialStats in
  getHealth (e2, s2) = ((true, false), (e2, s2)).
Proof.
  intros e e2 s2.
  apply (X12_health_between_refreshes e initialPayments e2 s2).
  - vm_compute. discriminate.
  - reflexivity.
  - reflexivity.
Defined.

(** X13.  What GET /payments/status reports.  The route always answers 200
    and changes neither the queue nor the ledger.  When it refreshes the
    health (the cache is [HEALTH_TTL] old or older) a processor it reports
    as healthy is reported with [circuitOpen: false]; when it answers from
    the cache it changes nothing at all, and reports the cached health next
    to the breaker as it is now. *)
Theorem X13_status_route (w : World) :
  exists h1 h2 w',
    paymentsStatus w
    = (Replied 200
         (JObj [("processors",
                 JObj [("processor1", statusOf h1 (processor1Stats (paymentsState w')));
                       ("processor2", statusOf h2 (processor2Stats (paymentsState w')))]);
                ("queue", queueStatusJson (getQueueStatus (queueState w)))]),
       w')
    /\ queueState w' = queueState w
    /\ redis w' = redis w
    /\ (HEALTH_TTL <= clock (env w) - last (healthCache (paymentsState w)) ->
        (h1 = true -> circuitOpen (processor1Stats (paymentsState w')) = false)
        /\ (h2 = true -> circuitOpen (processor2Stats (paymentsState w')) = false))
    /\ (clock (env w) - last (healthCache (paymentsState w)) < HEALTH_TTL ->
        w' = w
        /\ h1 = p1 (healthCache (paymentsState w))
        /\ h2 = p2 (healthCache (paymentsState w))).
Proof.
  unfold paymentsStatus, bind, inPayments, gets, ret.
  destruct (Z.lt_ge_cases (clock (env w) - last (healthCache (paymentsState w))) HEALTH_TTL)
    as [Hfresh | Hstale].
  - rewrite (getHealth_cached _ _ Hfresh).
    eexists _, _, _. split; [reflexivity |]. cbn [queueState redis paymentsState].
    split; [reflexivity |]. split; [reflexivity |]. split; [lia |].
    intros _. destruct w; auto.
  - destruct (getHealth_refresh _ _ Hstale) as (h1 & h2 & e1 & s1 & -> & _ & H1 & H2).
    exists h1, h2. eexists. split; [reflexivity |]. cbn [queueState redis paymentsState].
    split; [reflexivity |]. split; [reflexivity |]. split; [auto | lia].
Qed.

(** ** The POST /payments handler, whatever the processors answer *)

Lemma fetchesTo_app p seg1 seg2 :
  fetchesTo p (seg1 ++ seg2) = (fetchesTo p seg1 + fetchesTo p seg2)%nat.
Proof. unfold fetchesTo. now rewrite filter_app, length_app. Qed.

Lemma fetchesTo_cons p ev seg :
  fetchesTo p (ev :: seg)
  = ((if isFetchTo p ev then 1 else 0) + fetchesTo p seg)%nat.
Proof.
  unfold fetchesTo. rewrite filter_cons.
  destruct (isFetchTo p ev); cbn;
    destruct (decide _) as [H | H]; cbn in *; try reflexivity; tauto.
Qed.

Lemma fetchCount_cons ev seg :
  fetchCount (ev :: seg) = ((if isFetch ev then 1 else 0) + fetchCount seg)%nat.
Proof.
  unfold fetchCount. rewrite filter_cons.
  destruct (isFetch ev); cbn;
    destruct (decide _) as [H | H]; cbn in *; try reflexivity; tauto.
Qed.

Lemma callOf_fetches p payload seg :
  Forall (callOf p payload) seg ->
  fetchesTo p seg = fetchCount seg /\ fetchesTo (otherProcessor p) seg = 0%nat.
Proof.
  induction 1 as [| ev seg Hev _ [IH1 IH2]]; [split; reflexivity |].
  rewrite !fetchesTo_cons, fetchCount_cons, IH1, IH2.
  destruct ev as [p' h | p' payload' r | ms | p' | p']; cbn in *; try tauto; try lia.
  destruct Hev as [-> _]. rewrite bool_decide_eq_true_2 by reflexivity.
  rewrite bool_decide_eq_false_2 by (destruct p; discriminate). split; reflexivity.
Qed.

Lemma probeBoth_upper e : clock (snd (probeBoth e)) <= clock e + PROBE_TIMEOUT.
Proof.
  destruct (probeBoth_spec e) as [_ ->].
  pose proof (probeTime_bound (nextProbeReply e Default)).
  pose proof (probeTime_bound (nextProbeReply e Fallback)). lia.
Qed.

(** [getHealth] calls no processor and takes at most [PROBE_TIMEOUT]. *)
Lemma getHealth_general e s :
  exists h e' s' seg,
    getHealth (e, s) = (h, (e', s'))
    /\ log e' = seg ++ log e
    /\ (forall p, fetchesTo p seg = 0%nat)
    /\ clock e <= clock e' <= clock e + PROBE_TIMEOUT.
Proof.
  unfold getHealth, bind, gets, ret.
  destruct (clock e - last (healthCache s) <? HEALTH_TTL).
  - exists (p1 (healthCache s), p2 (healthCache s)), e, s, [].
    split; [reflexivity |]. split; [reflexivity |]. split; [reflexivity |].
    unfold PROBE_TIMEOUT. lia.
  - unfold onFst.
    destruct (probeBoth_log e) as (h1' & h2' & Hl).
    pose proof (probeBoth_clock e) as Hc1. pose proof (probeBoth_upper e) as Hc2.
    destruct (probeBoth e) as [[h1 h2] e1]. cbn [snd] in *.
    destruct (healthyAndClosed_spec Default h1 e1 s) as (st1 & -> & _).
    destruct (healthyAndClosed_spec Fallback h2 e1 (setStats Default st1 s))
      as (st2 & -> & _).
    unfold modify. eexists _, e1, _, [EvProbe Fallback h2'; EvProbe Default h1'].
    split; [reflexivity |]. split; [exact Hl |]. split; [reflexivity | lia].
Qed.

(** One settlement attempt of the handler: at most three calls, all to the
    processor it is for, within the worst case of [makeRequest]. *)
Lemma settle_calls p body w :
  exists res w' seg,
    settle p body w = (res, w')
    /\ log (env w') = seg ++ log (env w)
    /\ (fetchesTo p seg <= 3)%nat
    /\ fetchesTo (otherProcessor p) seg = 0%nat
    /\ Forall (callOf p body) seg
    /\ clock (env w) <= clock (env w') <= clock (env w) + MAKE_REQUEST_WORST.
Proof.
  unfold settle, bind, inPayments.
  destruct (makeRequest_frame p body (env w) (paymentsState w))
    as (r & e1 & s1 & seg & Heq & Hl & Hf & _ & Hc).
  destruct (makeRequest_spec p body (env w) (paymentsState w))
    as (r0 & e0 & s0 & seg0 & Heq0 & Hl0 & Hn0 & _).
  rewrite Heq in Heq0. injection Heq0 as <- <- <-.
  assert (seg0 = seg) as -> by (rewrite Hl in Hl0; now apply app_inv_tail in Hl0).
  destruct (callOf_fetches p body seg Hf) as [Hp Ho].
  rewrite Heq.
  destruct (success r).
  - unfold inLedger. cbn [env redis paymentsState queueState].
    destruct (registerPayment_spec p (amount body) None e1 (redis w))
      as (t & r' & -> & _ & _).
    destruct t; unfold ret; eexists _, _, seg; (split; [reflexivity |]);
      cbn [env]; (split; [exact Hl |]); (split; [lia |]); auto.
  - unfold ret. eexists _, _, seg. split; [reflexivity |].
    cbn [env]. split; [exact Hl |]. split; [lia |]. auto.
Qed.

Lemma queuePayment_clock body e q :
  clock (snd (queuePayment body (e, q))).1 = clock e.
Proof.
  unfold queuePayment, bind, gets, modify, ret, onFst, nextRandom. cbn [snd].
  destruct (QUEUE_MAX_SIZE <=? _); [reflexivity |].
  destruct (randoms e); reflexivity.
Qed.

Lemma payments_calls body w :
  exists out w' seg,
    payments body w = (out, w')
    /\ log (env w') = seg ++ log (env w)
    /\ (forall p, (fetchesTo p seg <= 3)%nat)
    /\ (forall p, reportedHealthOf w p = false -> fetchesTo p seg = 0%nat)
    /\ clock (env w) <= clock (env w') <= clock (env w) + HANDLER_WORST.
Proof.
  unfold payments, bind, gets, reportedHealthOf, reportedHealth.
  unfold inPayments at 1.
  destruct (getHealth_general (env w) (paymentsState w))
    as ([h1 h2] & e0 & s0 & seg0 & -> & Hl0 & Hf0 & Hc0).
  cbn [fst snd].
  set (w0 := mkWorld e0 s0 (queueState w) (redis w)).
  change e0 with (env w0) in Hl0, Hc0. cbn [queueState]. clearbody w0. clear e0 s0.
  assert (Hworst : HANDLER_WORST = PROBE_TIMEOUT + 2 * MAKE_REQUEST_WORST) by reflexivity.
  assert (Hpos : 0 <= MAKE_REQUEST_WORST) by (vm_compute; discriminate).
  destruct (negb h1 && negb h2 && _).
  { unfold ret. eexists _, w0, seg0. split; [reflexivity |]. split; [exact Hl0 |].
    split; [intros p; rewrite Hf0; lia |]. split; [intros p _; apply Hf0 | lia]. }
  assert (First : exists res w1 seg1,
             (if h1 then settle Default body else ret None) w0 = (res, w1)
             /\ log (env w1) = seg1 ++ log (env w0)
             /\ (fetchesTo Default seg1 <= 3)%nat
             /\ fetchesTo Fallback seg1 = 0%nat
             /\ (h1 = false -> fetchesTo Default seg1 = 0%nat)
             /\ clock (env w0) <= clock (env w1) <= clock (env w0) + MAKE_REQUEST_WORST).
  { destruct h1.
    - destruct (settle_calls Default body w0) as (res & w1 & seg1 & -> & H1 & H2 & H3 & _ & H4).
      eexists _, _, seg1. split; [reflexivity |]. repeat (split; [assumption |]).
      split; [discriminate | exact H4].
    - unfold ret. eexists _, w0, []. split; [reflexivity |]. split; [reflexivity |].
      split; [cbn; lia |]. split; [reflexivity |]. split; [reflexivity | lia]. }
  destruct First as (res1 & w1 & seg1 & -> & Hl1 & Hd1 & Hfb1 & Hno1 & Hc1).
  assert (Hl01 : log (env w1) = (seg1 ++ seg0) ++ log (env w))
    by (rewrite Hl1, Hl0, app_assoc; reflexivity).
  destruct res1 as [out |].
  { unfold ret. eexists _, w1, (seg1 ++ seg0). split; [reflexivity |].
    split; [exact Hl01 |].
    split; [intros []; rewrite fetchesTo_app, Hf0; lia |].
    split; [| lia].
    intros [] Hh; cbn in Hh; rewrite fetchesTo_app, Hf0; [rewrite Hno1 by exact Hh |]; lia. }
  assert (Second : exists res w2 seg2,
             (if h2 then settle Fallback body else ret None) w1 = (res, w2)
             /\ log (env w2) = seg2 ++ log (env w1)
             /\ (fetchesTo Fallback seg2 <= 3)%nat
             /\ fetchesTo Default seg2 = 0%nat
             /\ (h2 = false -> fetchesTo Fallback seg2 = 0%nat)
             /\ clock (env w1) <= clock (env w2) <= clock (env w1) + MAKE_REQUEST_WORST).
  { destruct h2.
    - destruct (settle_calls Fallback body w1) as (res & w2 & seg2 & -> & H1 & H2 & H3 & _ & H4).
      eexists _, _, seg2. split; [reflexivity |]. repeat (split; [assumption |]).
      split; [discriminate | exact H4].
    - unfold ret. eexists _, w1, []. split; [reflexivity |]. split; [reflexivity |].
      split; [cbn; lia |]. split; [reflexivity |]. split; [reflexivity | lia]. }
  destruct Second as (res2 & w2 & seg2 & -> & Hl2 & Hd2 & Hfb2 & Hno2 & Hc2).
  assert (Hl02 : log (env w2) = (seg2 ++ seg1 ++ seg0) ++ log (env w))
    by (rewrite Hl2, Hl01, !app_assoc; reflexivity).
  assert (Hcount : forall p, (fetchesTo p (seg2 ++ seg1 ++ seg0) <= 3)%nat)
    by (intros []; rewrite !fetchesTo_app, Hf0; lia).
  assert (Hnone : forall p, (let (h1, h2) := (h1, h2) in
                             match p with Default => h1 | Fallback => h2 end) = false ->
                            fetchesTo p (seg2 ++ seg1 ++ seg0) = 0%nat).
  { intros [] Hh; cbn in Hh; rewrite !fetchesTo_app, Hf0;
      [rewrite Hno1 by exact Hh | rewrite Hno2 by exact Hh]; lia. }
  destruct res2 as [out |].
  { unfold ret. eexists _, w2, _. split; [reflexivity |]. split; [exact Hl02 |].
    split; [exact Hcount |]. split; [| lia].
    intros [] Hh; apply Hnone; exact Hh. }
  unfold inQueue.
  pose proof (queuePayment_clock body (env w2) (queueState w2)) as Hclock3.
  destruct (queuePayment_spec body (env w2) (queueState w2))
    as (t & e3 & q3 & Heq3 & Hl3 & _).
  rewrite Heq3 in *. cbn [fst snd] in Hclock3.
  destruct t; unfold ret; eexists _, _, _; (split; [reflexivity |]); cbn [env];
    (split; [rewrite Hl3; exact Hl02 |]); (split; [exact Hcount |]);
    (split; [intros [] Hh; apply Hnone; exact Hh | lia]).
Qed.

(** X14.  Which processors the POST /payments handler calls.  Whatever the
    processors answer, one request makes at most three downstream calls to
    each processor, makes none to a processor that [getHealth] reported as
    unhealthy at the start of the request, and spends at most 68 s waiting
    for probes and responses and pausing (one round of probes and two full
    calls of [makeRequest]; the time to read a body and to write the ledger
    is not counted). *)
Theorem X14_handler_calls (body : PaymentBody) (w : World) :
  exists out w' seg,
    payments body w = (out, w')
    /\ log (env w') = seg ++ log (env w)
    /\ (forall p, (fetchesTo p seg <= 3)%nat)
    /\ (forall p, reportedHealthOf w p = false -> fetchesTo p seg = 0%nat)
    /\ clock (env w) <= clock (env w') <= clock (env w) + HANDLER_WORST
    /\ HANDLER_WORST = 68000.
Proof.
  destruct (payments_calls body w) as (out & w' & seg & H1 & H2 & H3 & H4 & H5).
  exists out, w', seg. repeat (split; [assumption |]). reflexivity.
Qed.

(** ** Looking a queued payment up *)

Lemma find_snoc_other {A} (f : A -> bool) l a :
  f a = false -> List.find f (l ++ [a]) = List.find f l.
Proof.
  intros Ha. induction l as [| x l IH]; cbn; [now rewrite Ha |].
  destruct (f x); [reflexivity | exact IH].
Qed.

Lemma find_snoc_new {A} (f : A -> bool) l a :
  Forall (fun x => f x = false) l -> f a = true -> List.find f (l ++ [a]) = Some a.
Proof.
  intros Hl Ha. induction Hl as [| x l Hx _ IH]; cbn; [now rewrite Ha |].
  now rewrite Hx.
Qed.

Lemma find_absent {A} (f : A -> bool) l :
  Forall (fun x => f x = false) l -> List.find f l = None.
Proof. induction 1 as [| x l Hx _ IH]; cbn; [reflexivity | now rewrite Hx]. Qed.

Lemma ids_absent queueId l :
  queueId ∉ ids l -> Forall (fun x => bool_decide (id x = queueId) = false) l.
Proof.
  intros Hnot. apply Forall_forall. intros x Hx.
  apply bool_decide_eq_false_2. intros Heq. apply Hnot.
  unfold ids. apply list_elem_of_fmap. exists x. auto.
Qed.

Lemma queuePayment_item body e q :
  queueSize q < QUEUE_MAX_SIZE ->
  exists e' q',
    queuePayment body (e, q) = (Done (id (newItem body e)), (e', q'))
    /\ paymentQueue q' = paymentQueue q ++ [newItem body e].
Proof.
  unfold queuePayment, queueSize, bind, gets, modify, ret, newItem. cbn [snd]. intros H.
  destruct (Z.leb_spec QUEUE_MAX_SIZE (Z.of_nat (length (paymentQueue q))));
    [lia |].
  unfold onFst. destruct (nextRandom e) as [r e1].
  eexists _, _. split; [reflexivity |].
  unfold startQueueProcessor; cbn. destruct (queueProcessorRunning q); reflexivity.
Qed.

(** X15.  Enqueue, then look up.  An id that is not in the queue gets 404
    from GET /payments/queue/:queueId.  Below capacity [queuePayment]
    returns the id of the item it appended; if no older item has that id,
    [getQueuedPayment] finds the new item under it and the route answers
    200 with zero attempts, [maxRetries] 3 and
    [nextAttempt = lastAttempt + delay = 0 + 2000], a time in 1970, since
    [lastAttempt] starts at 0; every other id is looked up as before the
    enqueue. *)
Theorem X15_enqueue_then_lookup (body : PaymentBody) (e : Env) (q : QueueState) :
  queueSize q < QUEUE_MAX_SIZE ->
  exists queueId e' q',
    queuePayment body (e, q) = (Done queueId, (e', q'))
    /\ (forall other, other ∉ ids (paymentQueue q) ->
          paymentsQueueItem other q
          = Replied 404 (JObj [("error", JStr "Queued payment not found")]))
    /\ (queueId ∉ ids (paymentQueue q) ->
        getQueuedPayment queueId q' = Some (newItem body e)
        /\ paymentsQueueItem queueId q'
           = Replied 200
               (JObj [("queueId", JStr queueId);
                      ("correlationId", JStr (correlationId body));
                      ("status", JStr "processing");
                      ("attempts", JNum (inject_Z 0));
                      ("maxRetries", JNum (inject_Z 3));
                      ("nextAttempt", JNum (inject_Z 2000));
                      ("queuedAt", JNum (inject_Z (clock e)))]))
    /\ (forall other, other <> queueId ->
          getQueuedPayment other q' = getQueuedPayment other q).
Proof.
  intros Hfree.
  destruct (queuePayment_item body e q Hfree) as (e' & q' & Heq & Hq').
  exists (id (newItem body e)), e', q'. split; [exact Heq |].
  split; [| split].
  - intros other Hnot. unfold paymentsQueueItem, getQueuedPayment.
    now rewrite (find_absent _ _ (ids_absent other _ Hnot)).
  - intros Hnot.
    assert (Hfind : getQueuedPayment (id (newItem body e)) q' = Some (newItem body e)).
    { unfold getQueuedPayment. rewrite Hq'.
      apply find_snoc_new; [now apply ids_absent |].
      now apply bool_decide_eq_true_2. }
    split; [exact Hfind |].
    unfold paymentsQueueItem. rewrite Hfind. reflexivity.
  - intros other Hne. unfold getQueuedPayment. rewrite Hq'.
    apply find_snoc_other. apply bool_decide_eq_false_2. congruence.
Qed.

(** An instance of X15: the first payment enqueued at time 100000. *)
Lemma X15_enqueue_then_lookup_witness :
  paymentsQueueItem "payment_100000_k3x9" afterOneEnqueue
  = Replied 200
      (JObj [("queueId", JStr "payment_100000_k3x9");
             ("correlationId", JStr "a");
             ("status", JStr "processing");
             ("attempts", JNum (inject_Z 0));
             ("maxRetries", JNum (inject_Z 3));
             ("nextAttempt", JNum (inject_Z 2000));
             ("queuedAt", JNum (inject_Z 100000))]).
Proof.
  destruct (X15_enqueue_then_lookup (mkPaymentBody "a" 10)
              (mkEnv 100000 [] [] [] [] ["k3x9"] []) (initialQueue 0))
    as (queueId & e' & q' & Heq & _ & Hnew & _).
  - vm_compute. reflexivity.
  - vm_compute in Heq. injection Heq as <- _ <-.
    apply Hnew. cbn. apply not_elem_of_nil.
Defined.

(** ** The ledger over a whole run *)

Lemma processQueue_ledger e q r k :
  k <> "payment:undefined" ->
  hashes (snd (processQueue (e, q, r))).2 !! k = hashes r !! k.
Proof.
  intros Hk. destruct (paymentQueue q) as [| item items] eqn:Hq.
  - now rewrite (processQueue_empty e q r Hq).
  - destruct (processQueue_general e q r) as
      (kept & n & e' & q' & r' & -> & _ & _ & _ & _ & _ & _ & _ & _ & _ & Hl);
      [congruence |].
    cbn [snd]. now apply Hl.
Qed.

Lemma Served_keys w :
  Served w ->
  forall k, is_Some (hashes (redis w) !! k) -> k = "payment:undefined".
Proof.
  induction 1 as [e s q isUp | body w _ IH | w _ IH | w _ IH | e isUp w _ IH];
    intros k Hk.
  - cbn in Hk. rewrite lookup_empty in Hk. now destruct Hk.
  - destruct (decide (k = "payment:undefined")) as [-> | Hne]; [reflexivity |].
    rewrite (payments_ledger body w k Hne) in Hk. now apply IH.
  - apply IH. revert Hk. unfold paymentsStatus, bind, inPayments, gets, ret.
    destruct (getHealth (env w, paymentsState w)) as [[h1 h2] [e0 s0]].
    cbn. auto.
  - destruct (decide (k = "payment:undefined")) as [-> | Hne]; [reflexivity |].
    apply IH. revert Hk. unfold inWorker.
    pose proof (processQueue_ledger (env w) (queueState w) (redis w) k Hne) as Hl.
    destruct (processQueue (env w, queueState w, redis w)) as [[] [[e1 q1] r1]].
    cbn in *. now rewrite Hl.
  - apply IH. exact Hk.
Qed.

Lemma one_key keys (key : string) :
  NoDup keys -> (forall k, k ∈ keys -> k = key) -> (length keys <= 1)%nat.
Proof.
  intros Hnd Hall. destruct keys as [| a [| b l]]; cbn; try lia.
  exfalso. apply NoDup_cons in Hnd as [Hnot _]. apply Hnot.
  rewrite (Hall a) by (left). rewrite (Hall b) at 1 by (right; left). left.
Qed.

(** X16.  The summary after any run.  In a service that started with an
    empty ledger, whatever payments were handled and whatever the queue
    worker settled since, the ledger holds no key other than
    ["payment:undefined"], so GET /payments-summary lists at most one key
    and reports at most one request for the two processors together. *)
Theorem X16_summary_after_any_run {Num} (zero : Num) (add : Num -> Q -> Num)
  (toFixed2 : Num -> Num) (w : World) (keys : list string) (minTs maxTs : TimeBound) :
  Served w ->
  listsKeys keys (hashes (redis w)) ->
  (forall k, k ∈ keys -> k = "payment:undefined")
  /\ (length keys <= 1)%nat
  /\ forall reply,
       paymentsSummary Num zero add toFixed2 keys minTs maxTs (redis w) = Done reply ->
       0 <= requestsOf Default reply
       /\ 0 <= requestsOf Fallback reply
       /\ requestsOf Default reply + requestsOf Fallback reply <= 1.
Proof.
  intros Hs [Hnd Hin].
  assert (Hall : forall k, k ∈ keys -> k = "payment:undefined").
  { intros k Hk. apply (Served_keys w Hs). now apply Hin. }
  pose proof (one_key keys _ Hnd Hall) as Hlen.
  split; [exact Hall |]. split; [exact Hlen |].
  intros reply Heq.
  destruct (up (redis w)) eqn:Hup.
  - destruct (paymentsSummary_counts zero add toFixed2 keys minTs maxTs (redis w) Hup)
      as (reply' & Heq' & Hcount).
    rewrite Heq in Heq'. injection Heq' as <-.
    rewrite !Hcount.
    pose proof (filter_length_disjoint
                  (counted (hashes (redis w)) Default minTs maxTs)
                  (counted (hashes (redis w)) Fallback minTs maxTs) keys) as Hd.
    assert (forall x, counted (hashes (redis w)) Default minTs maxTs x = true ->
                      counted (hashes (redis w)) Fallback minTs maxTs x = false) as Hex.
    { intros x. unfold counted. destruct (hashes (redis w) !! x) as [data |]; [| discriminate].
      destruct (s_processor data); repeat case_bool_decide; try congruence;
        cbn; intros; try discriminate; auto. }
    specialize (Hd Hex). lia.
  - unfold paymentsSummary in Heq. rewrite Hup in Heq. discriminate.
Qed.

(** An instance of X16: the two payments settled on the default
    processor. *)
Lemma X16_summary_after_any_run_witness :
  let w := snd (payments (mkPaymentBody "b" 20)
                  (snd (payments (mkPaymentBody "a" 10) twoPayments))) in
  exists reply,
    paymentsSummary Q 0%Q Qplus (fun x => x) ["payment:undefined"]
                    Unbounded Unbounded (redis w) = Done reply
    /\ requestsOf Default reply + requestsOf Fallback reply <= 1.
Proof.
  intros w.
  destruct (paymentsSummary_counts 0%Q Qplus (fun x => x) ["payment:undefined"]
              Unbounded Unbounded (redis w)) as (reply & Heq & _);
    [vm_compute; reflexivity |].
  exists reply. split; [exact Heq |].
  assert (Hs : Served w).
  { apply served_payment, served_payment. apply served_start. }
  assert (Hk : listsKeys ["payment:undefined"] (hashes (redis w))).
  { split.
    - repeat constructor. apply not_elem_of_nil.
    - intros k.
      assert (Hh : hashes (redis w)
                   = <["payment:undefined" := mkSettlement Default 10 None 100017]> ∅)
        by (vm_compute; reflexivity).
      rewrite Hh, list_elem_of_singleton.
      destruct (decide (k = "payment:undefined")) as [-> | Hne].
      + rewrite lookup_insert_eq. split; eauto.
      + rewrite lookup_insert_ne by congruence. rewrite lookup_empty.
        split; [congruence | intros [? [=]]]. }
  destruct (X16_summary_after_any_run 0%Q Qplus (fun x => x) w _ Unbounded Unbounded Hs Hk)
    as (_ & _ & H).
  apply (H reply Heq).
Defined.

(** ** The items of the queue *)

Lemma newItem_wellFormed body e : wellFormedItem (newItem body e).
Proof. repeat split; cbn; unfold QUEUE_MAX_RETRIES; lia. Qed.

(** An item that [processQueuedPayment] keeps is still well formed. *)
Lemma processQueuedPayment_item pay e q r :
  wellFormedItem pay ->
  fst (fst (processQueuedPayment pay probeBoth (e, q, r))) = false ->
  wellFormedItem (snd (fst (processQueuedPayment pay probeBoth (e, q, r)))).
Proof.
  intros (Hm & Ha & Hd).
  destruct (Z.lt_ge_cases (clock e - lastAttempt pay) (delay pay)) as [Hnot | Hdue].
  - rewrite (processQueuedPayment_not_due pay probeBoth e q r Hnot). cbn.
    intros _. repeat split; assumption || lia.
  - destruct (processQueuedPayment_attempt pay e q r Hdue)
      as (rm & pay' & e' & q' & r' & calls & h1 & h2
          & -> & _ & _ & _ & Ha' & _ & _ & _ & Hm' & _ & Hcases).
    cbn [fst snd]. intros ->.
    destruct Hcases as [[[=] _] | [[[=] _] | (_ & _ & Hleft & Hd' & _)]].
    unfold wellFormedItem. rewrite Hm', Ha', Hd', Hd, Hm in *.
    unfold QUEUE_MAX_RETRIES, QUEUE_INITIAL_DELAY, QUEUE_BACKOFF_MULTIPLIER,
      QUEUE_MAX_DELAY in *.
    assert (attempts pay = 0 \/ attempts pay = 1) as [-> | ->] by lia;
      cbn; repeat split; lia.
Qed.

Lemma processBatch_items batch :
  forall remaining n e q r,
    Forall wellFormedItem batch ->
    Forall wellFormedItem remaining ->
    Forall wellFormedItem
           (fst (fst (processBatch probeBoth batch remaining n (e, q, r)))).
Proof.
  induction batch as [| pay rest IH]; intros remaining n e q r Hb Hr.
  - exact Hr.
  - apply Forall_cons in Hb as [Hpay Hrest].
    cbn [processBatch]. unfold bind.
    pose proof (processQueuedPayment_item pay e q r Hpay) as Hitem.
    destruct (processQueuedPayment pay probeBoth (e, q, r)) as [[rm pay'] [[e1 q1] r1]].
    cbn [fst snd] in Hitem.
    destruct rm.
    + unfold setLastQueueActivity, modify. apply IH; assumption.
    + apply IH; [assumption |]. apply Forall_cons. split; [now apply Hitem | assumption].
Qed.

Lemma processQueue_items e q r :
  Forall wellFormedItem (paymentQueue q) ->
  Forall wellFormedItem (paymentQueue (snd (processQueue (e, q, r))).1.2).
Proof.
  intros Hq. destruct (paymentQueue q) as [| item items] eqn:Heq.
  - rewrite (processQueue_empty e q r Heq). constructor.
  - unfold processQueue, bind, gets. rewrite Heq. cbn [length Nat.eqb].
    pose proof (processBatch_items (take QUEUE_BATCH_SIZE (item :: items))
                  (drop QUEUE_BATCH_SIZE (item :: items)) 0 e q r) as Hb.
    destruct (processBatch probeBoth _ _ 0 (e, q, r)) as [[remaining n] [[e1 q1] r1]].
    cbn [fst snd] in Hb. unfold setQueue, modify. cbn.
    apply Hb; [now apply Forall_take | now apply Forall_drop].
Qed.

(** X17.  The items of the queue.  As long as enqueues and cycles each run
    to their end before the next starts, every item in the queue has
    [maxRetries] 3, has made fewer than 3 attempts, and waits
    [2000 * 2 ^ attempts] ms after its last attempt: 2 s before the first,
    4 s after one failure, 8 s after two.  The cap [QUEUE_MAX_DELAY] (60 s)
    is never reached. *)
Theorem X17_queue_items (q : QueueState) :
  QueueReachable q ->
  Forall (fun pay =>
            maxRetries pay = 3
            /\ 0 <= attempts pay <= 2
            /\ delay pay = 2000 * 2 ^ attempts pay
            /\ delay pay <= 8000 < QUEUE_MAX_DELAY)
         (paymentQueue q).
Proof.
  intros Hreach.
  assert (Hwf : Forall wellFormedItem (paymentQueue q)).
  { induction Hreach as [now | body e q _ IH | now q _ IH | e r q _ IH Hrun].
    - constructor.
    - destruct (Z.le_gt_cases QUEUE_MAX_SIZE (queueSize q)) as [Hfull | Hfree].
      + now rewrite (queuePayment_full body e q Hfull).
      + destruct (queuePayment_item body e q ltac:(lia)) as (e' & q' & -> & Hq').
        cbn [snd]. rewrite Hq'. apply Forall_app. split; [assumption |].
        apply Forall_cons. split; [apply newItem_wellFormed | constructor].
    - now destruct (forceProcessQueue_spec now q) as (-> & _).
    - now apply processQueue_items. }
  eapply Forall_impl; [exact Hwf |].
  intros pay (Hm & Ha & Hd).
  unfold QUEUE_MAX_RETRIES, QUEUE_INITIAL_DELAY, QUEUE_BACKOFF_MULTIPLIER,
    QUEUE_MAX_DELAY in *.
  rewrite Hd.
  assert (attempts pay = 0 \/ attempts pay = 1 \/ attempts pay = 2) as [-> | [-> | ->]]
    by lia; cbn; repeat split; lia.
Qed.

(** An instance of X17: the queue after one enqueue. *)
Lemma X17_queue_items_witness :
  Forall (fun pay =>
            maxRetries pay = 3
            /\ 0 <= attempts pay <= 2
            /\ delay pay = 2000 * 2 ^ attempts pay
            /\ delay pay <= 8000 < QUEUE_MAX_DELAY)
         (paymentQueue afterOneEnqueue).
Proof.
  apply (X17_queue_items afterOneEnqueue).
  apply queue_enqueue, queue_loaded.
Defined.

(** ** What [makeRequest] returns *)

(** A pass through the loop on an answer that settles the request. *)
Lemma loopBody_answered p payload attempt e s latency st data rest :
  replies e p = Reply latency st (Some data) :: rest ->
  Z.of_N latency < REQUEST_TIMEOUT ->
  st < 500 ->
  exists e' s' seg,
    loopBody p payload attempt (e, s)
    = (Returned (mkRequestResult true (Some data) (Some st)), (e', s'))
    /\ replies e' p = rest
    /\ log e' = seg ++ log e
    /\ fetchCount seg = 1%nat
    /\ statsOf s' p = recordSucces (statsOf s p).
Proof.
  intros Hr Hl Hst.
  unfold loopBody, tryBlock, bind, onFst.
  rewrite (fetch_reply REQUEST_TIMEOUT p payload e latency st (Some data) rest Hr Hl).
  destruct (ok st); [| destruct (Z.leb_spec 500 st); [lia |]];
    unfold bind, recordSuccesOf, returnJson, ret;
    eexists _, _, [_; _]; (split; [reflexivity |]);
    (split; [destruct p; reflexivity |]); (split; [destruct p; reflexivity |]);
    (split; [reflexivity |]); apply statsOf_setStats.
Qed.

(** A pass through the loop on any other answer: the attempt fails and the
    loop goes on. *)
Lemma loopBody_unanswered p payload attempt e s :
  0 <= attempt ->
  answers (nextReply e p) = false ->
  exists e' s' seg,
    loopBody p payload attempt (e, s) = (Continued, (e', s'))
    /\ replies e' p = tail (replies e p)
    /\ log e' = seg ++ log e
    /\ fetchCount seg = 1%nat.
Proof.
  unfold nextReply, answers, loopBody, tryBlock, catchBlock, bind, onFst, fetch, when,
    returnJson, recordSuccesOf, recordFailureOf, sleep, modify, ret, ok,
    REQUEST_TIMEOUT, MAX_RETRIES.
  destruct e as [c r1 r2 pr1 pr2 rn lg], s as [hc st1 st2].
  destruct p; cbn [replies replies1 replies2]; intros Hatt Hno.
  - destruct r1 as [| [latency st body | latency] rest]; try destruct body;
      cbn in *; case_conditions; cbn; case_conditions;
      booleans; comparisons; try lia; unanswered_leaf.
  - destruct r2 as [| [latency st body | latency] rest]; try destruct body;
      cbn in *; case_conditions; cbn; case_conditions;
      booleans; comparisons; try lia; unanswered_leaf.
Qed.

Lemma requestLoop_first_answer pre :
  forall n p payload attempt e s latency st data rest,
    0 <= attempt ->
    (length pre < n)%nat ->
    replies e p = pre ++ Reply latency st (Some data) :: rest ->
    Forall (fun a => answers a = false) pre ->
    Z.of_N latency < REQUEST_TIMEOUT ->
    st < 500 ->
    exists e' s' seg,
      requestLoop n p payload attempt (e, s)
      = (mkRequestResult true (Some data) (Some st), (e', s'))
      /\ replies e' p = rest
      /\ log e' = seg ++ log e
      /\ fetchCount seg = S (length pre)
      /\ failures (statsOf s' p) = 0
      /\ circuitOpen (statsOf s' p) = false.
Proof.
  induction pre as [| a pre IH];
    intros n p payload attempt e s latency st data rest Hatt Hn Hr Hpre Hl Hst;
    (destruct n as [| n]; [cbn in Hn; lia |]); cbn [requestLoop]; unfold bind.
  - destruct (loopBody_answered p payload attempt e s latency st data rest Hr Hl Hst)
      as (e' & s' & seg & -> & H1 & H2 & H3 & H4).
    unfold ret. exists e', s', seg. repeat (split; [first [reflexivity | assumption] |]).
    rewrite H4. split; reflexivity.
  - apply Forall_cons in Hpre as [Ha Hpre].
    destruct (loopBody_unanswered p payload attempt e s Hatt) as
      (e1 & s1 & seg1 & -> & H1 & H2 & H3).
    { unfold nextReply. rewrite Hr. exact Ha. }
    rewrite Hr in H1. cbn [app tail] in H1.
    destruct (IH n p payload (attempt + 1) e1 s1 latency st data rest)
      as (e' & s' & seg & -> & K1 & K2 & K3 & K4 & K5); try assumption;
      [lia | cbn in Hn; lia |].
    exists e', s', (seg ++ seg1). split; [reflexivity |]. split; [assumption |].
    split; [rewrite K2, H2, app_assoc; reflexivity |].
    split; [rewrite fetchCount_app, K3, H3; cbn [length]; lia |].
    split; assumption.
Qed.

Lemma requestLoop_no_answer n :
  forall p payload attempt e s,
    0 <= attempt ->
    Forall (fun a => answers a = false) (take n (replies e p)) ->
    exists e' s' seg,
      requestLoop n p payload attempt (e, s) = (failed_, (e', s'))
      /\ replies e' p = drop n (replies e p)
      /\ log e' = seg ++ log e
      /\ fetchCount seg = n.
Proof.
  induction n as [| n IH]; intros p payload attempt e s Hatt Hno.
  - exists e, s, []. repeat split.
  - cbn [requestLoop]. unfold bind.
    destruct (loopBody_unanswered p payload attempt e s Hatt) as
      (e1 & s1 & seg1 & -> & H1 & H2 & H3).
    { unfold nextReply. destruct (replies e p) as [| a l]; [reflexivity |].
      cbn [take] in Hno. now apply Forall_cons in Hno as [Ha _]. }
    destruct (IH p payload (attempt + 1) e1 s1) as (e' & s' & seg & -> & K1 & K2 & K3);
      [lia | |].
    { rewrite H1. destruct (replies e p) as [| a l]; cbn [take tail] in *;
        [rewrite take_nil; constructor |].
      now apply Forall_cons in Hno as [_ Hl]. }
    exists e', s', (seg ++ seg1). split; [reflexivity |].
    split; [rewrite K1, H1; destruct (replies e p); cbn [tail drop];
            [now rewrite drop_nil | reflexivity] |].
    split; [rewrite K2, H2, app_assoc; reflexivity |].
    rewrite fetchCount_app, K3, H3. lia.
Qed.

(** X18.  What [makeRequest] returns.  With the breaker letting the request
    through, the call succeeds exactly when one of the next three answers of
    the processor arrives before the abort with a status below 500 and a body
    that parses: it returns the first such answer, having made one call per
    answer up to it, and leaves the breaker closed with a count of 0.  When
    none of the next three answers is such an answer it returns
    [{success: false}] after three calls. *)
Theorem X18_makeRequest_result
  (p : ProcessorType) (payload : PaymentBody) (e : Env) (s : PaymentsState) :
  fst (isCircuitOpen (clock e) (statsOf s p)) = false ->
  (forall pre latency st data rest,
      replies e p = pre ++ Reply latency st (Some data) :: rest ->
      Forall (fun a => answers a = false) pre ->
      Z.of_nat (length pre) <= MAX_RETRIES ->
      answers (Reply latency st (Some data)) = true ->
      exists e' s' seg,
        makeRequest p payload (e, s)
        = (mkRequestResult true (Some data) (Some st), (e', s'))
        /\ replies e' p = rest
        /\ log e' = seg ++ log e
        /\ fetchCount seg = S (length pre)
        /\ failures (statsOf s' p) = 0
        /\ circuitOpen (statsOf s' p) = false)
  /\ (Forall (fun a => answers a = false) (take 3 (replies e p)) ->
      exists e' s' seg,
        makeRequest p payload (e, s) = (failed_, (e', s'))
        /\ replies e' p = drop 3 (replies e p)
        /\ log e' = seg ++ log e
        /\ fetchCount seg = 3%nat).
Proof.
  intros Hclosed. unfold makeRequest, bind, isCircuitOpenOf.
  destruct (isCircuitOpen (clock e) (statsOf s p)) as [b st0].
  cbn [fst] in Hclosed. subst b.
  change (Z.to_nat (MAX_RETRIES + 1)) with 3%nat. split.
  - intros pre latency st data rest Hr Hpre Hlen Hans.
    cbn [answers] in Hans. apply andb_true_iff in Hans as [Hl Hst].
    apply Z.ltb_lt in Hl, Hst.
    destruct (requestLoop_first_answer pre 3 p payload 0 e (setStats p st0 s)
                latency st data rest) as (e' & s' & seg & -> & K1 & K2 & K3 & K4 & K5);
      try assumption; [lia | unfold MAX_RETRIES in Hlen; lia |].
    exists e', s', seg. repeat (split; [first [reflexivity | assumption] |]).
    assumption.
  - intros Hno.
    destruct (requestLoop_no_answer 3 p payload 0 e (setStats p st0 s))
      as (e' & s' & seg & -> & K1 & K2 & K3); [lia | assumption |].
    exists e', s', seg. repeat (split; [first [reflexivity | assumption] |]).
    assumption.
Qed.

(** An instance of X18: a 503, then a timeout, then a 201. *)
Lemma X18_makeRequest_result_witness :
  let e := mkEnv 100000
             [Reply 20 503 None; Reply 10000 200 (Some accepted);
              Reply 30 201 (Some accepted)] [] [] [] [] [] in
  exists e' s' seg,
    makeRequest Default (mkPaymentBody "a" 10) (e, initialPayments)
    = (mkRequestResult true (Some accepted) (Some 201), (e', s'))
    /\ replies e' Default = []
    /\ log e' = seg ++ log e
    /\ fetchCount seg = 3%nat
    /\ failures (statsOf s' Default) = 0
    /\ circuitOpen (statsOf s' Default) = false.
Proof.
  intros e.
  destruct (X18_makeRequest_result Default (mkPaymentBody "a" 10) e initialPayments)
    as [H _]; [reflexivity |].
  apply (H [Reply 20 503 None; Reply 10000 200 (Some accepted)] 30%N 201 accepted []).
  - reflexivity.
  - repeat constructor.
  - vm_compute. discriminate.
  - reflexivity.
Defined.

(** ** A payment enqueued while a cycle waits *)

(** With nothing happening meanwhile, the cycle is [processQueue]. *)
Lemma processQueueDuring_nothing s : processQueueDuring (ret tt) s = processQueue s.
Proof.
  destruct s as [[e q] r]. unfold processQueueDuring, processQueue, bind, gets.
  destruct (length (paymentQueue q) =? 0)%nat; [reflexivity |].
  destruct (take QUEUE_BATCH_SIZE (paymentQueue q)) as [| pay rest]; [reflexivity |].
  cbn [processBatchDuring processBatch]. unfold bind.
  assert (Hsame : processQueuedPaymentDuring (ret tt) pay probeBoth (e, q, r)
                  = processQueuedPayment pay probeBoth (e, q, r)).
  { unfold processQueuedPaymentDuring, processQueuedPayment, bind, gets.
    destruct (clock e - lastAttempt pay <? delay pay); [reflexivity |].
    unfold workerEnv. destruct (probeBoth e) as [[h1 h2] e1]. reflexivity. }
  now rewrite Hsame.
Qed.

Lemma enqueueMeanwhile_spec body e q r :
  queueSize q < QUEUE_MAX_SIZE ->
  queueProcessorRunning q = true ->
  exists e' q',
    enqueueMeanwhile body (e, q, r) = (tt, (e', q', r))
    /\ log e' = log e
    /\ queued (queueStats q') = queued (queueStats q) + 1
    /\ processed (queueStats q') = processed (queueStats q)
    /\ failed (queueStats q') = failed (queueStats q).
Proof.
  intros Hfree Hrun. unfold enqueueMeanwhile.
  destruct (queuePayment_stats body e q Hfree) as (Hs & _).
  destruct (queuePayment_free body e q Hfree) as (item & e' & q' & Heq & Hl & _).
  rewrite Heq in *. cbn [snd] in Hs. exists e', q'. split; [reflexivity |].
  split; [exact Hl |]. rewrite Hs. cbn. auto.
Qed.

(** The attempt on a due item during which a payment is enqueued: the
    counters move as in any attempt, and [queued] is one higher. *)
Lemma processQueuedPaymentDuring_enqueue body pay e q r :
  delay pay <= clock e - lastAttempt pay ->
  queueSize q < QUEUE_MAX_SIZE ->
  queueProcessorRunning q = true ->
  exists (rm : bool) pay' e' q' r',
    processQueuedPaymentDuring (enqueueMeanwhile body) pay probeBoth (e, q, r)
    = ((rm, pay'), (e', q', r'))
    /\ id pay' = id pay
    /\ queued (queueStats q') = queued (queueStats q) + 1
    /\ processed (queueStats q') + failed (queueStats q')
       = processed (queueStats q) + failed (queueStats q) + (if rm then 1 else 0).
Proof.
  intros Hdue Hfree Hrun. unfold processQueuedPaymentDuring, bind, gets.
  destruct (Z.ltb_spec (clock e - lastAttempt pay) (delay pay)); [lia |].
  unfold workerEnv. destruct (probeBoth e) as [[h1 h2] e1].
  destruct (enqueueMeanwhile_spec body e1 q r Hfree Hrun)
    as (e2 & q2 & -> & _ & Hq & Hp & Hf).
  destruct (tryProcessors_general (processorsToTry h1 h2) (setAttempt (clock e) pay) e2 q2 r)
    as (b & e' & r' & calls & -> & _).
  destruct b.
  - unfold ret. eexists true, _, e', _, r'. split; [reflexivity |].
    cbn. repeat split; lia.
  - cbn [maxRetries attempts setAttempt].
    destruct (maxRetries pay <=? attempts pay + 1); unfold updateStats, modify, ret.
    + eexists true, _, e', _, r'. split; [reflexivity |]. cbn. repeat split; lia.
    + eexists false, _, e', _, r'. split; [reflexivity |]. cbn. repeat split; lia.
Qed.

(** X19.  A payment enqueued while a cycle waits is lost.  When a POST
    /payments handler reaches [queuePayment] while a cycle of the queue
    worker is waiting for the health probes of the first item of its batch
    (an item that is due), the payment is counted in [queued] and gets its
    id, but the cycle ends by assigning to [paymentQueue] the list it built
    from the slices it took before: the queue holds items of the old queue
    only, and the payment is counted neither as processed nor as failed.
    The number of payments the counters do not account for goes up by
    one. *)
Theorem X19_enqueue_during_a_cycle_is_lost
  (body : PaymentBody) (e : Env) (q : QueueState) (r : Redis)
  (first : QueuedPayment) (others : list QueuedPayment) :
  paymentQueue q = first :: others ->
  delay first <= clock e - lastAttempt first ->
  queueSize q < QUEUE_MAX_SIZE ->
  queueProcessorRunning q = true ->
  let q' := workerQueue (snd (processQueueDuring (enqueueMeanwhile body) (e, q, r))) in
  (exists kept,
      paymentQueue q' = kept ++ drop QUEUE_BATCH_SIZE (paymentQueue q)
      /\ ids kept `sublist_of` rev (ids (take QUEUE_BATCH_SIZE (paymentQueue q))))
  /\ queued (queueStats q') = queued (queueStats q) + 1
  /\ unaccounted q' = unaccounted q + 1.
Proof.
  intros Hq Hdue Hfree Hrun q'. subst q'.
  unfold processQueueDuring, bind, gets. rewrite Hq. cbn [length Nat.eqb].
  change (take QUEUE_BATCH_SIZE (first :: others))
    with (first :: take 9 others).
  change (drop QUEUE_BATCH_SIZE (first :: others)) with (drop 9 others).
  cbn [processBatchDuring]. unfold bind.
  destruct (processQueuedPaymentDuring_enqueue body first e q r Hdue Hfree Hrun)
    as (rm & pay' & e1 & q1 & r1 & -> & Hid & Hqd & Hpf).
  assert (Hlen : Z.of_nat (length (first :: others))
                 = 1 + Z.of_nat (length (take 9 others))
                   + Z.of_nat (length (drop 9 others))).
  { rewrite <- (take_drop 9 others) at 1.
    rewrite length_cons, length_app, Nat2Z.inj_succ, Nat2Z.inj_add. lia. }
  unfold unaccounted. rewrite Hq, Hlen.
  destruct rm.
  - unfold setLastQueueActivity, modify.
    destruct (processBatch_general (take 9 others) (drop 9 others) (0 + 1) e1
                (mkQueueState (paymentQueue q1) (queueProcessorRunning q1) (clock e1)
                              (queueStats q1) (processQueueTimer q1)) r1)
      as (kept & n' & e' & q2 & r2 & -> & _ & _ & _ & K4 & K5 & K6 & _ & K8 & _).
    cbn [queueStats] in K4, K5.
    unfold setQueue, modify. cbn [snd workerQueue paymentQueue queueStats].
    split; [| split].
    + exists kept. split; [reflexivity |].
      cbn [ids map rev] in *. now apply sublist_inserts_r.
    + lia.
    + rewrite length_app, Nat2Z.inj_add. lia.
  - destruct (processBatch_general (take 9 others) (pay' :: drop 9 others) 0 e1 q1 r1)
      as (kept & n' & e' & q2 & r2 & -> & _ & _ & _ & K4 & K5 & K6 & _ & K8 & _).
    unfold setQueue, modify. cbn [snd workerQueue paymentQueue queueStats].
    split; [| split].
    + exists (kept ++ [pay']). split; [now rewrite <- app_assoc |].
      unfold ids in *. rewrite map_app. cbn [map rev]. rewrite Hid.
      apply sublist_app; [assumption | reflexivity].
    + lia.
    + rewrite length_app, length_cons, Nat2Z.inj_add, Nat2Z.inj_succ. lia.
Qed.

(** An instance of X19: one payment is waiting and due, nothing answers,
    and payment "d" is enqueued during the attempt; afterwards the queue
    holds the old item only although two payments were counted as queued. *)
Lemma X19_enqueue_during_a_cycle_is_lost_witness :
  let q' := workerQueue (snd (processQueueDuring
                                (enqueueMeanwhile (mkPaymentBody "d" 40))
                                (allDown true))) in
  queued (queueStats q') = 2 /\ unaccounted q' = 1.
Proof.
  pose proof (X19_enqueue_during_a_cycle_is_lost (mkPaymentBody "d" 40)
                (mkEnv 100000 [] [] [] [] [] [])
                (mkQueueState [waiting] true 90000 (mkQueueStats 1 0 0 0) (Some 100000))
                (mkRedis true ∅) waiting [] eq_refl) as H.
  cbn zeta in H. destruct H as (_ & H1 & H2).
  - vm_compute. discriminate.
  - vm_compute. reflexivity.
  - reflexivity.
  - split; [exact H1 | exact H2].
Defined.
